(** * rules-doctor: check evaluation and dependency-aware aggregation

    A shallow embedding of [src/types.ts], [src/checker.ts] and
    [src/index.ts].  A string is held as the bytes of its UTF-8 encoding,
    one [ascii] each; the operations the program uses on strings take
    ASCII arguments only, so that they act on the bytes as they act on the
    code units, and the order of [sort] is written out on the bytes.  The
    network, the file system and the regular-expression engine of the
    JavaScript runtime are the fields of a [Platform], and asynchronous
    code is sequential code in a state-and-exception monad whose state
    records every request that was issued. *)

From stdpp Require Import base list strings sorting pretty.
From Stdlib Require Import Ascii.

#[local] Set Warnings "-clear-no-such-hyp".

(** ** JavaScript string primitives used by the program *)

Module Js.

(** The character [U+0022], which a literal cannot hold. *)
Definition dquote : string := String "034"%char EmptyString.

(** [s.startsWith(p)] *)
Definition startsWith (s p : string) : bool := String.prefix p s.

(** [s.slice(1)] *)
Definition slice1 (s : string) : string :=
  match s with
  | EmptyString => EmptyString
  | String _ t => t
  end.

(** [s.includes(needle)] *)
Fixpoint includes (s needle : string) : bool :=
  String.prefix needle s ||
  match s with
  | EmptyString => false
  | String _ t => includes t needle
  end.

(** [s.split(sep)] for a one-character separator. *)
Fixpoint split (sep : ascii) (s : string) : list string :=
  match s with
  | EmptyString => [EmptyString]
  | String c t =>
      if Ascii.eqb c sep then EmptyString :: split sep t
      else match split sep t with
           | h :: r => String c h :: r
           | [] => [String c EmptyString]
           end
  end.

(** [s.replace(/c/g, by)] for a one-character pattern. *)
Fixpoint replaceAll (c : ascii) (by_ : string) (s : string) : string :=
  match s with
  | EmptyString => EmptyString
  | String d t =>
      if Ascii.eqb d c then by_ +:+ replaceAll c by_ t
      else String d (replaceAll c by_ t)
  end.

(** Truthiness of a string: the empty string is falsy. *)
Definition truthy (s : string) : bool :=
  match s with
  | EmptyString => false
  | String _ _ => true
  end.

(** Truthiness of an optional string ([undefined] is falsy). *)
Definition truthy_opt (s : option string) : bool :=
  match s with
  | None => false
  | Some s => truthy s
  end.

Definition hex_digit (n : N) : ascii :=
  if (n <? 10)%N then ascii_of_N (48 + n) else ascii_of_N (55 + n).

Definition unreserved (c : ascii) : bool :=
  let n := N_of_ascii c in
  ((65 <=? n) && (n <=? 90))%N || ((97 <=? n) && (n <=? 122))%N
  || ((48 <=? n) && (n <=? 57))%N
  || bool_decide (c ∈ ["-"; "_"; "."; "!"; "~"; "*"; "'"; "("; ")"]%char).

(** [encodeURIComponent(s)] on code units below 128. *)
Fixpoint encodeURIComponent (s : string) : string :=
  match s with
  | EmptyString => EmptyString
  | String c t =>
      if unreserved c then String c (encodeURIComponent t)
      else
        let n := N_of_ascii c in
        String "%" (String (hex_digit (n / 16)) (String (hex_digit (n mod 16))
          (encodeURIComponent t)))
  end.

(** [[...new Set(l)]]: the distinct elements in order of first occurrence. *)
Fixpoint set_from (seen l : list string) : list string :=
  match l with
  | [] => seen
  | x :: t =>
      if bool_decide (x ∈ seen) then set_from seen t
      else set_from (seen ++ [x]) t
  end.

Definition unique (l : list string) : list string := set_from [] l.

(** An [Error] object: its [name] and its [message].  Whatever the program
    or the platform throws is such an object, so that [error instanceof
    Error] holds in every handler. *)
Record Error := mkError { name : string; message : string }.

(** [new Error(msg)] *)
Definition error (msg : string) : Error := mkError "Error" msg.

(** [String(e)], i.e. [Error.prototype.toString]. *)
Definition toString (e : Error) : string :=
  if negb (truthy (name e)) then message e
  else if negb (truthy (message e)) then name e
  else name e +:+ ": " +:+ message e.

End Js.

(** ** [src/types.ts] *)

Module ExcludeEntry.
Record t := mk { repository : string; reason : option string }.
End ExcludeEntry.

Module RequiresEntry.
Record t := mk { check : string; reason : option string }.
End RequiresEntry.

Module FileCheck.
Record t := mk {
  name : string;
  file : string;
  pattern : string;
  description : option string;
  enabled : option bool;
  exclude : option (list ExcludeEntry.t);
  requires : option (list RequiresEntry.t)
}.
End FileCheck.

Module StaticRepositories.
Record t := mk { enabled : bool; list : list string }.
End StaticRepositories.

Module DynamicRepositories.
Record t := mk {
  enabled : bool;
  source : string;
  organization : string;
  topic : string
}.
End DynamicRepositories.

Module Config.
Record t := mk {
  repositories : option StaticRepositories.t;
  dynamicRepositories : option DynamicRepositories.t;
  checks : list FileCheck.t
}.
End Config.

Module CheckResult.
Record t := mk {
  repository : string;
  check : FileCheck.t;
  filePath : string;
  passed : bool;
  error : option string;
  requires : option (list RequiresEntry.t)
}.
End CheckResult.

(** ** The runtime the program runs on *)

Module GitHubRepository.
Record t := mk { full_name : string; topics : list string }.
End GitHubRepository.

Module GitHubSearchResponse.
Record t := mk { items : list GitHubRepository.t; total_count : N }.
End GitHubSearchResponse.

(** What [await fetch(url)] resolves to.  [text] and [json] are the
    outcomes of [await response.text()] and [await response.json()]. *)
Module Response.
Record t := mk {
  ok : bool;
  status : N;
  statusText : string;
  text : Js.Error + string;
  json : Js.Error + GitHubSearchResponse.t
}.
End Response.

(** The collaborators of the program: the network ([fetch]), the file
    system ([readConfig] stands for [readFile] followed by [JSON.parse],
    [writeFile] for the report sink) and the regular-expression engine.
    [RegExp_new] returns the engine's reason when the pattern is
    malformed.  The network and the file system may answer differently
    from one call to the next: they thread a [World]. *)
Class Platform := {
  World : Type;
  fetch : string -> World -> (Js.Error + Response.t) * World;
  readConfig : string -> World -> (Js.Error + Config.t) * World;
  writeFile : string -> World -> (Js.Error + unit) * World;
  RegExp : Type;
  RegExp_new : string -> string + RegExp;
  RegExp_test : RegExp -> string -> bool
}.

(** What a run does that an observer can see.  [ConsoleError text] is a
    call of [console.error] whose arguments are strings, [text] being what
    it writes: the arguments with a space between them.
    [ConsoleErrorWith label error] is the call [console.error(label, error)]
    with an error object: what that writes after the label is the
    inspection of the object by the runtime, with the lines of its stack,
    and the event records the two arguments instead. *)
Inductive Event :=
| Fetch (url : string)
| ConsoleError (text : string)
| ConsoleErrorWith (label : string) (error : Js.Error)
| ReadFile (path : string)
| WriteFile (path : string).

Section Program.
Context `{P : Platform}.

Record State := mkState { world : World; trace : list Event }.

(** Computations that may throw and that act on the world. *)
Definition M (A : Type) : Type := State -> (Js.Error + A) * State.

Definition ret {A} (a : A) : M A := fun st => (inr a, st).

Definition throw {A} (e : Js.Error) : M A := fun st => (inl e, st).

Definition bind {A B} (m : M A) (k : A -> M B) : M B :=
  fun st =>
    match m st with
    | (inl e, st') => (inl e, st')
    | (inr a, st') => k a st'
    end.

(** [try { m } catch (error) { h error }] *)
Definition try_catch {A} (m : M A) (h : Js.Error -> M A) : M A :=
  fun st =>
    match m st with
    | (inl e, st') => h e st'
    | (inr a, st') => (inr a, st')
    end.

(** A value that is thrown when it is an error. *)
Definition lift {A} (r : Js.Error + A) : M A :=
  match r with
  | inl e => throw e
  | inr a => ret a
  end.

Definition emit (ev : Event) : M unit :=
  fun st => (inr tt, mkState (world st) (trace st ++ [ev])).

(** An effect of the platform, recorded in the trace. *)
Definition effect {A} (ev : Event)
    (f : World -> (Js.Error + A) * World) : M A :=
  fun st =>
    let (r, w) := f (world st) in
    (r, mkState w (trace st ++ [ev])).

Definition js_fetch (url : string) : M Response.t :=
  effect (Fetch url) (fetch url).

Definition console_error (text : string) : M unit :=
  emit (ConsoleError text).

Definition console_error_with (label : string) (error : Js.Error) : M unit :=
  emit (ConsoleErrorWith label error).

End Program.

Notation "'let*' x ':=' m 'in' k" := (bind m (fun x => k))
  (at level 10, x name, m at level 100, k at level 200,
   format "'[v' 'let*'  x  ':='  m  'in' '/' k ']'").
Notation "m ';;' k" := (bind m (fun _ => k))
  (at level 100, k at level 200, right associativity).

(** ** [src/checker.ts] *)

Section Checker.
Context `{P : Platform}.

(** The message V8 gives the [SyntaxError] of [new RegExp(pattern)]. *)
Definition regexp_syntax_error (pattern reason : string) : Js.Error :=
  Js.mkError "SyntaxError"
    ("Invalid regular expression: /" +:+ pattern +:+ "/: " +:+ reason).

(** [new RegExp(pattern)] *)
Definition new_RegExp (pattern : string) : Js.Error + RegExp :=
  match RegExp_new pattern with
  | inl reason => inl (regexp_syntax_error pattern reason)
  | inr regex => inr regex
  end.

Definition search_url : string :=
  let query := "org:bazel-contrib topic:aspect-build" in
  "https://api.github.com/search/repositories?q="
    +:+ Js.encodeURIComponent query +:+ "&per_page=100".

Definition fetchBazelContribRepositories : M (list string) :=
  try_catch
    (let url := search_url in
     let* response := js_fetch url in
     if negb (Response.ok response) then
       throw (Js.error ("GitHub API request failed: "
                        +:+ pretty (Response.status response) +:+ " "
                        +:+ Response.statusText response))
     else
       let* data := lift (Response.json response) in
       let repositories :=
         map GitHubRepository.full_name (GitHubSearchResponse.items data) in
       ret repositories)
    (fun error =>
       console_error_with "Failed to fetch repositories from GitHub API:"
         error ;;
       throw (Js.error ("Failed to fetch repositories: "
                        +:+ Js.message error))).

Definition raw_url (owner repoName branch filePath : string) : string :=
  "https://raw.githubusercontent.com/" +:+ owner +:+ "/" +:+ repoName
    +:+ "/" +:+ branch +:+ "/" +:+ filePath.

(** [const [owner, repoName] = repoPath.split('/')]: a component that is
    missing is [undefined], which is as falsy as an empty one. *)
Definition owner_and_repo (repoPath : string) : option (string * string) :=
  match Js.split "/" repoPath with
  | owner :: repoName :: _ =>
      if negb (Js.truthy owner) || negb (Js.truthy repoName) then None
      else Some (owner, repoName)
  | _ => None
  end.

Definition fetchFileContent (repoPath filePath : string) : M string :=
  match owner_and_repo repoPath with
  | None =>
      throw (Js.error ("Invalid repository format: " +:+ repoPath
                       +:+ ". Expected " +:+ Js.dquote +:+ "owner/repo"
                       +:+ Js.dquote))
  | Some (owner, repoName) =>
      let url := raw_url owner repoName "main" filePath in
      try_catch
        (let* response := js_fetch url in
         if negb (Response.ok response) then
           let masterUrl := raw_url owner repoName "master" filePath in
           let* masterResponse := js_fetch masterUrl in
           if negb (Response.ok masterResponse) then
             throw (Js.error ("File not found: " +:+ filePath))
           else lift (Response.text masterResponse)
         else lift (Response.text response))
        (fun error =>
           throw (Js.error ("Failed to fetch " +:+ filePath +:+ ": "
                            +:+ Js.toString error)))
  end.

Definition runCheck (content : string) (check : FileCheck.t)
    : Js.Error + bool :=
  let isNegated := Js.startsWith (FileCheck.pattern check) "!" in
  let pattern :=
    if isNegated then Js.slice1 (FileCheck.pattern check)
    else FileCheck.pattern check in
  match new_RegExp pattern with
  | inl e => inl e
  | inr regex =>
      let matches := RegExp_test regex content in
      inr (if isNegated then negb matches else matches)
  end.

(** [check.exclude && check.exclude.some(e => e.repository === repoPath)] *)
Definition excluded (check : FileCheck.t) (repoPath : string) : bool :=
  match FileCheck.exclude check with
  | None => false
  | Some entries =>
      existsb (fun exclude =>
                 bool_decide (ExcludeEntry.repository exclude = repoPath))
              entries
  end.

(** The [try]/[catch] of the loop body: the Result pushed for [check]. *)
Definition evaluate (repoPath : string) (check : FileCheck.t)
    : M CheckResult.t :=
  try_catch
    (let* content := fetchFileContent repoPath (FileCheck.file check) in
     let* passed := lift (runCheck content check) in
     ret (CheckResult.mk repoPath check (FileCheck.file check) passed None
            (if passed then None else FileCheck.requires check)))
    (fun error =>
       ret (CheckResult.mk repoPath check (FileCheck.file check) false
              (Some (Js.message error)) (FileCheck.requires check))).

(** The [for] loop of [checkRepository], [results] being the array it
    pushes to. *)
Fixpoint checkRepository_loop (repoPath : string)
    (checks : list FileCheck.t) (results : list CheckResult.t)
    : M (list CheckResult.t) :=
  match checks with
  | [] => ret results
  | check :: rest =>
      if excluded check repoPath then
        checkRepository_loop repoPath rest results
      else
        let* r := evaluate repoPath check in
        checkRepository_loop repoPath rest (results ++ [r])
  end.

Definition checkRepository (repoPath : string) (checks : list FileCheck.t)
    : M (list CheckResult.t) :=
  checkRepository_loop repoPath checks [].

(** The [for] loop of [checkAllRepositories]. *)
Fixpoint checkAllRepositories_loop (repositories : list string)
    (checks : list FileCheck.t) (allResults : list CheckResult.t)
    : M (list CheckResult.t) :=
  match repositories with
  | [] => ret allResults
  | repo :: rest =>
      let* results := checkRepository repo checks in
      checkAllRepositories_loop rest checks (allResults ++ results)
  end.

(** [enabledChecks] is computed for the progress line; the loop is handed
    [checks]. *)
Definition checkAllRepositories (repositories : list string)
    (checks : list FileCheck.t) : M (list CheckResult.t) :=
  let enabledChecks :=
    filter (fun check => FileCheck.enabled check <> Some false) checks in
  checkAllRepositories_loop repositories checks [].

End Checker.

(** ** [Map<string, V>]: keys in order of insertion *)

Module JsMap.

Definition t (V : Type) : Type := list (string * V).

Definition empty {V} : t V := [].

(** [m.get(k)] *)
Fixpoint get {V} (k : string) (m : t V) : option V :=
  match m with
  | [] => None
  | (k', v) :: m' => if bool_decide (k' = k) then Some v else get k m'
  end.

(** [m.has(k)] *)
Definition has {V} (k : string) (m : t V) : bool :=
  match get k m with
  | Some _ => true
  | None => false
  end.

(** [m.set(k, v)]: a key already present keeps its place. *)
Fixpoint set {V} (k : string) (v : V) (m : t V) : t V :=
  match m with
  | [] => [(k, v)]
  | (k', v') :: m' =>
      if bool_decide (k' = k) then (k, v) :: m' else (k', v') :: set k v m'
  end.

(** [[...m.keys()]] *)
Definition keys {V} (m : t V) : list string := map fst m.

End JsMap.

(** ** [src/index.ts] *)

Definition REPORT_FILE : string := "report.md".

(** The three emoji literals of [getFailureStatus], kept symbolic. *)
Inductive Emoji := PersonShrugging | CrossMark | MagnifyingGlass.

Module FailureStatus.
Record t := mk { emoji : Emoji; message : string }.
End FailureStatus.

Module ProcessedFailure.
Record t := mk {
  failure : CheckResult.t;
  repo : string;
  status : FailureStatus.t;
  failedRequires : list RequiresEntry.t
}.
End ProcessedFailure.

Module GroupedResults.
Record t := mk {
  failedCount : nat;
  passedCount : nat;
  byCheck : JsMap.t (JsMap.t (list ProcessedFailure.t))
}.
End GroupedResults.

Definition getFailureStatus (failure : CheckResult.t) : FailureStatus.t :=
  match CheckResult.error failure with
  | Some error =>
      if Js.truthy error then
        if Js.includes error "File not found" then
          FailureStatus.mk PersonShrugging "File not found"
        else FailureStatus.mk CrossMark error
      else
        let patternThatDoesntMessUpMarkdownTables :=
          Js.replaceAll "|" "\|"
            (FileCheck.pattern (CheckResult.check failure)) in
        FailureStatus.mk MagnifyingGlass
          ("Pattern `" +:+ patternThatDoesntMessUpMarkdownTables
           +:+ "` not found")
  | None =>
      let patternThatDoesntMessUpMarkdownTables :=
        Js.replaceAll "|" "\|"
          (FileCheck.pattern (CheckResult.check failure)) in
      FailureStatus.mk MagnifyingGlass
        ("Pattern `" +:+ patternThatDoesntMessUpMarkdownTables
         +:+ "` not found")
  end.

(** The callback of [allResults.find] in [getFailedRequires]. *)
Definition answers (req : RequiresEntry.t) (failure r : CheckResult.t)
    : Prop :=
  FileCheck.name (CheckResult.check r) = RequiresEntry.check req
  /\ CheckResult.repository r = CheckResult.repository failure.

#[global] Instance answers_dec req failure r : Decision (answers req failure r).
Proof. unfold answers. apply _. Defined.

(** The callback of [failure.requires.filter]: the first Result that
    answers the entry exists and did not pass. *)
Definition unmet (failure : CheckResult.t) (allResults : list CheckResult.t)
    (req : RequiresEntry.t) : Prop :=
  match list_find (answers req failure) allResults with
  | Some (_, requiredCheckResult) =>
      CheckResult.passed requiredCheckResult = false
  | None => False
  end.

#[global] Instance unmet_dec failure allResults req :
  Decision (unmet failure allResults req).
Proof. unfold unmet. destruct (list_find _ _) as [[? ?]|]; apply _. Defined.

Definition getFailedRequires (failure : CheckResult.t)
    (allResults : list CheckResult.t) : list RequiresEntry.t :=
  match CheckResult.requires failure with
  | None => []
  | Some requires =>
      if bool_decide (length requires = 0) then []
      else filter (unmet failure allResults) requires
  end.

(** [byCheck.get(k)!] and [repoMap.get(k)!] *)
Definition get_or {V} (d : V) (k : string) (m : JsMap.t V) : V :=
  default d (JsMap.get k m).

(** One iteration of the loop of [processResults].  The inner map and the
    array are objects that [byCheck] refers to: updating them in place is
    setting them again under their keys. *)
Definition add_failure (results : list CheckResult.t)
    (byCheck : JsMap.t (JsMap.t (list ProcessedFailure.t)))
    (failure : CheckResult.t)
    : JsMap.t (JsMap.t (list ProcessedFailure.t)) :=
  let checkName := FileCheck.name (CheckResult.check failure) in
  let byCheck :=
    if negb (JsMap.has checkName byCheck)
    then JsMap.set checkName JsMap.empty byCheck else byCheck in
  let repoMap := get_or JsMap.empty checkName byCheck in
  let repoMap :=
    if negb (JsMap.has (CheckResult.repository failure) repoMap)
    then JsMap.set (CheckResult.repository failure) [] repoMap
    else repoMap in
  let failures := get_or [] (CheckResult.repository failure) repoMap in
  let failures :=
    failures ++ [ProcessedFailure.mk failure (CheckResult.repository failure)
                   (getFailureStatus failure)
                   (getFailedRequires failure results)] in
  JsMap.set checkName
    (JsMap.set (CheckResult.repository failure) failures repoMap) byCheck.

Definition processResults (results : list CheckResult.t) : GroupedResults.t :=
  let failedResults :=
    filter (fun r => CheckResult.passed r = false) results in
  let passedCount :=
    length (filter (fun r => CheckResult.passed r = true) results) in
  let byCheck := foldl (add_failure results) JsMap.empty failedResults in
  GroupedResults.mk (length failedResults) passedCount byCheck.

(** The place of a byte in the order of code units.  [Array.prototype.sort]
    without comparator orders strings by the code units of UTF-16.  On
    strings held as UTF-8 that is the order of the bytes but for one thing:
    a character from [U+E000] to [U+FFFF] is one code unit, above the
    surrogates ([U+D800] to [U+DFFF]) that make up a character beyond
    [U+FFFF], while its first byte ([0xEE] or [0xEF]) is below the first
    byte of such a character ([0xF0] to [0xF4]). *)
Definition unit_rank (c : ascii) : N :=
  let b := N_of_ascii c in
  if ((238 <=? b) && (b <=? 239))%N then (b + 256)%N else b.

Fixpoint compare_units (a b : string) : comparison :=
  match a, b with
  | EmptyString, EmptyString => Eq
  | EmptyString, String _ _ => Lt
  | String _ _, EmptyString => Gt
  | String x a', String y b' =>
      match N.compare (unit_rank x) (unit_rank y) with
      | Eq => compare_units a' b'
      | Lt => Lt
      | Gt => Gt
      end
  end.

(** The order of strings by code unit, which [Array.prototype.sort]
    uses when it is given no comparator. *)
Definition str_le (a b : string) : Prop := compare_units a b <> Gt.

#[global] Instance str_le_dec : RelDecision str_le.
Proof. intros a b. unfold str_le. apply _. Defined.

(** [[...keys].sort()] *)
Definition sort (keys : list string) : list string := merge_sort str_le keys.

(** The traversal that [generateMarkdownReport] and [reportResults] share:
    the check names in sorted order, under each the repositories in sorted
    order, under each the failures of the bucket. *)
Definition report_order (results : list CheckResult.t)
    : list (string * list (string * list ProcessedFailure.t)) :=
  let processed := processResults results in
  let sortedChecks := sort (JsMap.keys (GroupedResults.byCheck processed)) in
  map (fun checkName =>
         let repoMap :=
           get_or JsMap.empty checkName (GroupedResults.byCheck processed) in
         let sortedRepos := sort (JsMap.keys repoMap) in
         (checkName, map (fun repo => (repo, get_or [] repo repoMap))
                         sortedRepos))
      sortedChecks.

Section Main.
Context `{P : Platform}.

Definition loadConfig (configPath : string) : M Config.t :=
  try_catch
    (effect (ReadFile configPath) (readConfig configPath))
    (fun error =>
       throw (Js.error ("Failed to load config from " +:+ configPath
                        +:+ ": " +:+ Js.toString error))).

Definition getRepositories (config : Config.t) : M (list string) :=
  let repositories : list string := [] in
  let* repositories :=
    match Config.dynamicRepositories config with
    | Some dynamic =>
        if DynamicRepositories.enabled dynamic then
          let* dynamicRepos := fetchBazelContribRepositories in
          ret (repositories ++ dynamicRepos)
        else ret repositories
    | None => ret repositories
    end in
  let repositories :=
    match Config.repositories config with
    | Some static =>
        if StaticRepositories.enabled static
        then repositories ++ StaticRepositories.list static
        else repositories
    | None => repositories
    end in
  if bool_decide (length repositories = 0) then
    throw (Js.error ("No repositories configured. Either provide static "
                     +:+ "repositories or enable dynamic repository fetching."))
  else ret (Js.unique repositories).

(** The body of the [try] of [main]; its value is the status handed to
    [process.exit].  The progress lines of [console.log] and the text of
    the report are not part of the model. *)
Definition main_try (argv2 : option string) : M nat :=
  let checkName := argv2 in
  let configPath := "config.json" in
  let* config := loadConfig configPath in
  let* repositories := getRepositories config in
  let checks := Config.checks config in
  let run (checks : list FileCheck.t) : M nat :=
    let* results := checkAllRepositories repositories checks in
    effect (WriteFile REPORT_FILE) (writeFile REPORT_FILE) ;;
    let hasFailures :=
      existsb (fun result => negb (CheckResult.passed result)) results in
    ret (if hasFailures then 1 else 0) in
  match checkName with
  | Some checkName =>
      if Js.truthy checkName then
        let checks :=
          filter (fun check => FileCheck.name check = checkName) checks in
        if bool_decide (length checks = 0) then
          console_error ("Error: No check found with name '" +:+ checkName
                         +:+ "'") ;;
          ret 1
        else run checks
      else run checks
  | None => run checks
  end.

(** [main]: the exit status and the final state of a run started with
    [argv2] as [process.argv[2]]. *)
Definition main (argv2 : option string) (st : State) : nat * State :=
  match main_try argv2 st with
  | (inr code, st') => (code, st')
  | (inl error, st') =>
      (1, snd (console_error ("Error: " +:+ Js.message error) st'))
  end.

End Main.

(** ** A platform to run the program on

    The regular expressions of this platform are a fragment of the
    ECMAScript syntax: literal characters, [.], groups, [|], the postfix
    operators [*], [+] and [?], and [\] before a punctuation character.  The
    programs of the examples stay inside the fragment; a pattern outside it
    is reported as such.  The network is a table from URLs to responses. *)

Module Demo.

Inductive re :=
| Void
| Eps
| Chr (c : ascii)
| Dot
| Seq (r1 r2 : re)
| Alt (r1 r2 : re)
| Star (r : re).

Fixpoint nullable (r : re) : bool :=
  match r with
  | Void | Chr _ | Dot => false
  | Eps | Star _ => true
  | Seq r1 r2 => nullable r1 && nullable r2
  | Alt r1 r2 => nullable r1 || nullable r2
  end.

(** [.] matches every character but a line terminator. *)
Definition line_terminator (c : ascii) : bool :=
  Ascii.eqb c "010"%char || Ascii.eqb c "013"%char.

(** The residual of [r] after the character [c]. *)
Fixpoint deriv (c : ascii) (r : re) : re :=
  match r with
  | Void | Eps => Void
  | Chr d => if Ascii.eqb c d then Eps else Void
  | Dot => if line_terminator c then Void else Eps
  | Seq r1 r2 =>
      if nullable r1 then Alt (Seq (deriv c r1) r2) (deriv c r2)
      else Seq (deriv c r1) r2
  | Alt r1 r2 => Alt (deriv c r1) (deriv c r2)
  | Star r1 => Seq (deriv c r1) (Star r1)
  end.

(** Does [r] match a prefix of [s]? *)
Fixpoint matches_prefix (r : re) (s : string) : bool :=
  nullable r ||
  match s with
  | EmptyString => false
  | String c t => matches_prefix (deriv c r) t
  end.

(** [regex.test(s)]: does [r] match somewhere in [s]? *)
Fixpoint test (r : re) (s : string) : bool :=
  matches_prefix r s ||
  match s with
  | EmptyString => false
  | String _ t => test r t
  end.

Definition punctuation (c : ascii) : bool :=
  bool_decide (c ∈ ["."; "*"; "+"; "?"; "("; ")"; "|"; "\"; "/"; "["; "]";
                    "{"; "}"; "^"; "$"; "-"; "!"]%char).

Definition outside (c : ascii) : bool :=
  bool_decide (c ∈ ["["; "]"; "{"; "}"; "^"; "$"]%char).

(** The alternatives read so far, the sequence read so far in the current
    alternative, and its last atom, which a postfix operator applies to. *)
Definition close (seq : re) (last : option re) : re :=
  match last with
  | None => seq
  | Some a => Seq seq a
  end.

Definition finish (alts : option re) (seq : re) (last : option re) : re :=
  match alts with
  | None => close seq last
  | Some r => Alt r (close seq last)
  end.

(** Reads a disjunction up to the end of the pattern or to an unmatched
    [)], which is left in the rest. *)
Fixpoint parse (fuel : nat) (alts : option re) (seq : re) (last : option re)
    (s : string) : string + (re * string) :=
  match fuel with
  | 0 => inl "pattern too long"
  | S fuel =>
      match s with
      | EmptyString => inr (finish alts seq last, s)
      | String c t =>
          if Ascii.eqb c ")" then inr (finish alts seq last, s)
          else if Ascii.eqb c "|" then
            parse fuel (Some (finish alts seq last)) Eps None t
          else if Ascii.eqb c "*" then
            match last with
            | None => inl "Nothing to repeat"
            | Some a => parse fuel alts seq (Some (Star a)) t
            end
          else if Ascii.eqb c "+" then
            match last with
            | None => inl "Nothing to repeat"
            | Some a => parse fuel alts seq (Some (Seq a (Star a))) t
            end
          else if Ascii.eqb c "?" then
            match last with
            | None => inl "Nothing to repeat"
            | Some a => parse fuel alts seq (Some (Alt Eps a)) t
            end
          else if Ascii.eqb c "(" then
            match parse fuel None Eps None t with
            | inl reason => inl reason
            | inr (r, String _ t') =>
                parse fuel alts (close seq last) (Some r) t'
            | inr (_, EmptyString) => inl "Unterminated group"
            end
          else if Ascii.eqb c "\" then
            match t with
            | EmptyString => inl "\ at end of pattern"
            | String d t' =>
                if punctuation d
                then parse fuel alts (close seq last) (Some (Chr d)) t'
                else inl "outside the fragment"
            end
          else if outside c then inl "outside the fragment"
          else if Ascii.eqb c "." then
            parse fuel alts (close seq last) (Some Dot) t
          else parse fuel alts (close seq last) (Some (Chr c)) t
      end
  end.

Definition compile (pattern : string) : string + re :=
  match parse (S (String.length pattern)) None Eps None pattern with
  | inl reason => inl reason
  | inr (r, EmptyString) => inr r
  | inr (_, String _ _) => inl "Unmatched ')'"
  end.

Record table := mkWorld {
  web : list (string * Response.t);
  config_json : option Config.t
}.

Fixpoint lookup (url : string) (table : list (string * Response.t))
    : option Response.t :=
  match table with
  | [] => None
  | (u, r) :: rest => if bool_decide (u = url) then Some r else lookup url rest
  end.

Definition demo_fetch (url : string) (w : table)
    : (Js.Error + Response.t) * table :=
  match lookup url (web w) with
  | Some r => (inr r, w)
  | None => (inl (Js.mkError "TypeError" "fetch failed"), w)
  end.

Definition demo_readConfig (path : string) (w : table)
    : (Js.Error + Config.t) * table :=
  match config_json w with
  | Some c => (inr c, w)
  | None =>
      (inl (Js.error ("ENOENT: no such file or directory, open '" +:+ path
                      +:+ "'")), w)
  end.

Definition demo_writeFile (path : string) (w : table)
    : (Js.Error + unit) * table := (inr tt, w).

Definition platform : Platform := {|
  World := table;
  fetch := demo_fetch;
  readConfig := demo_readConfig;
  writeFile := demo_writeFile;
  RegExp := re;
  RegExp_new := compile;
  RegExp_test := test
|}.

#[local] Existing Instance platform.

(** A response with status 200 and the given body. *)
Definition found (body : string) : Response.t :=
  Response.mk true 200 "OK" (inr body)
    (inl (Js.mkError "SyntaxError" "Unexpected token in JSON"))%string.

(** A response with status 404. *)
Definition missing : Response.t :=
  Response.mk false 404 "Not Found" (inr "404: Not Found")
    (inl (Js.mkError "SyntaxError" "Unexpected token in JSON")).

(** The answer of the search API listing [names]. *)
Definition listing (names : list string) : Response.t :=
  Response.mk true 200 "OK" (inr "{}")
    (inr (GitHubSearchResponse.mk
            (map (fun n => GitHubRepository.mk n ["aspect-build"]) names)
            (N.of_nat (length names)))).

Definition start (w : table) : State := mkState w [].

Definition simple_check (name file pattern : string) : FileCheck.t :=
  FileCheck.mk name file pattern None None None None.

End Demo.

(** ** Inputs of the examples *)

Module Scenario.
Import Demo.

#[local] Existing Instance platform.

Definition license_url (repo branch : string) : string :=
  "https://raw.githubusercontent.com/" +:+ repo +:+ "/" +:+ branch
    +:+ "/LICENSE".

(** [acme/widgets] has a [LICENSE] on [main]; [acme/empty] answers 404. *)
Definition acme : table :=
  mkWorld
    [(license_url "acme/widgets" "main", found "MIT License");
     (license_url "acme/empty" "main", missing);
     (license_url "acme/empty" "master", missing);
     ("https://raw.githubusercontent.com/acme/widgets/main/README.md",
      found "TODO: write me");
     (search_url, listing ["acme/widgets"])]
    None.

Definition has_license : FileCheck.t :=
  simple_check "has-license" "LICENSE" ".*".

Definition no_todo : FileCheck.t :=
  simple_check "no-todo" "README.md" "!TODO".

(** A check switched off in the configuration. *)
Definition disabled_license : FileCheck.t :=
  FileCheck.mk "has-license" "LICENSE" ".*" None (Some false) None None.

(** A check that leaves [acme/widgets] out. *)
Definition license_but_widgets : FileCheck.t :=
  FileCheck.mk "has-license" "LICENSE" ".*" None None
    (Some [ExcludeEntry.mk "acme/widgets" (Some "vendored")]) None.

(** A check whose pattern is not a regular expression. *)
Definition broken : FileCheck.t :=
  simple_check "broken" "LICENSE" "(".

(** Two checks under one name, the first satisfied and the second not, and
    a third check that asks for that name to be fixed first. *)
Definition license_any : FileCheck.t :=
  simple_check "has-license" "LICENSE" ".*".

Definition license_apache : FileCheck.t :=
  simple_check "has-license" "LICENSE" "Apache".

Definition spdx : FileCheck.t :=
  FileCheck.mk "spdx" "LICENSE" "SPDX" None None None
    (Some [RequiresEntry.mk "has-license" None]).

Definition result_of (repo : string) (check : FileCheck.t) (passed : bool)
    (error : option string) : CheckResult.t :=
  CheckResult.mk repo check (FileCheck.file check) passed error
    (if passed then None else FileCheck.requires check).

(** What [checkAllRepositories] returns for these three checks on
    [acme/widgets]. *)
Definition same_name_results : list CheckResult.t :=
  [result_of "acme/widgets" license_any true None;
   result_of "acme/widgets" license_apache false None;
   result_of "acme/widgets" spdx false None].

(** A configuration that discovers its repositories, and one that lists
    them. *)
Definition discovering : Config.t :=
  Config.mk None
    (Some (DynamicRepositories.mk true "github" "bazel-contrib"
             "aspect-build"))
    [has_license; no_todo].

Definition listing_widgets : Config.t :=
  Config.mk (Some (StaticRepositories.mk true ["acme/widgets"])) None
    [has_license; no_todo].

Definition acme_with (config : Config.t) : table :=
  mkWorld (web acme) (Some config).

End Scenario.

(** * Specification vocabulary *)

Section Vocabulary.
Context `{P : Platform}.

(** The search for [pattern] in [content] is carried out and answers
    [outcome]: the pattern is a regular expression of the engine, and
    testing it against the content gives [outcome]. *)
Definition search (pattern content : string) (outcome : bool) : Prop :=
  exists regex,
    RegExp_new pattern = inr regex /\ RegExp_test regex content = outcome.

(** What the [try] block of the loop body computes before it builds its
    Result: the content is fetched and the pattern evaluated on it. *)
Definition fetch_and_run (repoPath : string) (check : FileCheck.t) : M bool :=
  let* content := fetchFileContent repoPath (FileCheck.file check) in
  lift (runCheck content check).

(** [r] is a Result of [check] on [repoPath] as the loop body builds them. *)
Definition Emitted (repoPath : string) (check : FileCheck.t)
    (r : CheckResult.t) : Prop :=
  CheckResult.repository r = repoPath
  /\ CheckResult.check r = check
  /\ CheckResult.filePath r = FileCheck.file check
  /\ excluded check repoPath = false
  /\ CheckResult.requires r
     = (if CheckResult.passed r then None else FileCheck.requires check)
  /\ (CheckResult.passed r = true -> CheckResult.error r = None)
  /\ (forall e, CheckResult.error r = Some e -> Js.truthy e = true).

(** The checks that the loop of [checkRepository] does not skip. *)
Definition not_excluded (repoPath : string) (checks : list FileCheck.t)
    : list FileCheck.t :=
  filter (fun check => excluded check repoPath = false) checks.

(** The Results of a run over [repositories]: one group per repository, in
    order, each with one Result per check that is not skipped, in order. *)
Definition Run (repositories : list string) (checks : list FileCheck.t)
    (results : list CheckResult.t) : Prop :=
  exists groups,
    results = concat groups
    /\ Forall2 (fun repo group =>
                  Forall2 (Emitted repo) (not_excluded repo checks) group)
               repositories groups.

(** The pattern [runCheck] hands to the engine. *)
Definition searched (check : FileCheck.t) : string :=
  if Js.startsWith (FileCheck.pattern check) "!"
  then Js.slice1 (FileCheck.pattern check)
  else FileCheck.pattern check.

(** [repoPath] appears in the exclusion set of [check]. *)
Definition in_exclusion_set (check : FileCheck.t) (repoPath : string)
    : Prop :=
  exists entries entry,
    FileCheck.exclude check = Some entries
    /\ entry ∈ entries
    /\ ExcludeEntry.repository entry = repoPath.

(** The prerequisite entries a Result carries. *)
Definition declared (failure : CheckResult.t) : list RequiresEntry.t :=
  default [] (CheckResult.requires failure).

(** What identifies a Result among those of a run. *)
Definition key (r : CheckResult.t) : string * string :=
  (CheckResult.repository r, FileCheck.name (CheckResult.check r)).

(** The resolution of [req] as the specification words it: the entry is
    kept exactly when it is declared and some Result of the set, for the
    same repository and for the check the entry names, did not pass. *)
Definition kept_when_some_failed (failure : CheckResult.t)
    (allResults : list CheckResult.t) (req : RequiresEntry.t) : Prop :=
  req ∈ getFailedRequires failure allResults
  <-> req ∈ declared failure
      /\ exists r, r ∈ allResults /\ answers req failure r
                   /\ CheckResult.passed r = false.

(** The resolution of [req] as [find] makes it: the entry is kept exactly
    when it is declared and the first Result of the set, for the same
    repository and for the check the entry names, did not pass. *)
Definition kept_when_first_failed (failure : CheckResult.t)
    (allResults : list CheckResult.t) (req : RequiresEntry.t) : Prop :=
  req ∈ getFailedRequires failure allResults
  <-> req ∈ declared failure
      /\ exists i r,
           allResults !! i = Some r /\ answers req failure r
           /\ CheckResult.passed r = false
           /\ forall j r', allResults !! j = Some r' -> j < i ->
                           ~ answers req failure r'.

(** The failures recorded under a check name and a repository. *)
Definition bucket (byCheck : JsMap.t (JsMap.t (list ProcessedFailure.t)))
    (checkName repo : string) : list ProcessedFailure.t :=
  get_or [] repo (get_or JsMap.empty checkName byCheck).

(** The record [processResults] pushes for [failure]. *)
Definition processed (results : list CheckResult.t) (failure : CheckResult.t)
    : ProcessedFailure.t :=
  ProcessedFailure.mk failure (CheckResult.repository failure)
    (getFailureStatus failure) (getFailedRequires failure results).

(** [r] is of the check named [checkName]. *)
Definition named (checkName : string) (r : CheckResult.t) : Prop :=
  FileCheck.name (CheckResult.check r) = checkName.

(** [r] is of the check named [checkName] and for [repo]. *)
Definition filed (checkName repo : string) (r : CheckResult.t) : Prop :=
  named checkName r /\ CheckResult.repository r = repo.

(** [r] did not pass. *)
Definition failed (r : CheckResult.t) : Prop := CheckResult.passed r = false.

#[global] Instance named_dec n r : Decision (named n r).
Proof. unfold named. apply _. Defined.

#[global] Instance filed_dec n repo r : Decision (filed n repo r).
Proof. unfold filed. apply _. Defined.

#[global] Instance failed_dec r : Decision (failed r).
Proof. unfold failed. apply _. Defined.

(** The events that are requests to the network. *)
Definition is_fetch (ev : Event) : Prop := exists url, ev = Fetch url.

(** The requests [fetchFileContent] issues. *)
Definition is_content_fetch (ev : Event) : Prop :=
  exists owner repoName branch filePath,
    ev = Fetch (raw_url owner repoName branch filePath).

(** The request [fetchBazelContribRepositories] issues. *)
Definition is_discovery_fetch (ev : Event) : Prop := ev = Fetch search_url.

(** What [fetchBazelContribRepositories] may add to the trace. *)
Definition discovery_event (ev : Event) : Prop :=
  is_discovery_fetch ev
  \/ exists label error, ev = ConsoleErrorWith label error.

(** [config.dynamicRepositories?.enabled] *)
Definition discovers (config : Config.t) : bool :=
  match Config.dynamicRepositories config with
  | Some dynamic => DynamicRepositories.enabled dynamic
  | None => false
  end.

(** No check of the configuration is named [checkName]. *)
Definition unknown_check (checkName : string) (config : Config.t) : Prop :=
  Forall (fun check => FileCheck.name check <> checkName)
         (Config.checks config).

(** How the checks of a repository degrade to Results, one after the
    other: [Degrades repoPath st checks results st'] when, from the state
    [st], each of [checks] in turn has its file fetched and its pattern
    evaluated, each in the state the one before it left, [results] are what
    that gives and [st'] is the state after the last.  A fetch that throws
    and an evaluation that throws give a Result that did not pass and that
    carries the message of what was thrown; otherwise the Result is as the
    evaluation says and carries no error. *)
Inductive Degrades (repoPath : string)
  : State -> list FileCheck.t -> list CheckResult.t -> State -> Prop :=
| Degrades_done (st : State) : Degrades repoPath st [] [] st
| Degrades_fetch_raised st check e st1 checks results st2 :
    fetchFileContent repoPath (FileCheck.file check) st = (inl e, st1) ->
    Degrades repoPath st1 checks results st2 ->
    Degrades repoPath st (check :: checks)
      (CheckResult.mk repoPath check (FileCheck.file check) false
         (Some (Js.message e)) (FileCheck.requires check) :: results) st2
| Degrades_check_raised st check content e st1 checks results st2 :
    fetchFileContent repoPath (FileCheck.file check) st = (inr content, st1) ->
    runCheck content check = inl e ->
    Degrades repoPath st1 checks results st2 ->
    Degrades repoPath st (check :: checks)
      (CheckResult.mk repoPath check (FileCheck.file check) false
         (Some (Js.message e)) (FileCheck.requires check) :: results) st2
| Degrades_evaluated st check content passed st1 checks results st2 :
    fetchFileContent repoPath (FileCheck.file check) st = (inr content, st1) ->
    runCheck content check = inr passed ->
    Degrades repoPath st1 checks results st2 ->
    Degrades repoPath st (check :: checks)
      (CheckResult.mk repoPath check (FileCheck.file check) passed None
         (if passed then None else FileCheck.requires check) :: results) st2.

End Vocabulary.

(** * Further vocabulary and the report *)

(** ** Repository paths *)

(** [s] holds no [/]. *)
Definition slash_free (s : string) : Prop := Js.includes s "/" = false.

(** Repository paths of the form [owner/repoName], possibly followed by
    further segments. *)
Definition owner_repo_form (repoPath owner repoName : string) : Prop :=
  Js.truthy owner = true /\ Js.truthy repoName = true
  /\ slash_free owner /\ slash_free repoName
  /\ (repoPath = owner +:+ "/" +:+ repoName
      \/ exists rest, repoPath = owner +:+ "/" +:+ repoName +:+ "/" +:+ rest).

(** ** Errors and requests of [fetchFileContent] *)

(** The error [fetchFileContent] throws before any request. *)
Definition invalid_repository_format (repoPath : string) : Js.Error :=
  Js.error ("Invalid repository format: " +:+ repoPath +:+ ". Expected "
            +:+ Js.dquote +:+ "owner/repo" +:+ Js.dquote).

(** The error [fetchFileContent] throws from its [catch]. *)
Definition failed_to_fetch (filePath : string) (error : Js.Error) : Js.Error :=
  Js.error ("Failed to fetch " +:+ filePath +:+ ": " +:+ Js.toString error).

(** [ev] requests [filePath] from [main] or [master] of the repository
    [repoPath] names. *)
Definition requests_file (repoPath filePath : string) (ev : Event) : Prop :=
  exists owner repoName branch,
    owner_and_repo repoPath = Some (owner, repoName)
    /\ (branch = "main" \/ branch = "master")
    /\ ev = Fetch (raw_url owner repoName branch filePath).

(** [ev] requests the file of one of the [checks] that are not excluded for
    [repoPath]. *)
Definition requests_checked_file (repoPath : string)
    (checks : list FileCheck.t) (ev : Event) : Prop :=
  exists check,
    check ∈ not_excluded repoPath checks
    /\ requests_file repoPath (FileCheck.file check) ev.

(** ** Results of a failed fetch, patterns and outcomes *)

(** The Result of a check whose content could not be had because of
    [error]. *)
Definition failing_result (repoPath : string) (error : Js.Error)
    (check : FileCheck.t) : CheckResult.t :=
  CheckResult.mk repoPath check (FileCheck.file check) false
    (Some (Js.message error)) (FileCheck.requires check).

(** [check] with another pattern. *)
Definition with_pattern (check : FileCheck.t) (pattern : string)
    : FileCheck.t :=
  FileCheck.mk (FileCheck.name check) (FileCheck.file check) pattern
    (FileCheck.description check) (FileCheck.enabled check)
    (FileCheck.exclude check) (FileCheck.requires check).

(** The outcome of [runCheck] turned around. *)
Definition inverted (outcome : Js.Error + bool) : Js.Error + bool :=
  match outcome with
  | inl e => inl e
  | inr b => inr (negb b)
  end.

(** ** The pairs a run evaluates *)

(** The pairs a run evaluates, in the order it evaluates them: for each
    repository in turn, each check that is not excluded for it. *)
Definition planned (repositories : list string) (checks : list FileCheck.t)
    : list (string * FileCheck.t) :=
  concat (map (fun repo => map (pair repo) (not_excluded repo checks))
              repositories).

(** The pair a Result is for. *)
Definition pair_of (r : CheckResult.t) : string * FileCheck.t :=
  (CheckResult.repository r, CheckResult.check r).

(** ** The repositories of a configuration *)

(** The repositories the configuration lists, when its list is enabled. *)
Definition listed (config : Config.t) : list string :=
  match Config.repositories config with
  | Some static =>
      if StaticRepositories.enabled static
      then StaticRepositories.list static else []
  | None => []
  end.

(** The error of [getRepositories] when it has nothing to return. *)
Definition no_repositories : Js.Error :=
  Js.error ("No repositories configured. Either provide static "
            +:+ "repositories or enable dynamic repository fetching.").

(** ** The rows of the report *)

(** The failures in the order the report lists them: check name by check
    name, repository by repository, each bucket from its first failure to
    its last. *)
Definition report_rows (results : list CheckResult.t)
    : list ProcessedFailure.t :=
  concat (map (fun group => concat (map snd (snd group)))
              (report_order results)).

(** Every [|] of [s] stands right after a [\], [escaped] telling whether
    the character before [s] is one. *)
Fixpoint pipes_escaped_after (escaped : bool) (s : string) : bool :=
  match s with
  | EmptyString => true
  | String c t =>
      (if Ascii.eqb c "|" then escaped else true)
      && pipes_escaped_after (Ascii.eqb c "\") t
  end.

Definition pipes_escaped (s : string) : Prop :=
  pipes_escaped_after false s = true.

(** Reading [s] from the left, each [\] that stands right before a [|] is
    taken out. *)
Fixpoint unescape_pipes (s : string) : string :=
  match s with
  | EmptyString => EmptyString
  | String c t =>
      match t with
      | String d t' =>
          if Ascii.eqb c "\" && Ascii.eqb d "|"
          then String d (unescape_pipes t')
          else String c (unescape_pipes t)
      | EmptyString => String c EmptyString
      end
  end.

(** [s] does not begin with [|]. *)
Definition no_pipe_ahead (s : string) : Prop :=
  match s with
  | String c _ => c <> "|"%char
  | EmptyString => True
  end.

(** ** The checks a run selects *)

(** [results.some(result => !result.passed)] *)
Definition hasFailures (results : list CheckResult.t) : bool :=
  existsb (fun result => negb (CheckResult.passed result)) results.

(** The checks [main] runs: all of them, or those of the name given. *)
Definition selected (argv2 : option string) (config : Config.t)
    : list FileCheck.t :=
  match argv2 with
  | Some checkName =>
      if Js.truthy checkName
      then filter (fun check => FileCheck.name check = checkName)
                  (Config.checks config)
      else Config.checks config
  | None => Config.checks config
  end.

(** ** The report as text *)

(** [parts.join(sep)] *)
Definition join_with (sep : string) (parts : list string) : string :=
  match parts with
  | [] => EmptyString
  | first :: rest => fold_left (fun acc part => acc +:+ sep +:+ part) rest first
  end.

(** The line feed. *)
Definition LF : string := String "010"%char EmptyString.

(** The text of the three emoji of [getFailureStatus], as the source file
    holds them. *)
Definition emoji_text (emoji : Emoji) : string :=
  match emoji with
  | PersonShrugging => "ü§∑‚Äç‚ôÇÔ∏è"
  | CrossMark => "‚ùå"
  | MagnifyingGlass => "üîç"
  end.

(** The [TypeError] of reading a property of [undefined]. *)
Definition undefined_has_no (property : string) : Js.Error :=
  Js.mkError "TypeError"
    ("Cannot read properties of undefined (reading '" +:+ property +:+ "')").

Section Rendering.

(** [check.reference_example]: [generateMarkdownReport] reads this property
    of a check although [FileCheck] does not declare it. *)
Variable reference_example : FileCheck.t -> option string.

(** [[...repoMap.keys()][0]], [repoMap.get(firstRepo)![0]] and
    [firstFailure.failure.check.reference_example]. *)
Definition referenceExample_of (repoMap : JsMap.t (list ProcessedFailure.t))
    : Js.Error + option string :=
  match JsMap.keys repoMap with
  | [] => inl (undefined_has_no "0")
  | firstRepo :: _ =>
      match JsMap.get firstRepo repoMap with
      | None => inl (undefined_has_no "0")
      | Some [] => inl (undefined_has_no "failure")
      | Some (firstFailure :: _) =>
          inr (reference_example
                 (CheckResult.check (ProcessedFailure.failure firstFailure)))
      end
  end.

(** The row of the table for one failure. *)
Definition table_row (repo : string) (referenceExample : option string)
    (row : ProcessedFailure.t) : string :=
  let failure := ProcessedFailure.failure row in
  let status := ProcessedFailure.status row in
  let failedRequires := ProcessedFailure.failedRequires row in
  let repoLink := "[" +:+ repo +:+ "](https://github.com/" +:+ repo +:+ ")" in
  let fileLink :=
    "[" +:+ CheckResult.filePath failure +:+ "](https://github.com/" +:+ repo
    +:+ "/blob/main/" +:+ CheckResult.filePath failure +:+ ")" in
  let statusText :=
    emoji_text (FailureStatus.emoji status) +:+ " "
    +:+ FailureStatus.message status in
  let statusText :=
    if bool_decide (0 < length failedRequires) then
      let reqLinks :=
        join_with ", "
          (map (fun req => "[`" +:+ RequiresEntry.check req +:+ "`](#-"
                           +:+ RequiresEntry.check req +:+ ")")
               failedRequires) in
      statusText +:+ " ‚ö†Ô∏è Fix first: " +:+ reqLinks
    else statusText in
  let referenceLink :=
    if Js.truthy_opt referenceExample
    then "[Example](" +:+ default EmptyString referenceExample +:+ ")"
    else EmptyString in
  "| " +:+ repoLink +:+ " | " +:+ fileLink +:+ " | " +:+ statusText +:+ " | "
  +:+ referenceLink +:+ " |".

(** The lines one iteration of the loop over [sortedChecks] pushes. *)
Definition section_lines
    (byCheck : JsMap.t (JsMap.t (list ProcessedFailure.t)))
    (checkName : string) : Js.Error + list string :=
  let repoMap := get_or JsMap.empty checkName byCheck in
  match referenceExample_of repoMap with
  | inl e => inl e
  | inr referenceExample =>
      let sortedRepos := sort (JsMap.keys repoMap) in
      inr (["### üîç " +:+ checkName;
            EmptyString;
            "| Repository | File | Status | Reference |";
            "|------------|------|--------|-----------|"]
           ++ concat (map (fun repo =>
                             map (table_row repo referenceExample)
                                 (get_or [] repo repoMap))
                          sortedRepos)
           ++ [EmptyString])
  end.

(** The loop over [sortedChecks]: it stops at the first iteration that
    throws. *)
Fixpoint sections_lines
    (byCheck : JsMap.t (JsMap.t (list ProcessedFailure.t)))
    (sortedChecks : list string) : Js.Error + list string :=
  match sortedChecks with
  | [] => inr []
  | checkName :: rest =>
      match section_lines byCheck checkName with
      | inl e => inl e
      | inr lines =>
          match sections_lines byCheck rest with
          | inl e => inl e
          | inr more => inr (lines ++ more)
          end
      end
  end.

(** [generateMarkdownReport], [now] being [new Date().toISOString()]. *)
Definition generateMarkdownReport (now : string)
    (results : list CheckResult.t) : Js.Error + string :=
  let processed := processResults results in
  let lines :=
    ["# Rules Doctor Report"; EmptyString; "Generated: " +:+ now;
     EmptyString] in
  if bool_decide (GroupedResults.failedCount processed = 0) then
    inr (join_with LF (lines ++ ["## ‚úÖ All checks passed!"]))
  else
    let lines :=
      lines
      ++ ["## Summary"; EmptyString;
          "- ‚ùå **Failed checks:** "
          +:+ pretty (GroupedResults.failedCount processed);
          "- ‚úÖ **Passed checks:** "
          +:+ pretty (GroupedResults.passedCount processed);
          EmptyString; "## Failed Checks"; EmptyString] in
    let sortedChecks :=
      sort (JsMap.keys (GroupedResults.byCheck processed)) in
    match sections_lines (GroupedResults.byCheck processed) sortedChecks with
    | inl e => inl e
    | inr sections => inr (join_with LF (lines ++ sections))
    end.

End Rendering.

(** The lines [reportResults] prints for one failure. *)
Definition console_failure (repo : string) (row : ProcessedFailure.t)
    : list string :=
  let failure := ProcessedFailure.failure row in
  let status := ProcessedFailure.status row in
  ["     " +:+ emoji_text (FailureStatus.emoji status) +:+ " "
   +:+ CheckResult.filePath failure +:+ " - " +:+ FailureStatus.message status;
   "        View: https://github.com/" +:+ repo +:+ "/blob/main/"
   +:+ CheckResult.filePath failure]
  ++ map (fun req =>
            let reason :=
              if Js.truthy_opt (RequiresEntry.reason req)
              then " (" +:+ default EmptyString (RequiresEntry.reason req)
                   +:+ ")"
              else EmptyString in
            "        ‚ö†Ô∏è  Fix first: " +:+ RequiresEntry.check req
            +:+ reason)
         (ProcessedFailure.failedRequires row).

(** [reportResults]: the lines it hands to [console.log], in order. *)
Definition reportResults (results : list CheckResult.t) : list string :=
  let processed := processResults results in
  if bool_decide (GroupedResults.failedCount processed = 0) then
    ["‚úÖ All checks passed!"]
  else
    let sortedChecks :=
      sort (JsMap.keys (GroupedResults.byCheck processed)) in
    [LF +:+ "‚ùå Found "
     +:+ pretty (GroupedResults.failedCount processed)
     +:+ " failed check(s):" +:+ LF]
    ++ concat (map (fun checkName =>
         let repoMap :=
           get_or JsMap.empty checkName (GroupedResults.byCheck processed) in
         let sortedRepos := sort (JsMap.keys repoMap) in
         ["üîç Check: " +:+ checkName]
         ++ concat (map (fun repo =>
              ["  üì¶ Repository: https://github.com/" +:+ repo]
              ++ concat (map (console_failure repo) (get_or [] repo repoMap)))
              sortedRepos)
         ++ [EmptyString])
         sortedChecks).

(** ** The report as a rendering of the traversal *)

(** What the specification asks of the grouped output [groups] of the
    Results: the check names come in the order of [sort], each once, and
    they are the names of the checks of the failed Results; under a check
    name the repositories come in the order of [sort], each once, and they
    are those of the failed Results of that name; under a repository the
    failures are those of the failed Results of that name and repository,
    in the order of the Results. *)
Definition report_ordered (results : list CheckResult.t)
    (groups : list (string * list (string * list ProcessedFailure.t)))
    : Prop :=
  StronglySorted str_le (map fst groups)
  /\ NoDup (map fst groups)
  /\ (forall n, n ∈ map fst groups
                <-> exists r, r ∈ results /\ named n r /\ failed r)
  /\ Forall (fun group =>
       StronglySorted str_le (map fst (snd group))
       /\ NoDup (map fst (snd group))
       /\ (forall repo,
             repo ∈ map fst (snd group)
             <-> exists r, r ∈ results /\ filed (fst group) repo r /\ failed r)
       /\ Forall (fun entry =>
            snd entry
            = (processed results
                 <$> filter (fun r => filed (fst group) (fst entry) r
                                      /\ failed r) results))
          (snd group))
     groups.

(** The lines of the Markdown report before its sections, when some Result
    failed. *)
Definition markdown_preamble (now : string) (results : list CheckResult.t)
    : list string :=
  ["# Rules Doctor Report"; EmptyString; "Generated: " +:+ now; EmptyString;
   "## Summary"; EmptyString;
   "- ‚ùå **Failed checks:** "
   +:+ pretty (GroupedResults.failedCount (processResults results));
   "- ‚úÖ **Passed checks:** "
   +:+ pretty (GroupedResults.passedCount (processResults results));
   EmptyString; "## Failed Checks"; EmptyString].

(** The reference the section of a check name shows: that of the check of
    the first failed Result of the name. *)
Definition section_reference (reference_example : FileCheck.t -> option string)
    (results : list CheckResult.t) (checkName : string) : option string :=
  match head (filter (named checkName) (filter failed results)) with
  | Some first => reference_example (CheckResult.check first)
  | None => None
  end.

(** The lines of the Markdown report for one group of the traversal: the
    heading, the head of the table, a row for each failure and an empty
    line. *)
Definition markdown_group (reference : option string)
    (group : string * list (string * list ProcessedFailure.t))
    : list string :=
  ["### üîç " +:+ fst group; EmptyString;
   "| Repository | File | Status | Reference |";
   "|------------|------|--------|-----------|"]
  ++ concat (map (fun entry =>
                    map (table_row (fst entry) reference) (snd entry))
                 (snd group))
  ++ [EmptyString].

(** The line [reportResults] prints before its groups, when some Result
    failed. *)
Definition console_preamble (results : list CheckResult.t) : string :=
  LF +:+ "‚ùå Found "
  +:+ pretty (GroupedResults.failedCount (processResults results))
  +:+ " failed check(s):" +:+ LF.

(** The lines [reportResults] prints for one group of the traversal. *)
Definition console_group
    (group : string * list (string * list ProcessedFailure.t))
    : list string :=
  ["üîç Check: " +:+ fst group]
  ++ concat (map (fun entry =>
                    ["  üì¶ Repository: https://github.com/" +:+ fst entry]
                    ++ concat (map (console_failure (fst entry)) (snd entry)))
                 (snd group))
  ++ [EmptyString].

(** ** More inputs of the examples *)

Module Fallback.
Import Demo Scenario.

#[local] Existing Instance platform.

(** [acme/legacy] keeps its [LICENSE] on [master] only. *)
Definition legacy : table :=
  mkWorld
    [(license_url "acme/legacy" "main", missing);
     (license_url "acme/legacy" "master", found "Apache License")]
    None.

(** A configuration whose one check passes on its one repository. *)
Definition passing : Config.t :=
  Config.mk (Some (StaticRepositories.mk true ["acme/widgets"; "acme/widgets"]))
    None [has_license].

(** A search answered with status 403. *)
Definition rate_limited : table :=
  mkWorld
    [(search_url,
      Response.mk false 403 "Forbidden" (inr "{}")
        (inl (Js.mkError "SyntaxError" "Unexpected token in JSON")))]
    (Some discovering).

(** The Results of a repository whose licence is not the one asked for. *)
Definition unlicensed : list CheckResult.t :=
  [result_of "acme/widgets" license_apache false None;
   result_of "acme/widgets" spdx false None].

(** A [reference_example] that is the same for every check. *)
Definition example_of (check : FileCheck.t) : option string :=
  Some "https://github.com/acme/widgets/blob/main/LICENSE".

End Fallback.

(** * Properties of [src/checker.ts] *)

Section CheckerFacts.
Context `{P : Platform}.

Lemma fetchFileContent_message repoPath filePath st e st' :
  fetchFileContent repoPath filePath st = (inl e, st') ->
  Js.truthy (Js.message e) = true.
Proof.
  unfold fetchFileContent.
  destruct (owner_and_repo repoPath) as [[owner repoName]|].
  - unfold try_catch.
    match goal with |- context [match ?m st with _ => _ end] =>
      destruct (m st) as [[e0|content] st0] end.
    + unfold throw. intros H. inversion H. reflexivity.
    + discriminate.
  - unfold throw. intros H. inversion H. reflexivity.
Qed.

Lemma runCheck_message content check e :
  runCheck content check = inl e -> Js.truthy (Js.message e) = true.
Proof.
  unfold runCheck, new_RegExp.
  destruct (RegExp_new _) as [reason|regex]; intros H; inversion H.
  reflexivity.
Qed.

Lemma fetch_and_run_message repoPath check st e st' :
  fetch_and_run repoPath check st = (inl e, st') ->
  Js.truthy (Js.message e) = true.
Proof.
  unfold fetch_and_run, bind.
  destruct (fetchFileContent repoPath (FileCheck.file check) st)
    as [[e0|content] st0] eqn:Hfetch.
  - intros H. inversion H. subst. eauto using fetchFileContent_message.
  - unfold lift. destruct (runCheck content check) as [e0|b] eqn:Hrun.
    + unfold throw. intros H. inversion H. subst.
      eauto using runCheck_message.
    + discriminate.
Qed.

(** The loop body in terms of [fetch_and_run]: a value becomes a Result
    without error, an exception a failing Result that carries its message. *)
Lemma evaluate_cases repoPath check st :
  match fetch_and_run repoPath check st with
  | (inr passed, st') =>
      evaluate repoPath check st
      = (inr (CheckResult.mk repoPath check (FileCheck.file check) passed None
                (if passed then None else FileCheck.requires check)), st')
  | (inl error, st') =>
      evaluate repoPath check st
      = (inr (CheckResult.mk repoPath check (FileCheck.file check) false
                (Some (Js.message error)) (FileCheck.requires check)), st')
  end.
Proof.
  unfold evaluate, fetch_and_run, try_catch, bind.
  destruct (fetchFileContent repoPath (FileCheck.file check) st)
    as [[e0|content] st0]; [reflexivity|].
  unfold lift. destruct (runCheck content check) as [e0|b]; reflexivity.
Qed.

Lemma evaluate_returns repoPath check st :
  excluded check repoPath = false ->
  exists r st',
    evaluate repoPath check st = (inr r, st') /\ Emitted repoPath check r.
Proof.
  intros Hex. pose proof (evaluate_cases repoPath check st) as H.
  destruct (fetch_and_run repoPath check st) as [[e|passed] st'] eqn:Hrun.
  - eexists _, _. split; [exact H|].
    repeat split; simpl; try done.
    intros e' He'. inversion He'. subst.
    eauto using fetch_and_run_message.
  - eexists _, _. split; [exact H|].
    repeat split; simpl; try done.
Qed.

Lemma checkRepository_loop_returns repoPath checks :
  forall results st,
  exists rs st',
    checkRepository_loop repoPath checks results st = (inr (results ++ rs), st')
    /\ Forall2 (Emitted repoPath) (not_excluded repoPath checks) rs.
Proof.
  unfold not_excluded.
  induction checks as [|check rest IH]; intros results st; simpl.
  - exists [], st. rewrite app_nil_r. split; [reflexivity|constructor].
  - destruct (excluded check repoPath) eqn:Hex.
    + rewrite filter_cons_False by congruence. apply IH.
    + rewrite filter_cons_True by assumption.
      destruct (evaluate_returns repoPath check st Hex) as (r & st1 & Hr & Hem).
      destruct (IH (results ++ [r]) st1) as (rs & st2 & Hloop & Hall).
      exists (r :: rs), st2. split.
      * unfold bind. rewrite Hr, Hloop. by rewrite <- app_assoc.
      * by constructor.
Qed.

Lemma checkRepository_returns repoPath checks st :
  exists results st',
    checkRepository repoPath checks st = (inr results, st')
    /\ Forall2 (Emitted repoPath) (not_excluded repoPath checks) results.
Proof.
  destruct (checkRepository_loop_returns repoPath checks [] st)
    as (rs & st' & H & Hall).
  by exists rs, st'.
Qed.

Lemma checkAllRepositories_loop_returns repositories checks :
  forall allResults st,
  exists rs st',
    checkAllRepositories_loop repositories checks allResults st
    = (inr (allResults ++ rs), st')
    /\ Run repositories checks rs.
Proof.
  induction repositories as [|repo rest IH]; intros allResults st; simpl.
  - exists [], st. rewrite app_nil_r. split; [reflexivity|].
    exists []. split; [reflexivity|constructor].
  - destruct (checkRepository_returns repo checks st) as (g & st1 & Hg & Hem).
    destruct (IH (allResults ++ g) st1) as (rs & st2 & Hloop & groups & -> & Hall).
    exists (g ++ concat groups), st2. split.
    + unfold bind. rewrite Hg, Hloop. by rewrite <- app_assoc.
    + exists (g :: groups). split; [reflexivity|by constructor].
Qed.

Lemma checkAllRepositories_returns repositories checks st :
  exists results st',
    checkAllRepositories repositories checks st = (inr results, st')
    /\ Run repositories checks results.
Proof.
  destruct (checkAllRepositories_loop_returns repositories checks [] st)
    as (rs & st' & H & Hrun).
  by exists rs, st'.
Qed.

(** Every Result of a run was built by the loop body for its own
    repository and its own check, which is one of the checks supplied. *)
Lemma Run_Emitted repositories checks results r :
  Run repositories checks results -> r ∈ results ->
  CheckResult.repository r ∈ repositories
  /\ CheckResult.check r ∈ checks
  /\ Emitted (CheckResult.repository r) (CheckResult.check r) r.
Proof.
  intros (groups & -> & Hall) Hr.
  apply list_elem_of_In, in_concat in Hr as (g & Hg & Hrg).
  apply list_elem_of_In in Hg, Hrg.
  apply list_elem_of_lookup in Hg as (i & Hi).
  destruct (Forall2_lookup_r _ _ _ _ _ Hall Hi) as (repo & Hrepo & Hem).
  apply list_elem_of_lookup in Hrg as (j & Hj).
  destruct (Forall2_lookup_r _ _ _ _ _ Hem Hj) as (check & Hcheck & Hr).
  pose proof Hr as (<- & <- & _).
  split; [eauto using list_elem_of_lookup_2|].
  split; [|assumption].
  apply list_elem_of_lookup_2 in Hcheck.
  unfold not_excluded in Hcheck.
  by apply list_elem_of_filter in Hcheck as [_ ?].
Qed.

End CheckerFacts.

Section CheckerClaims.
Context `{P : Platform}.

Lemma excluded_in_exclusion_set check repoPath :
  excluded check repoPath = true <-> in_exclusion_set check repoPath.
Proof.
  unfold excluded, in_exclusion_set.
  destruct (FileCheck.exclude check) as [entries|].
  - rewrite existsb_exists. split.
    + intros (entry & Hin & Heq). apply bool_decide_eq_true in Heq.
      exists entries, entry. by rewrite list_elem_of_In.
    + intros (entries' & entry & [= <-] & Hin & Heq).
      exists entry. rewrite bool_decide_eq_true. by rewrite <- list_elem_of_In.
  - split; [discriminate|]. by intros (? & ? & ? & _).
Qed.

Lemma startsWith_bang (s : string) :
  Js.startsWith s "!" = true -> s = String "!" (Js.slice1 s).
Proof.
  unfold Js.startsWith.
  destruct s as [|c s]; cbn [String.prefix Js.slice1]; [discriminate|].
  destruct (ascii_dec "!" c) as [<-|]; [reflexivity|discriminate].
Qed.

(** C2. Negation correctness of the pattern evaluator.  When the pattern
    of the check begins with [!], what follows the [!] is what is searched
    for, and [runCheck] returns [true] exactly when
    the search for the pattern without its first character is carried out
    and finds no match in the content (and [false] exactly when it finds
    one); otherwise it returns [true] exactly when the search for the
    pattern itself finds a match somewhere in the content (and [false]
    exactly when it finds none). *)
Theorem runCheck_negation_correct (content : string) (check : FileCheck.t) :
  let pattern := FileCheck.pattern check in
  if Js.startsWith pattern "!" then
    pattern = String "!" (Js.slice1 pattern)
    /\ (runCheck content check = inr true
       <-> search (Js.slice1 pattern) content false)
    /\ (runCheck content check = inr false
       <-> search (Js.slice1 pattern) content true)
  else
    (runCheck content check = inr true <-> search pattern content true)
    /\ (runCheck content check = inr false <-> search pattern content false).
Proof.
  unfold runCheck, new_RegExp, search. cbv zeta.
  destruct (Js.startsWith (FileCheck.pattern check) "!") eqn:Hbang.
  - split; [by apply startsWith_bang|].
    destruct (RegExp_new (Js.slice1 (FileCheck.pattern check)))
      as [reason|regex].
    + repeat split; try discriminate; by intros (? & ? & _).
    + destruct (RegExp_test regex content) eqn:Htest; simpl;
        repeat split; try discriminate; eauto;
        intros (regex' & [= <-] & Hout); congruence.
  - destruct (RegExp_new (FileCheck.pattern check)) as [reason|regex].
    + repeat split; try discriminate; by intros (? & ? & _).
    + destruct (RegExp_test regex content) eqn:Htest; simpl;
        repeat split; try discriminate; eauto;
        intros (regex' & [= <-] & Hout); congruence.
Qed.

(** C5. An excluded pair has no Result.  When [repo] appears in the
    exclusion set of [check], [checkRepository] and
    [checkAllRepositories] return, whatever the repositories, the checks and
    the state of the world, a list in which no Result is both for [repo] and
    for [check]: nothing, not a marker either, stands for the pair. *)
Theorem excluded_pair_has_no_result (check : FileCheck.t) (repo : string) :
  in_exclusion_set check repo ->
  forall (checks : list FileCheck.t) (st : State),
    (forall repoPath, exists results st',
       checkRepository repoPath checks st = (inr results, st')
       /\ Forall (fun r => ~ (CheckResult.repository r = repo
                              /\ CheckResult.check r = check)) results)
    /\ (forall repositories, exists results st',
       checkAllRepositories repositories checks st = (inr results, st')
       /\ Forall (fun r => ~ (CheckResult.repository r = repo
                              /\ CheckResult.check r = check)) results).
Proof.
  intros Hex%excluded_in_exclusion_set checks st. split.
  - intros repoPath.
    destruct (checkRepository_returns repoPath checks st)
      as (results & st' & Hrun & Hall).
    exists results, st'. split; [assumption|].
    apply Forall_forall. intros r Hr [Hrepo Hcheck].
    apply list_elem_of_lookup in Hr as (i & Hi).
    destruct (Forall2_lookup_r _ _ _ _ _ Hall Hi) as (c & _ & Hem).
    destruct Hem as (Hr1 & Hr2 & _ & Hne & _). congruence.
  - intros repositories.
    destruct (checkAllRepositories_returns repositories checks st)
      as (results & st' & Hrun & Hall).
    exists results, st'. split; [assumption|].
    apply Forall_forall. intros r Hr [Hrepo Hcheck].
    destruct (Run_Emitted _ _ _ _ Hall Hr) as (_ & _ & Hem).
    destruct Hem as (_ & _ & _ & Hne & _). congruence.
Qed.

(** C6. Prerequisites are carried exactly by failing Results.  Every
    Result that [checkRepository] returns, and so every Result that
    [checkAllRepositories] returns, has, when it passed, no error and no
    prerequisite list, and, when it did not pass, the prerequisite list of
    its check as declared. *)
Theorem requires_carried_iff_failed (checks : list FileCheck.t) (st : State) :
  let carries (r : CheckResult.t) :=
    (CheckResult.passed r = true ->
       CheckResult.error r = None /\ CheckResult.requires r = None)
    /\ (CheckResult.passed r = false ->
       CheckResult.requires r = FileCheck.requires (CheckResult.check r)) in
  (forall repoPath, exists results st',
     checkRepository repoPath checks st = (inr results, st')
     /\ Forall carries results)
  /\ (forall repositories, exists results st',
     checkAllRepositories repositories checks st = (inr results, st')
     /\ Forall carries results).
Proof.
  assert (Hcarry : forall repo check r,
    Emitted repo check r ->
    (CheckResult.passed r = true ->
       CheckResult.error r = None /\ CheckResult.requires r = None)
    /\ (CheckResult.passed r = false ->
       CheckResult.requires r = FileCheck.requires (CheckResult.check r))).
  { intros repo check r (_ & -> & _ & _ & Hreq & Herr & _).
    rewrite Hreq. split; intros Hp; rewrite Hp in *; auto. }
  cbv zeta. split.
  - intros repoPath.
    destruct (checkRepository_returns repoPath checks st)
      as (results & st' & Hrun & Hall).
    exists results, st'. split; [assumption|].
    apply Forall_forall. intros r Hr.
    apply list_elem_of_lookup in Hr as (i & Hi).
    destruct (Forall2_lookup_r _ _ _ _ _ Hall Hi) as (c & _ & Hem).
    eauto.
  - intros repositories.
    destruct (checkAllRepositories_returns repositories checks st)
      as (results & st' & Hrun & Hall).
    exists results, st'. split; [assumption|].
    apply Forall_forall. intros r Hr.
    destruct (Run_Emitted _ _ _ _ Hall Hr) as (_ & _ & Hem). eauto.
Qed.

Lemma checkRepository_loop_degrades repoPath checks :
  forall results st,
  exists rs st',
    checkRepository_loop repoPath checks results st = (inr (results ++ rs), st')
    /\ Degrades repoPath st (not_excluded repoPath checks) rs st'.
Proof.
  unfold not_excluded.
  induction checks as [|check rest IH]; intros results st; simpl.
  - exists [], st. rewrite app_nil_r. split; [reflexivity|constructor].
  - destruct (excluded check repoPath) eqn:Hex.
    + rewrite filter_cons_False by congruence. apply IH.
    + rewrite filter_cons_True by assumption.
      pose proof (evaluate_cases repoPath check st) as Hcase.
      unfold fetch_and_run, bind, lift in Hcase.
      destruct (fetchFileContent repoPath (FileCheck.file check) st)
        as [[e|content] st1] eqn:Hfetch.
      * destruct (IH (results ++ [CheckResult.mk repoPath check
                                    (FileCheck.file check) false
                                    (Some (Js.message e))
                                    (FileCheck.requires check)]) st1)
          as (rs & st2 & Hloop & Hrest).
        eexists (_ :: rs), st2. split.
        -- unfold bind. rewrite Hcase, Hloop. by rewrite <- app_assoc.
        -- by eapply Degrades_fetch_raised.
      * destruct (runCheck content check) as [e|passed] eqn:Hrun.
        -- destruct (IH (results ++ [CheckResult.mk repoPath check
                                       (FileCheck.file check) false
                                       (Some (Js.message e))
                                       (FileCheck.requires check)]) st1)
             as (rs & st2 & Hloop & Hrest).
           eexists (_ :: rs), st2. split.
           ++ unfold bind. rewrite Hcase, Hloop. by rewrite <- app_assoc.
           ++ by eapply Degrades_check_raised.
        -- destruct (IH (results ++ [CheckResult.mk repoPath check
                                       (FileCheck.file check) passed None
                                       (if passed then None
                                        else FileCheck.requires check)]) st1)
             as (rs & st2 & Hloop & Hrest).
           eexists (_ :: rs), st2. split.
           ++ unfold bind. rewrite Hcase, Hloop. by rewrite <- app_assoc.
           ++ by eapply Degrades_evaluated.
Qed.

Lemma Degrades_checks repoPath st checks results st' :
  Degrades repoPath st checks results st' ->
  map CheckResult.check results = checks.
Proof. induction 1; simpl; congruence. Qed.

(** C9. A failure of one check never aborts the run.  [checkRepository]
    always returns, and its Results are, in order, one for each check that
    is not excluded for the repository, so as many as there are such
    checks.  Each of them is what its check degrades to in the state the
    loop has reached: when fetching the content throws, or when evaluating
    the pattern on the fetched content throws, the Result has
    [passed = false] and carries the message of what was thrown, and the
    loop goes on to the next check from the state that was left.
    Evaluating a pattern that the engine rejects as malformed throws. *)
Theorem failure_never_aborts (repoPath : string) (checks : list FileCheck.t)
    (st : State) :
  (exists results st',
     checkRepository repoPath checks st = (inr results, st')
     /\ Degrades repoPath st (not_excluded repoPath checks) results st'
     /\ map CheckResult.check results = not_excluded repoPath checks
     /\ length results = length (not_excluded repoPath checks))
  /\ (forall check content reason,
       RegExp_new (searched check) = inl reason ->
       runCheck content check
       = inl (regexp_syntax_error (searched check) reason)).
Proof.
  split.
  - destruct (checkRepository_loop_degrades repoPath checks [] st)
      as (results & st' & Hrun & Hall).
    exists results, st'. split; [exact Hrun|]. split; [exact Hall|].
    pose proof (Degrades_checks _ _ _ _ _ Hall) as Hchecks.
    split; [exact Hchecks|]. by rewrite <- Hchecks, length_map.
  - intros check content reason Hbad.
    unfold runCheck, new_RegExp. unfold searched in *. cbv zeta.
    destruct (Js.startsWith (FileCheck.pattern check) "!");
      by rewrite Hbad.
Qed.

End CheckerClaims.

(** * Properties of the dependency resolver *)

Section Resolver.

Lemma unmet_first failure allResults req :
  unmet failure allResults req
  <-> exists i r,
        allResults !! i = Some r /\ answers req failure r
        /\ CheckResult.passed r = false
        /\ forall j r', allResults !! j = Some r' -> j < i ->
                        ~ answers req failure r'.
Proof.
  unfold unmet.
  destruct (list_find (answers req failure) allResults) as [[i r]|] eqn:Hfind.
  - apply list_find_Some in Hfind as (Hi & Hans & Hfirst). split.
    + intros Hp. exists i, r. eauto.
    + intros (i' & r' & Hi' & Hans' & Hp & Hfirst').
      destruct (Nat.lt_trichotomy i i') as [Hlt|[->|Hlt]].
      * exact (False_ind _ (Hfirst' i r Hi Hlt Hans)).
      * congruence.
      * exact (False_ind _ (Hfirst i' r' Hi' Hlt Hans')).
  - split; [done|]. intros (i & r & Hi & Hans & _).
    apply list_find_None in Hfind.
    eapply Forall_lookup_1 in Hfind; eauto.
Qed.

Lemma getFailedRequires_filter failure allResults :
  getFailedRequires failure allResults
  = filter (unmet failure allResults) (declared failure).
Proof.
  unfold getFailedRequires, declared.
  destruct (CheckResult.requires failure) as [requires|]; [|reflexivity].
  simpl. case_bool_decide as Hlen; [|reflexivity].
  by apply length_zero_iff_nil in Hlen as ->.
Qed.

Lemma getFailedRequires_first failure allResults req :
  kept_when_first_failed failure allResults req.
Proof.
  unfold kept_when_first_failed.
  rewrite getFailedRequires_filter, list_elem_of_filter, unmet_first.
  tauto.
Qed.

End Resolver.

Section ResolverClaims.
Context `{P : Platform}.

Lemma first_is_only (allResults : list CheckResult.t) failure req i r j r' :
  NoDup (key <$> allResults) ->
  allResults !! i = Some r -> answers req failure r ->
  allResults !! j = Some r' -> answers req failure r' ->
  i = j.
Proof.
  intros Hnodup Hi [Hn Hr] Hj [Hn' Hr'].
  eapply NoDup_lookup; [exact Hnodup| |].
  - rewrite list_lookup_fmap, Hi. reflexivity.
  - rewrite list_lookup_fmap, Hj. simpl. unfold key. congruence.
Qed.

Lemma group_keys repo (checks : list FileCheck.t) group :
  Forall2 (Emitted repo) checks group ->
  key <$> group = (fun check => (repo, FileCheck.name check)) <$> checks.
Proof.
  induction 1 as [|check r checks group (Hrepo & Hcheck & _) _ IH];
    [reflexivity|].
  rewrite !fmap_cons, IH. unfold key. by rewrite Hrepo, Hcheck.
Qed.

Lemma same_name_same_check (checks : list FileCheck.t) c1 c2 :
  NoDup (FileCheck.name <$> checks) ->
  c1 ∈ checks -> c2 ∈ checks ->
  FileCheck.name c1 = FileCheck.name c2 -> c1 = c2.
Proof.
  intros Hnodup (i & Hi)%list_elem_of_lookup (j & Hj)%list_elem_of_lookup Hname.
  assert (i = j) as ->; [|congruence].
  eapply NoDup_lookup; [exact Hnodup| |].
  - by rewrite list_lookup_fmap, Hi.
  - rewrite list_lookup_fmap, Hj. simpl. by rewrite Hname.
Qed.

(** When the repositories are distinct and the checks have distinct names,
    as the set of [getRepositories] and a configuration that uses names as
    identifiers give them, no two Results of a run share both. *)
Lemma Run_key_NoDup repositories checks results :
  NoDup repositories -> NoDup (FileCheck.name <$> checks) ->
  Run repositories checks results ->
  NoDup (key <$> results).
Proof.
  intros Hrepos Hnames (groups & -> & Hall).
  induction Hall as [|repo group repositories groups Hgroup Hall IH];
    [constructor|].
  apply NoDup_cons in Hrepos as [Hfresh Hrepos].
  simpl. rewrite fmap_app. apply NoDup_app. split; [|split].
  - rewrite (group_keys _ _ _ Hgroup).
    apply NoDup_fmap_2_strong.
    + intros c1 c2 [_ H1]%list_elem_of_filter [_ H2]%list_elem_of_filter
        [= Hname].
      eauto using same_name_same_check.
    + apply NoDup_filter. eapply NoDup_fmap_1, Hnames.
  - intros k Hk Hk'.
    apply list_elem_of_fmap in Hk as (r & -> & Hr).
    apply list_elem_of_fmap in Hk' as (r' & Hkey & Hr').
    apply list_elem_of_lookup in Hr as (i & Hi).
    destruct (Forall2_lookup_r _ _ _ _ _ Hgroup Hi) as (c & _ & Hr & _).
    assert (Hrun : Run repositories checks (concat groups))
      by (exists groups; eauto).
    destruct (Run_Emitted _ _ _ _ Hrun Hr') as (Hin & _).
    apply Hfresh. unfold key in Hkey. congruence.
  - by apply IH.
Qed.

(** C3. Among the Results of a run over distinct repositories with
    checks of distinct names, and more generally among Results no two of
    which share their repository and the name of their check,
    [getFailedRequires] keeps a declared prerequisite entry exactly when
    some Result of the set that is for the same repository and for the
    check the entry names did not pass.  An entry that no Result of the set
    answers is left out.  Whatever the Results, the entry is kept exactly
    when the first Result that answers it did not pass. *)
Theorem getFailedRequires_first_answer (failure : CheckResult.t)
    (allResults : list CheckResult.t) (req : RequiresEntry.t) :
  kept_when_first_failed failure allResults req
  /\ ((forall r, r ∈ allResults -> ~ answers req failure r) ->
      req ∉ getFailedRequires failure allResults)
  /\ (NoDup (key <$> allResults) ->
      kept_when_some_failed failure allResults req)
  /\ (forall repositories checks,
      NoDup repositories -> NoDup (FileCheck.name <$> checks) ->
      Run repositories checks allResults ->
      kept_when_some_failed failure allResults req).
Proof.
  pose proof (getFailedRequires_first failure allResults req) as Hfirst.
  assert (Hunique : NoDup (key <$> allResults) ->
                    kept_when_some_failed failure allResults req);
    [|split; [exact Hfirst|]; split; [|split; [exact Hunique|]]].
  3: { intros repositories checks Hrepos Hnames Hrun.
       eauto using Run_key_NoDup. }
  - intros Hnodup. unfold kept_when_some_failed.
    unfold kept_when_first_failed in Hfirst. rewrite Hfirst. split.
    + intros (Hdecl & i & r & Hi & Hans & Hp & _).
      eauto 6 using list_elem_of_lookup_2.
    + intros (Hdecl & r & Hr & Hans & Hp). split; [assumption|].
      apply list_elem_of_lookup in Hr as (i & Hi).
      exists i, r. do 3 (split; [assumption|]).
      intros j r' Hj Hlt Hans'.
      pose proof (first_is_only _ _ _ _ _ _ _ Hnodup Hi Hans Hj Hans'). lia.
  - intros Hnone Hin. apply Hfirst in Hin as (_ & i & r & Hi & Hans & _).
    eapply Hnone; eauto using list_elem_of_lookup_2.
Qed.

(** C10. The resolved list is a subsequence of the declared one.  What
    [getFailedRequires] returns is obtained from the prerequisite list the
    Result carries by leaving entries out: nothing is reordered, repeated or
    made up, and the entries kept are the declared ones, reason included.
    For a failing Result of a run the list it carries is the list its check
    declares. *)
Theorem getFailedRequires_sublist :
  (forall failure allResults,
     getFailedRequires failure allResults `sublist_of` declared failure)
  /\ (forall repositories checks st,
      exists results st',
        checkAllRepositories repositories checks st = (inr results, st')
        /\ Forall (fun r =>
             CheckResult.passed r = false ->
             forall allResults,
               getFailedRequires r allResults
               `sublist_of` default [] (FileCheck.requires (CheckResult.check r)))
           results).
Proof.
  split.
  - intros failure allResults. rewrite getFailedRequires_filter.
    apply sublist_filter.
  - intros repositories checks st.
    destruct (checkAllRepositories_returns repositories checks st)
      as (results & st' & Hrun & Hall).
    exists results, st'. split; [assumption|].
    apply Forall_forall. intros r Hr Hfailed allResults.
    destruct (Run_Emitted _ _ _ _ Hall Hr) as (_ & _ & Hem).
    destruct Hem as (_ & _ & _ & _ & Hreq & _).
    rewrite Hfailed in Hreq. rewrite getFailedRequires_filter.
    unfold declared. rewrite Hreq. apply sublist_filter.
Qed.

End ResolverClaims.

(** * Properties of the failure-status classification *)

Lemma includes_cons (c : ascii) (s needle : string) :
  Js.includes (String c s) needle
  = String.prefix needle (String c s) || Js.includes s needle.
Proof. reflexivity. Qed.

Lemma includes_prefix (s needle : string) :
  String.prefix needle s = true -> Js.includes s needle = true.
Proof.
  intros H. destruct s as [|c s].
  - change (Js.includes EmptyString needle)
      with (String.prefix needle EmptyString || false). by rewrite H.
  - by rewrite includes_cons, H.
Qed.

Lemma includes_app (s1 s2 needle : string) :
  Js.includes s2 needle = true -> Js.includes (s1 +:+ s2) needle = true.
Proof.
  intros H. induction s1 as [|c s1 IH]; [exact H|].
  change (String c s1 +:+ s2) with (String c (s1 +:+ s2)).
  rewrite includes_cons, IH. apply orb_true_r.
Qed.

(** The message of the error [fetchFileContent] throws when the file is on
    neither branch. *)
Lemma not_found_message (filePath : string) :
  Js.includes
    ("Failed to fetch " +:+ filePath +:+ ": "
     +:+ Js.toString (Js.error ("File not found: " +:+ filePath)))
    "File not found" = true.
Proof.
  do 3 apply includes_app.
  change (Js.toString (Js.error ("File not found: " +:+ filePath)))
    with ("Error" +:+ ": " +:+ "File not found: " +:+ filePath).
  do 2 apply includes_app. by apply includes_prefix.
Qed.

Section Classification.
Context `{P : Platform}.

Lemma fetchFileContent_absent repoPath owner repoName filePath st
    response w1 masterResponse w2 :
  owner_and_repo repoPath = Some (owner, repoName) ->
  fetch (raw_url owner repoName "main" filePath) (world st)
  = (inr response, w1) ->
  Response.ok response = false ->
  fetch (raw_url owner repoName "master" filePath) w1
  = (inr masterResponse, w2) ->
  Response.ok masterResponse = false ->
  fetchFileContent repoPath filePath st
  = (inl (Js.error
            ("Failed to fetch " +:+ filePath +:+ ": "
             +:+ Js.toString (Js.error ("File not found: " +:+ filePath)))),
     mkState w2
       (trace st ++ [Fetch (raw_url owner repoName "main" filePath)]
                 ++ [Fetch (raw_url owner repoName "master" filePath)])).
Proof.
  intros Hsplit Hmain Hok Hmaster Hok'.
  unfold fetchFileContent. rewrite Hsplit.
  unfold try_catch, bind, js_fetch, effect.
  rewrite Hmain, Hok. simpl. rewrite Hmaster, Hok'. simpl.
  unfold throw. by rewrite <- app_assoc.
Qed.

(** C8. The status of a failure is one of three.  A Result whose error is
    a non-empty text containing [File not found] is classified as not
    found; a Result whose error is any other non-empty text is classified
    by that text; a Result without error (or with an empty one) is
    classified as a pattern that was not found, the pattern being quoted
    with every [|] written [\|].  The errors of the Results of a run are
    never empty, so that for them the three cases are: an error containing
    [File not found], any other error, no error.  When both the [main] and
    the [master] request are answered with a response that is not [ok], the
    Result of the check fails and is classified as not found. *)
Theorem failure_status_three_way :
  (forall failure : CheckResult.t,
     (forall e, CheckResult.error failure = Some e ->
        Js.truthy e = true -> Js.includes e "File not found" = true ->
        getFailureStatus failure
        = FailureStatus.mk PersonShrugging "File not found")
     /\ (forall e, CheckResult.error failure = Some e ->
        Js.truthy e = true -> Js.includes e "File not found" = false ->
        getFailureStatus failure = FailureStatus.mk CrossMark e)
     /\ (CheckResult.error failure = None
         \/ CheckResult.error failure = Some EmptyString ->
        getFailureStatus failure
        = FailureStatus.mk MagnifyingGlass
            ("Pattern `"
             +:+ Js.replaceAll "|" "\|"
                   (FileCheck.pattern (CheckResult.check failure))
             +:+ "` not found")))
  /\ (forall repositories checks st,
      exists results st',
        checkAllRepositories repositories checks st = (inr results, st')
        /\ Forall (fun r =>
             (forall e, CheckResult.error r = Some e ->
                Js.includes e "File not found" = true ->
                getFailureStatus r
                = FailureStatus.mk PersonShrugging "File not found")
             /\ (forall e, CheckResult.error r = Some e ->
                Js.includes e "File not found" = false ->
                getFailureStatus r = FailureStatus.mk CrossMark e)
             /\ (CheckResult.error r = None ->
                getFailureStatus r
                = FailureStatus.mk MagnifyingGlass
                    ("Pattern `"
                     +:+ Js.replaceAll "|" "\|"
                           (FileCheck.pattern (CheckResult.check r))
                     +:+ "` not found")))
           results)
  /\ (forall repoPath owner repoName check st response w1 masterResponse w2,
      owner_and_repo repoPath = Some (owner, repoName) ->
      fetch (raw_url owner repoName "main" (FileCheck.file check)) (world st)
      = (inr response, w1) ->
      Response.ok response = false ->
      fetch (raw_url owner repoName "master" (FileCheck.file check)) w1
      = (inr masterResponse, w2) ->
      Response.ok masterResponse = false ->
      exists r st',
        evaluate repoPath check st = (inr r, st')
        /\ CheckResult.passed r = false
        /\ getFailureStatus r
           = FailureStatus.mk PersonShrugging "File not found").
Proof.
  split; [|split].
  - intros failure. unfold getFailureStatus. split; [|split].
    + intros e -> -> ->. reflexivity.
    + intros e -> -> ->. reflexivity.
    + intros [->| ->]; reflexivity.
  - intros repositories checks st.
    destruct (checkAllRepositories_returns repositories checks st)
      as (results & st' & Hrun & Hall).
    exists results, st'. split; [assumption|].
    apply Forall_forall. intros r Hr.
    destruct (Run_Emitted _ _ _ _ Hall Hr) as (_ & _ & Hem).
    destruct Hem as (_ & _ & _ & _ & _ & _ & Htruthy).
    unfold getFailureStatus. split; [|split].
    + intros e He Hinc. by rewrite He, (Htruthy _ He), Hinc.
    + intros e He Hinc. by rewrite He, (Htruthy _ He), Hinc.
    + by intros ->.
  - intros repoPath owner repoName check st response w1 masterResponse w2
      Hsplit Hmain Hok Hmaster Hok'.
    pose proof (evaluate_cases repoPath check st) as H.
    unfold fetch_and_run, bind in H.
    rewrite (fetchFileContent_absent _ _ _ _ _ _ _ _ _
               Hsplit Hmain Hok Hmaster Hok') in H.
    eexists _, _. split; [exact H|]. split; [reflexivity|].
    unfold getFailureStatus.
    cbn [CheckResult.error Js.message Js.error].
    rewrite not_found_message. reflexivity.
Qed.

End Classification.

(** * Properties of the aggregation *)

Lemma unit_rank_inj (x y : ascii) : unit_rank x = unit_rank y -> x = y.
Proof.
  intros H. rewrite <- (ascii_N_embedding x), <- (ascii_N_embedding y).
  f_equal. revert H. unfold unit_rank.
  pose proof (N_ascii_bounded x). pose proof (N_ascii_bounded y).
  cbv zeta.
  destruct ((238 <=? N_of_ascii x) && (N_of_ascii x <=? 239))%N eqn:Hx,
           ((238 <=? N_of_ascii y) && (N_of_ascii y <=? 239))%N eqn:Hy;
    lia.
Qed.

Lemma compare_units_refl (a : string) : compare_units a a = Eq.
Proof.
  induction a as [|x a IH]; simpl; [reflexivity|].
  by rewrite N.compare_refl.
Qed.

Lemma compare_units_Eq (a : string) :
  forall b, compare_units a b = Eq -> a = b.
Proof.
  induction a as [|x a IH]; intros [|y b]; simpl; try congruence.
  destruct (N.compare_spec (unit_rank x) (unit_rank y)) as [Hxy|Hxy|Hxy];
    try discriminate.
  intros Hab. by rewrite (unit_rank_inj _ _ Hxy), (IH _ Hab).
Qed.

Lemma compare_units_antisym (a : string) :
  forall b, compare_units b a = CompOpp (compare_units a b).
Proof.
  induction a as [|x a IH]; intros [|y b]; simpl; try reflexivity.
  rewrite (N.compare_antisym (unit_rank x) (unit_rank y)).
  destruct (N.compare (unit_rank x) (unit_rank y)); simpl; auto.
Qed.

Lemma compare_not_Gt_trans (a : string) :
  forall b c,
    compare_units a b <> Gt -> compare_units b c <> Gt ->
    compare_units a c <> Gt.
Proof.
  induction a as [|x a IH]; intros [|y b] [|z c]; simpl; try congruence.
  destruct (N.compare_spec (unit_rank x) (unit_rank y)) as [Hxy|Hxy|Hxy],
           (N.compare_spec (unit_rank y) (unit_rank z)) as [Hyz|Hyz|Hyz];
    try congruence;
    destruct (N.compare_spec (unit_rank x) (unit_rank z)) as [Hxz|Hxz|Hxz];
    try lia; try congruence.
  apply IH.
Qed.

#[global] Instance str_le_trans : Transitive str_le.
Proof. intros a b c. apply compare_not_Gt_trans. Qed.

#[global] Instance str_le_total : Total str_le.
Proof.
  intros a b. unfold str_le. rewrite (compare_units_antisym a b).
  destruct (compare_units a b); simpl; [left|left|right]; discriminate.
Qed.

#[global] Instance str_le_antisym : AntiSymm (=) str_le.
Proof.
  intros a b. unfold str_le. rewrite (compare_units_antisym a b).
  intros Hab Hba. apply compare_units_Eq.
  destruct (compare_units a b); simpl in *; congruence.
Qed.

Lemma sort_sorted (keys : list string) : StronglySorted str_le (sort keys).
Proof. apply StronglySorted_merge_sort; apply _. Qed.

Lemma sort_elem_of (keys : list string) (k : string) :
  k ∈ sort keys <-> k ∈ keys.
Proof. unfold sort. by rewrite merge_sort_Permutation. Qed.

Lemma sort_NoDup (keys : list string) : NoDup keys -> NoDup (sort keys).
Proof. unfold sort. by rewrite merge_sort_Permutation. Qed.

Section JsMapFacts.
Context {V : Type}.
Implicit Types (m : JsMap.t V) (k : string) (v : V).

Lemma get_set k k' v m :
  JsMap.get k' (JsMap.set k v m)
  = if bool_decide (k = k') then Some v else JsMap.get k' m.
Proof.
  induction m as [|[k0 v0] m IH]; simpl.
  - reflexivity.
  - destruct (bool_decide_reflect (k0 = k)) as [->|Hne]; simpl.
    + by destruct (bool_decide (k = k')).
    + destruct (bool_decide_reflect (k0 = k')) as [->|Hne'].
      * by rewrite bool_decide_eq_false_2 by congruence.
      * exact IH.
Qed.

Lemma has_keys k m : JsMap.has k m = true <-> k ∈ JsMap.keys m.
Proof.
  unfold JsMap.has, JsMap.keys.
  induction m as [|[k0 v0] m IH]; simpl.
  - split; [discriminate|]. by intros ?%elem_of_nil.
  - rewrite elem_of_cons.
    destruct (bool_decide_reflect (k0 = k)) as [->|Hne]; [tauto|].
    rewrite IH. split; [tauto|]. by intros [<-|?].
Qed.

Lemma keys_set k v m :
  JsMap.keys (JsMap.set k v m)
  = if JsMap.has k m then JsMap.keys m else JsMap.keys m ++ [k].
Proof.
  unfold JsMap.has, JsMap.keys.
  induction m as [|[k0 v0] m IH]; simpl.
  - reflexivity.
  - destruct (bool_decide_reflect (k0 = k)) as [->|Hne]; simpl.
    + reflexivity.
    + rewrite IH. by destruct (JsMap.get k m).
Qed.

Lemma keys_set_elem_of k k' v m :
  k' ∈ JsMap.keys (JsMap.set k v m) <-> k' ∈ JsMap.keys m \/ k' = k.
Proof.
  rewrite keys_set. destruct (JsMap.has k m) eqn:Hhas.
  - apply has_keys in Hhas. split; [tauto|]. by intros [?| ->].
  - rewrite elem_of_app, list_elem_of_singleton. tauto.
Qed.

Lemma keys_set_NoDup k v m :
  NoDup (JsMap.keys m) -> NoDup (JsMap.keys (JsMap.set k v m)).
Proof.
  intros Hnodup. rewrite keys_set. destruct (JsMap.has k m) eqn:Hhas.
  - assumption.
  - apply NoDup_app. split; [assumption|]. split; [|apply NoDup_singleton].
    intros x Hx ->%list_elem_of_singleton.
    apply has_keys in Hx. congruence.
Qed.

Lemma set_set k v v' m :
  JsMap.set k v (JsMap.set k v' m) = JsMap.set k v m.
Proof.
  induction m as [|[k0 v0] m IH]; simpl.
  - by rewrite bool_decide_eq_true_2.
  - destruct (bool_decide_reflect (k0 = k)) as [->|Hne]; simpl.
    + by rewrite bool_decide_eq_true_2.
    + rewrite bool_decide_eq_false_2 by assumption. by rewrite IH.
Qed.

Lemma get_or_set d k k' v m :
  get_or d k' (JsMap.set k v m)
  = if bool_decide (k = k') then v else get_or d k' m.
Proof.
  unfold get_or. rewrite get_set. by destruct (bool_decide (k = k')).
Qed.

End JsMapFacts.

Section Aggregation.
Variable results : list CheckResult.t.
Abbreviation ByCheck := (JsMap.t (JsMap.t (list ProcessedFailure.t))).
Implicit Types (byCheck : ByCheck) (failure : CheckResult.t).

Abbreviation name_of f := (FileCheck.name (CheckResult.check f)).
Abbreviation repo_of f := (CheckResult.repository f).

(** One iteration, once the two [has] tests are resolved: the bucket of
    the failure gets it appended, under the keys of the failure. *)
Lemma add_failure_set byCheck failure :
  add_failure results byCheck failure
  = JsMap.set (name_of failure)
      (JsMap.set (repo_of failure)
         (bucket byCheck (name_of failure) (repo_of failure)
          ++ [processed results failure])
         (get_or JsMap.empty (name_of failure) byCheck))
      byCheck.
Proof.
  unfold add_failure, bucket, processed.
  set (n := name_of failure). set (r := repo_of failure).
  assert (Houter :
    get_or JsMap.empty n
      (if negb (JsMap.has n byCheck)
       then JsMap.set n JsMap.empty byCheck else byCheck)
    = get_or JsMap.empty n byCheck).
  { unfold JsMap.has, get_or. destruct (JsMap.get n byCheck) eqn:Hget; simpl.
    - by rewrite Hget.
    - by rewrite get_set, bool_decide_eq_true_2. }
  rewrite Houter. set (repoMap := get_or JsMap.empty n byCheck).
  assert (Hinner :
    get_or [] r
      (if negb (JsMap.has r repoMap) then JsMap.set r [] repoMap else repoMap)
    = get_or [] r repoMap).
  { unfold JsMap.has, get_or. destruct (JsMap.get r repoMap) eqn:Hget; simpl.
    - by rewrite Hget.
    - by rewrite get_set, bool_decide_eq_true_2. }
  rewrite Hinner.
  destruct (JsMap.has n byCheck), (JsMap.has r repoMap); simpl;
    by rewrite ?set_set.
Qed.

Lemma inner_add byCheck failure n :
  get_or JsMap.empty n (add_failure results byCheck failure)
  = if bool_decide (name_of failure = n)
    then JsMap.set (repo_of failure)
           (bucket byCheck n (repo_of failure) ++ [processed results failure])
           (get_or JsMap.empty n byCheck)
    else get_or JsMap.empty n byCheck.
Proof.
  rewrite add_failure_set, get_or_set.
  repeat case_bool_decide; by subst.
Qed.

Lemma bucket_add byCheck failure n r :
  bucket (add_failure results byCheck failure) n r
  = if bool_decide (filed n r failure)
    then bucket byCheck n r ++ [processed results failure]
    else bucket byCheck n r.
Proof.
  unfold bucket at 1. rewrite inner_add. unfold filed, named.
  destruct (bool_decide_reflect (name_of failure = n)) as [Hn|Hn].
  - rewrite get_or_set.
    destruct (bool_decide_reflect (repo_of failure = r)) as [Hr|Hr].
    + rewrite bool_decide_eq_true_2 by done. by rewrite Hr.
    + by rewrite bool_decide_eq_false_2 by tauto.
  - by rewrite bool_decide_eq_false_2 by tauto.
Qed.

Lemma fold_bucket failures : forall byCheck n r,
  bucket (foldl (add_failure results) byCheck failures) n r
  = bucket byCheck n r ++ (processed results <$> filter (filed n r) failures).
Proof.
  induction failures as [|f failures IH]; intros byCheck n r; simpl.
  - by rewrite app_nil_r.
  - rewrite IH, bucket_add.
    destruct (bool_decide_reflect (filed n r f)) as [Hf|Hf].
    + rewrite filter_cons_True by done. by rewrite <- app_assoc.
    + by rewrite filter_cons_False by done.
Qed.

Lemma fold_keys failures : forall byCheck,
  (NoDup (JsMap.keys byCheck) ->
   NoDup (JsMap.keys (foldl (add_failure results) byCheck failures)))
  /\ (forall n,
      n ∈ JsMap.keys (foldl (add_failure results) byCheck failures)
      <-> n ∈ JsMap.keys byCheck \/ exists f, f ∈ failures /\ named n f).
Proof.
  induction failures as [|f failures IH]; intros byCheck; simpl.
  - split; [done|]. intros n. setoid_rewrite elem_of_nil. naive_solver.
  - destruct (IH (add_failure results byCheck f)) as [IHn IHe]. split.
    + intros Hnodup. apply IHn. rewrite add_failure_set.
      by apply keys_set_NoDup.
    + intros n. rewrite IHe, add_failure_set, keys_set_elem_of.
      unfold named. setoid_rewrite elem_of_cons. naive_solver.
Qed.

Lemma fold_inner_keys failures : forall byCheck n,
  (NoDup (JsMap.keys (get_or JsMap.empty n byCheck)) ->
   NoDup (JsMap.keys (get_or JsMap.empty n
                        (foldl (add_failure results) byCheck failures))))
  /\ (forall r,
      r ∈ JsMap.keys (get_or JsMap.empty n
                        (foldl (add_failure results) byCheck failures))
      <-> r ∈ JsMap.keys (get_or JsMap.empty n byCheck)
          \/ exists f, f ∈ failures /\ filed n r f).
Proof.
  induction failures as [|f failures IH]; intros byCheck n; simpl.
  - split; [done|]. intros r. setoid_rewrite elem_of_nil. naive_solver.
  - destruct (IH (add_failure results byCheck f) n) as [IHn IHe].
    rewrite inner_add in IHn, IHe. unfold filed, named in *.
    destruct (bool_decide_reflect (name_of f = n)) as [Hn|Hn]; split.
    + intros Hnodup. by apply IHn, keys_set_NoDup.
    + intros r. rewrite IHe, keys_set_elem_of.
      setoid_rewrite elem_of_cons. naive_solver.
    + exact IHn.
    + intros r. rewrite IHe. setoid_rewrite elem_of_cons. naive_solver.
Qed.

End Aggregation.

Lemma map_fst_pair {A B} (g : A -> B) (l : list A) :
  map fst (map (fun x => (x, g x)) l) = l.
Proof. induction l as [|x l IH]; simpl; by rewrite ?IH. Qed.

Lemma processResults_byCheck (results : list CheckResult.t) :
  GroupedResults.byCheck (processResults results)
  = foldl (add_failure results) JsMap.empty (filter failed results).
Proof. reflexivity. Qed.

Lemma failed_elem_of (results : list CheckResult.t) (Q : CheckResult.t -> Prop) :
  (exists f, f ∈ filter failed results /\ Q f)
  <-> exists r, r ∈ results /\ Q r /\ failed r.
Proof. setoid_rewrite list_elem_of_filter. naive_solver. Qed.


(** * Properties of [main] *)

Section MainFacts.
Context `{P : Platform}.

Lemma search_url_not_raw owner repoName branch filePath :
  search_url <> raw_url owner repoName branch filePath.
Proof.
  intros H. apply (f_equal (String.get 8)) in H. vm_compute in H.
  discriminate.
Qed.

Lemma discovery_event_not_content ev :
  discovery_event ev -> ~ is_content_fetch ev.
Proof.
  intros [->|(label & error & ->)]
    (owner & repoName & branch & filePath & H).
  - assert (Hurl : search_url = raw_url owner repoName branch filePath)
      by congruence.
    by apply search_url_not_raw in Hurl.
  - discriminate.
Qed.

Lemma loadConfig_run configPath st :
  exists r w,
    loadConfig configPath st
    = (r, mkState w (trace st ++ [ReadFile configPath]))
    /\ forall config, r = inr config ->
         readConfig configPath (world st) = (inr config, w).
Proof.
  unfold loadConfig, try_catch, effect.
  destruct (readConfig configPath (world st)) as [[e|config] w].
  - eexists _, w. split; [reflexivity|]. discriminate.
  - eexists _, w. split; [reflexivity|]. by intros ? [= <-].
Qed.

Lemma fetchBazelContribRepositories_trace st :
  exists r w evs,
    fetchBazelContribRepositories st = (r, mkState w (trace st ++ evs))
    /\ Forall discovery_event evs.
Proof.
  assert (Hfetch : discovery_event (Fetch search_url)) by by left.
  assert (Hlog : forall label error,
            discovery_event (ConsoleErrorWith label error))
    by (intros label error; right; eauto).
  unfold fetchBazelContribRepositories, try_catch, bind, js_fetch, effect,
    console_error_with, emit, throw.
  destruct (fetch search_url (world st)) as [[e|response] w]; simpl.
  - eexists _, w, [_; _]. rewrite <- app_assoc. split; [reflexivity|].
    repeat (apply Forall_cons_2 || apply Forall_nil_2); auto.
  - destruct (Response.ok response); simpl.
    + unfold lift, throw, ret.
      destruct (Response.json response) as [e|data]; simpl.
      * eexists _, w, [_; _]. rewrite <- app_assoc. split; [reflexivity|].
        repeat (apply Forall_cons_2 || apply Forall_nil_2); auto.
      * eexists _, w, [_]. split; [reflexivity|]. repeat (apply Forall_cons_2 || apply Forall_nil_2); auto.
    + eexists _, w, [_; _]. rewrite <- app_assoc. split; [reflexivity|].
      repeat (apply Forall_cons_2 || apply Forall_nil_2); auto.
Qed.

Lemma getRepositories_trace config st :
  exists r w evs,
    getRepositories config st = (r, mkState w (trace st ++ evs))
    /\ Forall discovery_event evs
    /\ (discovers config = false -> evs = []).
Proof.
  assert (Hpure : forall (m : list string -> M (list string)) l,
    (forall l st, exists r, m l st = (r, st)) ->
    exists r, bind (ret l) m st = (r, mkState (world st) (trace st ++ []))).
  { intros m l Hm. unfold bind, ret. destruct (Hm l st) as [r ->].
    exists r. rewrite app_nil_r. by destruct st. }
  assert (Hrest : forall l st0, exists r,
    (fun repositories : list string =>
       let repositories :=
         match Config.repositories config with
         | Some static =>
             if StaticRepositories.enabled static
             then repositories ++ StaticRepositories.list static
             else repositories
         | None => repositories
         end in
       if bool_decide (length repositories = 0) then
         throw (Js.error ("No repositories configured. Either provide static "
                          +:+ "repositories or enable dynamic repository fetching."))
       else ret (Js.unique repositories)) l st0 = (r, st0)).
  { intros l st0. cbv zeta. case_bool_decide; eexists; reflexivity. }
  unfold getRepositories, discovers.
  destruct (Config.dynamicRepositories config) as [dynamic|].
  - destruct (DynamicRepositories.enabled dynamic).
    + destruct (fetchBazelContribRepositories_trace st)
        as (r & w & evs & Hrun & Hevs).
      unfold bind at 1. unfold bind at 1. rewrite Hrun.
      destruct r as [e|dynamicRepos].
      * eexists _, w, evs. split; [reflexivity|]. split; [assumption|done].
      * unfold ret at 1.
        destruct (Hrest ([] ++ dynamicRepos) (mkState w (trace st ++ evs)))
          as [r Hr].
        exists r, w, evs. split; [exact Hr|]. split; [assumption|done].
    + destruct (Hpure _ [] Hrest) as [r Hr].
      exists r, (world st), []. split; [exact Hr|]. split; [constructor|done].
  - destruct (Hpure _ [] Hrest) as [r Hr].
    exists r, (world st), []. split; [exact Hr|]. split; [constructor|done].
Qed.

End MainFacts.

Section MainClaims.
Context `{P : Platform}.

Lemma filter_unknown checkName (checks : list FileCheck.t) :
  Forall (fun check => FileCheck.name check <> checkName) checks ->
  filter (fun check => FileCheck.name check = checkName) checks = [].
Proof.
  induction 1 as [|check checks Hne _ IH]; [reflexivity|].
  by rewrite filter_cons_False.
Qed.

Lemma ReadFile_not_fetch path : ~ is_fetch (ReadFile path).
Proof. by intros [url ?]. Qed.

Lemma discovery_event_fetch ev :
  discovery_event ev -> is_fetch ev -> is_discovery_fetch ev.
Proof.
  intros [?|(label & error & ->)] [url ?]; [assumption|discriminate].
Qed.

Lemma fetchBazelContribRepositories_first st :
  exists r w rest,
    fetchBazelContribRepositories st
    = (r, mkState w (trace st ++ Fetch search_url :: rest)).
Proof.
  unfold fetchBazelContribRepositories, try_catch, bind, js_fetch, effect,
    console_error_with, emit, throw.
  destruct (fetch search_url (world st)) as [[e|response] w]; simpl.
  - eexists _, w, [_]. by rewrite <- app_assoc.
  - destruct (Response.ok response); simpl.
    + unfold lift, throw, ret.
      destruct (Response.json response) as [e|data]; simpl.
      * eexists _, w, [_]. by rewrite <- app_assoc.
      * by eexists _, w, [].
    + eexists _, w, [_]. by rewrite <- app_assoc.
Qed.

Lemma getRepositories_first config st :
  discovers config = true ->
  exists r w rest,
    getRepositories config st
    = (r, mkState w (trace st ++ Fetch search_url :: rest)).
Proof.
  unfold getRepositories, discovers.
  destruct (Config.dynamicRepositories config) as [dynamic|]; [|discriminate].
  intros ->.
  destruct (fetchBazelContribRepositories_first st) as (r & w & rest & Hrun).
  unfold bind at 1. unfold bind at 1. rewrite Hrun.
  destruct r as [e|dynamicRepos]; [by eexists _, w, rest|].
  unfold ret at 1. unfold bind.
  destruct (Config.repositories config) as [static|];
    [destruct (StaticRepositories.enabled static)|];
    cbv zeta; case_bool_decide; by eexists _, w, rest.
Qed.

(** C4 (as amended).  When [process.argv[2]] is a non-empty name that
    no check of the loaded configuration bears, the run ends with exit
    status 1 after an error message, and it has requested no file content.
    The only request it can have made is the search that discovers the
    repositories.  It has made that request, right after reading the
    configuration, when the configuration enables discovery, and it has
    made no request at all when the configuration does not. *)
Theorem unknown_check_fetches_no_content (checkName : string) (st : State) :
  Js.truthy checkName = true ->
  (forall config w,
     readConfig "config.json" (world st) = (inr config, w) ->
     unknown_check checkName config) ->
  exists evs text,
    fst (main (Some checkName) st) = 1
    /\ trace (snd (main (Some checkName) st))
       = trace st ++ evs ++ [ConsoleError text]
    /\ Forall (fun ev => ~ is_content_fetch ev) evs
    /\ Forall (fun ev => is_fetch ev -> is_discovery_fetch ev) evs
    /\ (forall config w,
          readConfig "config.json" (world st) = (inr config, w) ->
          if discovers config
          then exists rest,
                 evs = ReadFile "config.json" :: Fetch search_url :: rest
          else evs = [ReadFile "config.json"]).
Proof.
  intros Htruthy Hunknown.
  enough (exists evs text w',
    main (Some checkName) st
    = (1, mkState w' (trace st ++ evs ++ [ConsoleError text]))
    /\ Forall (fun ev => ~ is_content_fetch ev) evs
    /\ Forall (fun ev => is_fetch ev -> is_discovery_fetch ev) evs
    /\ (forall config w,
          readConfig "config.json" (world st) = (inr config, w) ->
          if discovers config
          then exists rest,
                 evs = ReadFile "config.json" :: Fetch search_url :: rest
          else evs = [ReadFile "config.json"]))
    as (evs & text & w' & -> & H); [by exists evs, text|].
  destruct (loadConfig_run "config.json" st) as (r & w & Hload & Hcfg).
  unfold main, main_try. unfold bind at 1. rewrite Hload.
  destruct r as [e|config].
  - exists [ReadFile "config.json"], ("Error: " +:+ Js.message e), w.
    simpl. rewrite <- app_assoc.
    split; [reflexivity|].
    split; [|split].
    + apply Forall_singleton. by intros (? & ? & ? & ? & ?).
    + apply Forall_singleton. by intros ?%ReadFile_not_fetch.
    + intros config w0 Hread. exfalso. revert Hload.
      unfold loadConfig, try_catch, effect. by rewrite Hread.
  - specialize (Hcfg config eq_refl).
    specialize (Hunknown config w Hcfg).
    destruct (getRepositories_trace config
                (mkState w (trace st ++ [ReadFile "config.json"])))
      as (r' & w' & evs & Hrepos & Hevs & Hdyn).
    unfold bind at 1. rewrite Hrepos. simpl in *.
    assert (Hcontent : Forall (fun ev => ~ is_content_fetch ev)
                         (ReadFile "config.json" :: evs)).
    { apply Forall_cons_2; [by intros (? & ? & ? & ? & ?)|].
      eapply Forall_impl; [exact Hevs|].
      apply discovery_event_not_content. }
    assert (Hfetch : Forall (fun ev => is_fetch ev -> is_discovery_fetch ev)
                       (ReadFile "config.json" :: evs)).
    { apply Forall_cons_2; [by intros ?%ReadFile_not_fetch|].
      eapply Forall_impl; [exact Hevs|]. apply discovery_event_fetch. }
    assert (Hfirst : forall config' w0,
      readConfig "config.json" (world st) = (inr config', w0) ->
      if discovers config'
      then exists rest,
             ReadFile "config.json" :: evs
             = ReadFile "config.json" :: Fetch search_url :: rest
      else ReadFile "config.json" :: evs = [ReadFile "config.json"]).
    { intros config' w0 Hread. rewrite Hcfg in Hread.
      injection Hread as <- <-.
      destruct (discovers config) eqn:Hdisc; [|by rewrite (Hdyn eq_refl)].
      destruct (getRepositories_first config
                  (mkState w (trace st ++ [ReadFile "config.json"])) Hdisc)
        as (r0 & w0 & rest & Hrepos').
      rewrite Hrepos in Hrepos'. injection Hrepos' as _ _ Htrace.
      simpl in Htrace. apply app_inv_head in Htrace. exists rest.
      by rewrite Htrace. }
    destruct r' as [e|repositories].
    + exists (ReadFile "config.json" :: evs), ("Error: " +:+ Js.message e), w'.
      simpl. rewrite <- !app_assoc. by repeat split.
    + rewrite Htruthy, (filter_unknown _ _ Hunknown). simpl.
      exists (ReadFile "config.json" :: evs),
        ("Error: No check found with name '" +:+ checkName +:+ "'"), w'.
      simpl. rewrite <- !app_assoc. by repeat split.
Qed.

End MainClaims.

(** * The program on concrete inputs *)

Section Scenarios.
Import Demo Scenario.

#[local] Existing Instance Demo.platform.

(** The scenarios of the specification. *)

Example license_present :
  fst (checkRepository "acme/widgets" [has_license] (start acme))
  = inr [result_of "acme/widgets" has_license true None].
Proof. vm_compute. reflexivity. Qed.

Example license_absent :
  fst (checkRepository "acme/empty" [has_license] (start acme))
  = inr [result_of "acme/empty" has_license false
           (Some "Failed to fetch LICENSE: Error: File not found: LICENSE")].
Proof. vm_compute. reflexivity. Qed.

Example todo_forbidden :
  fst (checkRepository "acme/widgets" [no_todo] (start acme))
  = inr [result_of "acme/widgets" no_todo false None].
Proof. vm_compute. reflexivity. Qed.

Example malformed_pattern_is_a_failure :
  fst (checkRepository "acme/widgets" [broken; has_license] (start acme))
  = inr [result_of "acme/widgets" broken false
           (Some "Invalid regular expression: /(/: Unterminated group");
         result_of "acme/widgets" has_license true None].
Proof. vm_compute. reflexivity. Qed.

Example pipes_are_escaped :
  FailureStatus.message
    (getFailureStatus
       (result_of "acme/widgets" (simple_check "either" "LICENSE" "MIT|BSD")
          false None))
  = "Pattern `MIT\|BSD` not found".
Proof. vm_compute. reflexivity. Qed.

Example fix_first_when_both_fail :
  getFailedRequires (result_of "acme/widgets" spdx false None)
    [result_of "acme/widgets" license_apache false None;
     result_of "acme/widgets" spdx false None]
  = [RequiresEntry.mk "has-license" None].
Proof. vm_compute. reflexivity. Qed.

Example no_fix_first_when_prerequisite_passes :
  getFailedRequires (result_of "acme/widgets" spdx false None)
    [result_of "acme/widgets" license_any true None;
     result_of "acme/widgets" spdx false None]
  = [].
Proof. vm_compute. reflexivity. Qed.

Example report_order_of_two_repositories :
  map (fun group => (fst group, map fst (snd group)))
    (report_order
       [result_of "b/z" spdx false None;
        result_of "b/a" has_license false None;
        result_of "a/q" spdx false None;
        result_of "b/a" spdx true None])
  = [("has-license", ["b/a"]); ("spdx", ["a/q"; "b/z"])].
Proof. vm_compute. reflexivity. Qed.

(** C1. A disabled check is evaluated all the same.  The check
    [disabled_license] has [enabled = false], and [checkAllRepositories]
    returns a Result for it: the list it filters by [enabled] is not the
    list it hands to [checkRepository]. *)
Theorem disabled_check_is_evaluated :
  FileCheck.enabled disabled_license = Some false
  /\ fst (checkAllRepositories ["acme/widgets"] [disabled_license]
            (start acme))
     = inr [result_of "acme/widgets" disabled_license true None].
Proof. split; [reflexivity|]. vm_compute. reflexivity. Qed.

(** It is the first answer that counts.  Were two checks to share a
    name, which the data model rules out, the first [has-license] passing
    and the second not, the failing [spdx], which asks for [has-license]
    first, would have the entry dropped although a failing Result answers
    it. *)
Lemma same_name_hides_failed_prerequisite :
  fst (checkAllRepositories ["acme/widgets"]
         [license_any; license_apache; spdx] (start acme))
  = inr same_name_results
  /\ ~ kept_when_some_failed
         (result_of "acme/widgets" spdx false None)
         same_name_results
         (RequiresEntry.mk "has-license" None).
Proof.
  split; [vm_compute; reflexivity|].
  unfold kept_when_some_failed. intros [_ Hkept].
  assert (Hin : RequiresEntry.mk "has-license" None
                ∈ getFailedRequires
                    (result_of "acme/widgets" spdx false None)
                    same_name_results).
  { apply Hkept. split.
    - vm_compute. left.
    - exists (result_of "acme/widgets" license_apache false None).
      split; [|split; [split|]]; try reflexivity.
      vm_compute. right. left. }
  vm_compute in Hin. inversion Hin.
Qed.

(** The claim C4 as it is worded fails when the repositories are
    discovered: the name [no-such-check] is borne by no check, the run
    ends with status 1, and it has sent the search request before. *)
Lemma unknown_check_still_discovers :
  unknown_check "no-such-check" discovering
  /\ fst (main (Some "no-such-check") (start (acme_with discovering))) = 1
  /\ ~ Forall (fun ev => ~ is_fetch ev)
         (trace (snd (main (Some "no-such-check")
                        (start (acme_with discovering))))).
Proof.
  split; [|split].
  - repeat constructor; discriminate.
  - vm_compute. reflexivity.
  - intros Hnone. rewrite Forall_forall in Hnone.
    apply (Hnone (Fetch search_url)).
    + vm_compute. right. left.
    + by exists search_url.
Qed.

(** The theorems at concrete inputs. *)

Lemma runCheck_negation_correct_witness :
  (runCheck "x TODO y" no_todo = inr false
     <-> search "TODO" "x TODO y" true)
  /\ runCheck "x TODO y" no_todo = inr false.
Proof.
  pose proof (runCheck_negation_correct "x TODO y" no_todo) as (_ & _ & H).
  split; [exact H|]. vm_compute. reflexivity.
Defined.

Lemma excluded_pair_has_no_result_witness :
  in_exclusion_set license_but_widgets "acme/widgets"
  /\ exists results st',
       checkAllRepositories ["acme/widgets"; "acme/empty"]
         [license_but_widgets] (start acme) = (inr results, st')
       /\ Forall (fun r => ~ (CheckResult.repository r = "acme/widgets"
                              /\ CheckResult.check r = license_but_widgets))
            results.
Proof.
  assert (H : in_exclusion_set license_but_widgets "acme/widgets").
  { exists [ExcludeEntry.mk "acme/widgets" (Some "vendored")],
      (ExcludeEntry.mk "acme/widgets" (Some "vendored")).
    split; [reflexivity|]. split; [left|reflexivity]. }
  split; [exact H|].
  exact (proj2 (excluded_pair_has_no_result license_but_widgets
                  "acme/widgets" H [license_but_widgets] (start acme))
           ["acme/widgets"; "acme/empty"]).
Defined.

Lemma requires_carried_iff_failed_witness :
  exists results st',
    checkRepository "acme/widgets" [spdx; has_license] (start acme)
    = (inr results, st')
    /\ Forall (fun r =>
         (CheckResult.passed r = true ->
            CheckResult.error r = None /\ CheckResult.requires r = None)
         /\ (CheckResult.passed r = false ->
            CheckResult.requires r
            = FileCheck.requires (CheckResult.check r))) results.
Proof.
  exact (proj1 (requires_carried_iff_failed [spdx; has_license] (start acme))
           "acme/widgets").
Defined.

Lemma failure_never_aborts_witness :
  runCheck "MIT License" broken
  = inl (regexp_syntax_error (searched broken) "Unterminated group").
Proof.
  apply (proj2 (failure_never_aborts "acme/widgets" [broken] (start acme))
           broken "MIT License" "Unterminated group").
  vm_compute. reflexivity.
Defined.

Lemma getFailedRequires_first_answer_witness :
  NoDup (key <$> [result_of "acme/widgets" license_apache false None;
                  result_of "acme/widgets" spdx false None])
  /\ kept_when_some_failed (result_of "acme/widgets" spdx false None)
       [result_of "acme/widgets" license_apache false None;
        result_of "acme/widgets" spdx false None]
       (RequiresEntry.mk "has-license" None).
Proof.
  assert (H : NoDup (key <$> [result_of "acme/widgets" license_apache false
                                None;
                              result_of "acme/widgets" spdx false None])).
  { eapply (bool_decide_unpack _). vm_compute. exact I. }
  split; [exact H|].
  exact (proj1 (proj2 (proj2 (getFailedRequires_first_answer _ _ _))) H).
Defined.

Lemma getFailedRequires_sublist_witness :
  getFailedRequires (result_of "acme/widgets" spdx false None)
    same_name_results
  `sublist_of` declared (result_of "acme/widgets" spdx false None).
Proof. exact (proj1 getFailedRequires_sublist _ _). Defined.

Lemma failure_status_three_way_witness :
  exists r st',
    evaluate "acme/empty" has_license (start acme) = (inr r, st')
    /\ CheckResult.passed r = false
    /\ getFailureStatus r
       = FailureStatus.mk PersonShrugging "File not found".
Proof.
  apply (proj2 (proj2 failure_status_three_way)
           "acme/empty" "acme" "empty" has_license (start acme)
           missing acme missing acme).
  - vm_compute. reflexivity.
  - vm_compute. reflexivity.
  - reflexivity.
  - vm_compute. reflexivity.
  - reflexivity.
Defined.


Lemma unknown_check_fetches_no_content_witness :
  exists evs text,
    fst (main (Some "no-such-check") (start (acme_with discovering))) = 1
    /\ trace (snd (main (Some "no-such-check")
                     (start (acme_with discovering))))
       = trace (start (acme_with discovering)) ++ evs ++ [ConsoleError text]
    /\ Forall (fun ev => ~ is_content_fetch ev) evs
    /\ Forall (fun ev => is_fetch ev -> is_discovery_fetch ev) evs
    /\ (forall config w,
          readConfig "config.json" (world (start (acme_with discovering)))
          = (inr config, w) ->
          if discovers config
          then exists rest,
                 evs = ReadFile "config.json" :: Fetch search_url :: rest
          else evs = [ReadFile "config.json"]).
Proof.
  apply (unknown_check_fetches_no_content "no-such-check"
           (start (acme_with discovering))).
  - reflexivity.
  - intros config w Hread. vm_compute in Hread.
    injection Hread as <- _. unfold unknown_check.
    repeat (apply Forall_cons_2 || apply Forall_nil_2); discriminate.
Defined.

End Scenarios.

(** * Further properties of the program *)

(** ** Repository paths *)

Lemma prefix_empty (s : string) : String.prefix EmptyString s = true.
Proof. by destruct s. Qed.

Lemma includes_slash_cons (c : ascii) (s : string) :
  Js.includes (String c s) "/" = Ascii.eqb c "/" || Js.includes s "/".
Proof.
  rewrite includes_cons. f_equal.
  cbn [String.prefix]. destruct (ascii_dec "/" c) as [<-|Hne].
  - by rewrite prefix_empty.
  - symmetry. apply Ascii.eqb_neq. congruence.
Qed.

Lemma includes_slash_empty : Js.includes EmptyString "/" = false.
Proof. reflexivity. Qed.

Lemma split_nonempty sep s : Js.split sep s <> [].
Proof.
  destruct s as [|c s]; simpl; [done|].
  destruct (Ascii.eqb c sep); [done|]. by destruct (Js.split sep s).
Qed.

Lemma split_slash_free s : slash_free s -> Js.split "/" s = [s].
Proof.
  unfold slash_free. induction s as [|c s IH]; [done|].
  rewrite includes_slash_cons. intros [Hc Hs]%orb_false_iff.
  simpl. rewrite Hc, (IH Hs). reflexivity.
Qed.

Lemma split_slash_app h t :
  slash_free h -> Js.split "/" (h +:+ String "/" t) = h :: Js.split "/" t.
Proof.
  unfold slash_free. induction h as [|c h IH]; [done|].
  rewrite includes_slash_cons. intros [Hc Hs]%orb_false_iff.
  simpl. rewrite Hc, (IH Hs). reflexivity.
Qed.

Lemma split_slash_inv s h tl :
  Js.split "/" s = h :: tl ->
  slash_free h
  /\ ((tl = [] /\ s = h)
      \/ exists t, s = h +:+ String "/" t /\ tl = Js.split "/" t).
Proof.
  revert h tl. induction s as [|c s IH]; intros h tl; simpl.
  - intros [= <- <-]. split; [done|]. by left.
  - destruct (Ascii.eqb_spec c "/") as [->|Hne].
    + intros [= <- <-]. split; [done|]. right. by exists s.
    + destruct (Js.split "/" s) as [|h' tl'] eqn:Hsplit;
        [by apply split_nonempty in Hsplit|].
      intros [= <- <-]. destruct (IH _ _ eq_refl) as [Hfree Hshape].
      split.
      * unfold slash_free. rewrite includes_slash_cons.
        apply orb_false_iff. split; [by apply Ascii.eqb_neq|done].
      * destruct Hshape as [[-> ->]|(t & -> & ->)]; [by left|].
        right. by exists t.
Qed.

Lemma owner_and_repo_form repoPath owner repoName :
  owner_and_repo repoPath = Some (owner, repoName)
  <-> owner_repo_form repoPath owner repoName.
Proof.
  unfold owner_and_repo, owner_repo_form. split.
  - destruct (Js.split "/" repoPath) as [|o [|r tl]] eqn:Hsplit; try done.
    destruct (Js.truthy o) eqn:Ho, (Js.truthy r) eqn:Hr; try done.
    intros [= <- <-].
    apply split_slash_inv in Hsplit as [Hfo [[? _]|(t & -> & Ht)]]; [done|].
    symmetry in Ht. apply split_slash_inv in Ht as [Hfr Hshape].
    do 4 (split; [done|]).
    destruct Hshape as [[_ ->]|(t' & -> & _)]; [by left|].
    right. by exists t'.
  - intros (Ho & Hr & Hfo & Hfr & [->|(rest & ->)]).
    + change (owner +:+ "/" +:+ repoName)
        with (owner +:+ String "/" repoName).
      rewrite (split_slash_app _ _ Hfo), (split_slash_free _ Hfr).
      by rewrite Ho, Hr.
    + change (owner +:+ "/" +:+ repoName +:+ "/" +:+ rest)
        with (owner +:+ String "/" (repoName +:+ String "/" rest)).
      rewrite (split_slash_app _ _ Hfo), (split_slash_app _ _ Hfr).
      destruct (Js.split "/" rest); by rewrite Ho, Hr.
Qed.

(** ** The requests of [fetchFileContent] and of the loop *)

Section FetchFacts.
Context `{P : Platform}.

Lemma fetchFileContent_invalid repoPath filePath st :
  owner_and_repo repoPath = None ->
  fetchFileContent repoPath filePath st
  = (inl (invalid_repository_format repoPath), st).
Proof. intros H. unfold fetchFileContent. by rewrite H. Qed.

(** What [fetchFileContent] does, by the answers of the network. *)
Lemma fetchFileContent_valid repoPath owner repoName filePath st :
  owner_and_repo repoPath = Some (owner, repoName) ->
  fetchFileContent repoPath filePath st
  = match fetch (raw_url owner repoName "main" filePath) (world st) with
    | (inl e, w) =>
        (inl (failed_to_fetch filePath e),
         mkState w (trace st
                    ++ [Fetch (raw_url owner repoName "main" filePath)]))
    | (inr response, w) =>
        if Response.ok response then
          (match Response.text response with
           | inl e => inl (failed_to_fetch filePath e)
           | inr content => inr content
           end,
           mkState w (trace st
                      ++ [Fetch (raw_url owner repoName "main" filePath)]))
        else
          match fetch (raw_url owner repoName "master" filePath) w with
          | (inl e, w') =>
              (inl (failed_to_fetch filePath e),
               mkState w'
                 (trace st
                  ++ [Fetch (raw_url owner repoName "main" filePath);
                      Fetch (raw_url owner repoName "master" filePath)]))
          | (inr masterResponse, w') =>
              (if Response.ok masterResponse then
                 match Response.text masterResponse with
                 | inl e => inl (failed_to_fetch filePath e)
                 | inr content => inr content
                 end
               else
                 inl (failed_to_fetch filePath
                        (Js.error ("File not found: " +:+ filePath))),
               mkState w'
                 (trace st
                  ++ [Fetch (raw_url owner repoName "main" filePath);
                      Fetch (raw_url owner repoName "master" filePath)]))
          end
    end.
Proof.
  intros H. unfold fetchFileContent. rewrite H.
  unfold try_catch, bind, js_fetch, effect, failed_to_fetch.
  destruct (fetch (raw_url owner repoName "main" filePath) (world st))
    as [[e|response] w]; [reflexivity|].
  destruct (Response.ok response); simpl.
  - unfold lift, throw, ret.
    by destruct (Response.text response).
  - destruct (fetch (raw_url owner repoName "master" filePath) w)
      as [[e|masterResponse] w']; simpl; rewrite <- app_assoc;
      [reflexivity|].
    destruct (Response.ok masterResponse); simpl; [|reflexivity].
    unfold lift, throw, ret.
    by destruct (Response.text masterResponse).
Qed.

Lemma fetchFileContent_trace repoPath filePath st :
  exists r w evs,
    fetchFileContent repoPath filePath st
    = (r, mkState w (trace st ++ evs))
    /\ length evs <= 2
    /\ Forall (requests_file repoPath filePath) evs
    /\ (forall e, r = inl e ->
        e = invalid_repository_format repoPath
        \/ exists cause, e = failed_to_fetch filePath cause).
Proof.
  destruct (owner_and_repo repoPath) as [[owner repoName]|] eqn:Hvalid.
  - assert (Hmain : requests_file repoPath filePath
                      (Fetch (raw_url owner repoName "main" filePath)))
      by (exists owner, repoName, "main"; auto).
    assert (Hmaster : requests_file repoPath filePath
                        (Fetch (raw_url owner repoName "master" filePath)))
      by (exists owner, repoName, "master"; auto).
    rewrite (fetchFileContent_valid _ _ _ _ _ Hvalid).
    destruct (fetch (raw_url owner repoName "main" filePath) (world st))
      as [[e|response] w].
    + eexists _, _, [_]. split; [reflexivity|]. split; [simpl; lia|].
      split; [by apply Forall_singleton|]. intros ? [= <-]. eauto.
    + destruct (Response.ok response).
      * eexists _, _, [_]. split; [reflexivity|]. split; [simpl; lia|].
        split; [by apply Forall_singleton|].
        destruct (Response.text response); intros ? [= <-]; eauto.
      * destruct (fetch (raw_url owner repoName "master" filePath) w)
          as [[e|masterResponse] w'].
        -- eexists _, _, [_; _]. split; [reflexivity|]. split; [simpl; lia|].
           split; [by repeat constructor|]. intros ? [= <-]. eauto.
        -- eexists _, _, [_; _]. split; [reflexivity|]. split; [simpl; lia|].
           split; [by repeat constructor|].
           destruct (Response.ok masterResponse);
             [destruct (Response.text masterResponse)|];
             intros ? [= <-]; eauto.
  - rewrite (fetchFileContent_invalid _ _ _ Hvalid).
    exists (inl (invalid_repository_format repoPath)), (world st), [].
    rewrite app_nil_r. split; [by destruct st|]. split; [simpl; lia|].
    split; [constructor|]. intros ? [= <-]. by left.
Qed.

Lemma evaluate_trace repoPath check st :
  exists r w evs,
    evaluate repoPath check st = (inr r, mkState w (trace st ++ evs))
    /\ length evs <= 2
    /\ Forall (requests_file repoPath (FileCheck.file check)) evs.
Proof.
  destruct (fetchFileContent_trace repoPath (FileCheck.file check) st)
    as (r & w & evs & Hfetch & Hlen & Hevs & _).
  pose proof (evaluate_cases repoPath check st) as H.
  unfold fetch_and_run, bind in H. rewrite Hfetch in H.
  destruct r as [e|content].
  - eexists _, w, evs. split; [exact H|]. by split.
  - unfold lift in H. destruct (runCheck content check) as [e|b];
      eexists _, w, evs; (split; [exact H|]); by split.
Qed.

Lemma checkRepository_loop_trace repoPath checks :
  forall results st,
  exists rs w evs,
    checkRepository_loop repoPath checks results st
    = (inr (results ++ rs), mkState w (trace st ++ evs))
    /\ length evs <= 2 * length (not_excluded repoPath checks)
    /\ Forall (requests_checked_file repoPath checks) evs.
Proof.
  unfold requests_checked_file, not_excluded.
  induction checks as [|check rest IH]; intros results st; simpl.
  - exists [], (world st), []. rewrite !app_nil_r.
    split; [by destruct st|]. split; [simpl; lia|constructor].
  - destruct (excluded check repoPath) eqn:Hex.
    + rewrite filter_cons_False by congruence. apply IH.
    + rewrite filter_cons_True by assumption.
      destruct (evaluate_trace repoPath check st)
        as (r & w & evs & Hr & Hlen & Hevs).
      destruct (IH (results ++ [r]) (mkState w (trace st ++ evs)))
        as (rs & w' & evs' & Hloop & Hlen' & Hevs').
      exists (r :: rs), w', (evs ++ evs'). split; [|split].
      * unfold bind. rewrite Hr, Hloop. simpl.
        by rewrite <- !app_assoc.
      * rewrite length_app. simpl. lia.
      * apply Forall_app. split.
        -- eapply Forall_impl; [exact Hevs|]. intros ev Hev.
           exists check. split; [apply list_elem_of_here|done].
        -- eapply Forall_impl; [exact Hevs'|]. intros ev (c & Hc & Hev).
           exists c. split; [by apply list_elem_of_further|done].
Qed.

End FetchFacts.

(** ** Malformed paths, the fallback branch and wrapped errors *)

Lemma append_inj_l (s t1 t2 : string) : s +:+ t1 = s +:+ t2 -> t1 = t2.
Proof. induction s as [|c s IH]; simpl; [done|]. intros [= H]. auto. Qed.

Lemma raw_url_branch owner repoName filePath :
  raw_url owner repoName "main" filePath
  <> raw_url owner repoName "master" filePath.
Proof.
  unfold raw_url. intros H.
  apply (append_inj_l "https://raw.githubusercontent.com/") in H.
  apply append_inj_l in H. apply (append_inj_l "/") in H.
  apply append_inj_l in H. apply (append_inj_l "/") in H.
  discriminate.
Qed.

Section CheckerExtras.
Context `{P : Platform}.

Lemma owner_and_repo_None repoPath :
  (forall owner repoName, ~ owner_repo_form repoPath owner repoName) ->
  owner_and_repo repoPath = None.
Proof.
  intros Hnone. destruct (owner_and_repo repoPath) as [[o r]|] eqn:H; [|done].
  apply owner_and_repo_form in H. by apply Hnone in H.
Qed.

Lemma checkRepository_loop_invalid repoPath checks :
  owner_and_repo repoPath = None ->
  forall results st,
    checkRepository_loop repoPath checks results st
    = (inr (results
            ++ (failing_result repoPath (invalid_repository_format repoPath)
                  <$> not_excluded repoPath checks)), st).
Proof.
  intros Hinvalid. unfold not_excluded.
  induction checks as [|check rest IH]; intros results st; simpl.
  - by rewrite app_nil_r.
  - destruct (excluded check repoPath) eqn:Hex.
    + rewrite filter_cons_False by congruence. apply IH.
    + rewrite filter_cons_True by assumption.
      pose proof (evaluate_cases repoPath check st) as H.
      unfold fetch_and_run, bind in H.
      rewrite (fetchFileContent_invalid _ _ _ Hinvalid) in H.
      unfold bind. rewrite H, IH. by rewrite <- app_assoc.
Qed.

(** X1. A repository path that is not [owner/repoName], with both parts
    non-empty, is refused before any request: [fetchFileContent] throws
    [Invalid repository format] and leaves the world and the trace as they
    were, and [checkRepository] returns, for every check that is not
    excluded, a failing Result carrying that message, without a request. *)
Theorem malformed_repository_path_is_refused (repoPath : string) :
  (forall owner repoName, ~ owner_repo_form repoPath owner repoName) ->
  (forall filePath st,
     fetchFileContent repoPath filePath st
     = (inl (invalid_repository_format repoPath), st))
  /\ (forall checks st,
      checkRepository repoPath checks st
      = (inr (failing_result repoPath (invalid_repository_format repoPath)
                <$> not_excluded repoPath checks), st)).
Proof.
  intros Hinvalid%owner_and_repo_None. split.
  - intros filePath st. by apply fetchFileContent_invalid.
  - intros checks st. unfold checkRepository.
    by rewrite checkRepository_loop_invalid.
Qed.

(** X2. A repository path [owner/repoName], with both parts non-empty
    and free of [/], is accepted, and so is such a path followed by [/] and
    anything: what follows the second [/] plays no part, and the content is
    fetched as for [owner/repoName]. *)
Theorem extra_path_segments_are_ignored (repoPath owner repoName : string) :
  owner_repo_form repoPath owner repoName ->
  forall filePath st,
    fetchFileContent repoPath filePath st
    = fetchFileContent (owner +:+ "/" +:+ repoName) filePath st
    /\ exists r w evs,
         fetchFileContent repoPath filePath st
         = (r, mkState w
                 (trace st
                  ++ Fetch (raw_url owner repoName "main" filePath) :: evs)).
Proof.
  intros Hform filePath st.
  assert (Hshort : owner_repo_form (owner +:+ "/" +:+ repoName) owner repoName).
  { destruct Hform as (? & ? & ? & ? & _). unfold owner_repo_form. eauto 6. }
  apply owner_and_repo_form in Hform, Hshort.
  rewrite (fetchFileContent_valid _ _ _ _ _ Hform),
    (fetchFileContent_valid _ _ _ _ _ Hshort).
  split; [reflexivity|].
  destruct (fetch (raw_url owner repoName "main" filePath) (world st))
    as [[e|response] w].
  - by eexists _, _, [].
  - destruct (Response.ok response).
    + by eexists _, _, [].
    + destruct (fetch (raw_url owner repoName "master" filePath) w)
        as [[e|masterResponse] w']; by eexists _, _, [_].
Qed.

(** X3. The fallback branch is requested exactly when the first request
    was answered, and answered with a response that is not [ok].  A request
    that throws (a network fault) is not retried on [master]. *)
Theorem master_is_requested_iff_main_not_ok
    (repoPath owner repoName filePath : string) (st : State) :
  owner_and_repo repoPath = Some (owner, repoName) ->
  exists r w evs,
    fetchFileContent repoPath filePath st = (r, mkState w (trace st ++ evs))
    /\ (Fetch (raw_url owner repoName "master" filePath) ∈ evs
        <-> exists response w1,
              fetch (raw_url owner repoName "main" filePath) (world st)
              = (inr response, w1)
              /\ Response.ok response = false).
Proof.
  intros Hvalid. rewrite (fetchFileContent_valid _ _ _ _ _ Hvalid).
  pose proof (raw_url_branch owner repoName filePath) as Hne.
  destruct (fetch (raw_url owner repoName "main" filePath) (world st))
    as [[e|response] w].
  - eexists _, _, [_]. split; [reflexivity|].
    rewrite list_elem_of_singleton. split.
    + intros H. exfalso. apply Hne. congruence.
    + by intros (? & ? & ? & _).
  - destruct (Response.ok response) eqn:Hok.
    + eexists _, _, [_]. split; [reflexivity|].
      rewrite list_elem_of_singleton. split.
      * intros H. exfalso. apply Hne. congruence.
      * intros (? & ? & [= <- <-] & ?). congruence.
    + destruct (fetch (raw_url owner repoName "master" filePath) w)
        as [[e|masterResponse] w'];
        (eexists _, _, [_; _]; split; [reflexivity|]; split;
         [eauto|intros _; apply list_elem_of_further, list_elem_of_here]).
Qed.

(** X4. When [main] lacks the file and [master] has it, the check is
    evaluated on the content of [master]: the Result has no error, and it
    passes or fails as [runCheck] says of that content. *)
Theorem fallback_content_is_evaluated
    (repoPath owner repoName : string) (check : FileCheck.t) (st : State)
    response w1 masterResponse w2 content passed :
  owner_and_repo repoPath = Some (owner, repoName) ->
  fetch (raw_url owner repoName "main" (FileCheck.file check)) (world st)
  = (inr response, w1) ->
  Response.ok response = false ->
  fetch (raw_url owner repoName "master" (FileCheck.file check)) w1
  = (inr masterResponse, w2) ->
  Response.ok masterResponse = true ->
  Response.text masterResponse = inr content ->
  runCheck content check = inr passed ->
  exists r st',
    evaluate repoPath check st = (inr r, st')
    /\ CheckResult.passed r = passed
    /\ CheckResult.error r = None
    /\ world st' = w2.
Proof.
  intros Hvalid Hmain Hok Hmaster Hok' Htext Hrun.
  pose proof (evaluate_cases repoPath check st) as H.
  unfold fetch_and_run, bind in H.
  rewrite (fetchFileContent_valid _ _ _ _ _ Hvalid) in H.
  rewrite Hmain, Hok, Hmaster, Hok', Htext in H.
  unfold lift in H. rewrite Hrun in H.
  eexists _, _. split; [exact H|]. by repeat split.
Qed.

(** X5. Whatever [fetchFileContent] throws is a plain [Error] made by
    the function itself: either the refusal of the repository path or
    [Failed to fetch], the file path and the text of the cause.  The name of
    the cause survives only inside that text. *)
Theorem fetch_errors_are_wrapped (repoPath filePath : string) (st st' : State)
    (e : Js.Error) :
  fetchFileContent repoPath filePath st = (inl e, st') ->
  Js.name e = "Error"
  /\ (e = invalid_repository_format repoPath
      \/ exists cause,
           Js.message e
           = "Failed to fetch " +:+ filePath +:+ ": " +:+ Js.toString cause).
Proof.
  intros Hthrow.
  destruct (fetchFileContent_trace repoPath filePath st)
    as (r & w & evs & Hfetch & _ & _ & Hwhat).
  rewrite Hthrow in Hfetch. injection Hfetch as <- _.
  destruct (Hwhat e eq_refl) as [->|(cause & ->)].
  - split; [reflexivity|]. by left.
  - split; [reflexivity|]. right. by exists cause.
Qed.

End CheckerExtras.

(** ** The requests and the Results of a run; discovery *)

Section RunExtras.
Context `{P : Platform}.

Lemma requests_file_content repoPath filePath ev :
  requests_file repoPath filePath ev -> is_content_fetch ev.
Proof. intros (o & r & b & _ & _ & ->). by exists o, r, b, filePath. Qed.

Lemma checkAllRepositories_loop_trace repositories checks :
  forall allResults st,
  exists rs w evs,
    checkAllRepositories_loop repositories checks allResults st
    = (inr (allResults ++ rs), mkState w (trace st ++ evs))
    /\ length evs <= 2 * length rs
    /\ Forall (fun ev => exists repo,
                 repo ∈ repositories /\ requests_checked_file repo checks ev)
              evs.
Proof.
  induction repositories as [|repo rest IH]; intros allResults st; simpl.
  - exists [], (world st), []. rewrite !app_nil_r.
    split; [by destruct st|]. split; [simpl; lia|constructor].
  - destruct (checkRepository_loop_trace repo checks [] st)
      as (g & w & evs & Hg & Hlen & Hevs).
    rewrite app_nil_l in Hg.
    destruct (checkRepository_returns repo checks st)
      as (g' & st1 & Hg' & Hem).
    unfold checkRepository in Hg'. rewrite Hg in Hg'.
    injection Hg' as <- <-. apply Forall2_length in Hem.
    destruct (IH (allResults ++ g) (mkState w (trace st ++ evs)))
      as (rs & w' & evs' & Hloop & Hlen' & Hevs').
    exists (g ++ rs), w', (evs ++ evs'). split; [|split].
    + unfold bind, checkRepository. rewrite Hg, Hloop. simpl.
      by rewrite <- !app_assoc.
    + rewrite !length_app. lia.
    + apply Forall_app. split.
      * eapply Forall_impl; [exact Hevs|]. intros ev Hev.
        exists repo. split; [apply list_elem_of_here|done].
      * eapply Forall_impl; [exact Hevs'|]. intros ev (repo' & Hin & Hev).
        exists repo'. split; [by apply list_elem_of_further|done].
Qed.

(** X6. [checkRepository] requests nothing but files of the checks it
    does not skip, from [main] or [master] of its repository, and at most
    two requests for each Result it returns; in particular it requests
    nothing when every check is excluded. *)
Theorem checkRepository_requests (repoPath : string)
    (checks : list FileCheck.t) (st : State) :
  exists results w evs,
    checkRepository repoPath checks st
    = (inr results, mkState w (trace st ++ evs))
    /\ length results = length (not_excluded repoPath checks)
    /\ length evs <= 2 * length results
    /\ Forall (requests_checked_file repoPath checks) evs.
Proof.
  destruct (checkRepository_loop_trace repoPath checks [] st)
    as (rs & w & evs & Hrun & Hlen & Hevs).
  rewrite app_nil_l in Hrun.
  destruct (checkRepository_returns repoPath checks st)
    as (results & st' & Hrun' & Hem).
  unfold checkRepository in *. rewrite Hrun in Hrun'.
  injection Hrun' as <- <-. apply Forall2_length in Hem.
  exists rs, w, evs. split; [exact Hrun|]. split; [done|].
  split; [lia|done].
Qed.

(** X7. A run over all repositories talks to the network only to fetch
    file contents: every event it adds to the trace is a request for a file
    of a check, from a repository of the list; it never sends the search
    request, never writes to the console's error stream, never touches a
    file; and it sends at most two requests for each Result. *)
Theorem checkAllRepositories_requests (repositories : list string)
    (checks : list FileCheck.t) (st : State) :
  exists results w evs,
    checkAllRepositories repositories checks st
    = (inr results, mkState w (trace st ++ evs))
    /\ length evs <= 2 * length results
    /\ Forall (fun ev => exists repo,
                 repo ∈ repositories /\ requests_checked_file repo checks ev)
              evs
    /\ Forall is_content_fetch evs
    /\ Fetch search_url ∉ evs.
Proof.
  destruct (checkAllRepositories_loop_trace repositories checks [] st)
    as (rs & w & evs & Hrun & Hlen & Hevs).
  rewrite app_nil_l in Hrun.
  assert (Hcontent : Forall is_content_fetch evs).
  { eapply Forall_impl; [exact Hevs|].
    intros ev (repo & _ & check & _ & Hev).
    eauto using requests_file_content. }
  exists rs, w, evs. split; [exact Hrun|]. do 3 (split; [done|]).
  intros Hsearch. rewrite Forall_forall in Hcontent.
  apply Hcontent in Hsearch as (o & r & b & f & Hurl).
  apply (search_url_not_raw o r b f). congruence.
Qed.

Lemma group_pairs repo (checks : list FileCheck.t) group :
  Forall2 (Emitted repo) checks group ->
  map pair_of group = map (pair repo) checks
  /\ Forall (fun r => CheckResult.filePath r
                      = FileCheck.file (CheckResult.check r)) group.
Proof.
  induction 1
    as [|check r checks group (Hrepo & Hcheck & Hfile & _) _ [IH1 IH2]].
  - split; [reflexivity|constructor].
  - split.
    + simpl. rewrite IH1. unfold pair_of. by rewrite Hrepo, Hcheck.
    + constructor; [congruence|done].
Qed.

(** X8. Which Results a run returns, and in which order, is settled by
    its inputs alone: the network decides only whether each passes.  The
    Results are for the pairs of a repository and a check not excluded for
    it, repository by repository in the order of the list and, within a
    repository, check by check in the order of the list; each names the file
    of its check. *)
Theorem checkAllRepositories_result_order (repositories : list string)
    (checks : list FileCheck.t) (st : State) :
  exists results st',
    checkAllRepositories repositories checks st = (inr results, st')
    /\ map pair_of results = planned repositories checks
    /\ Forall (fun r => CheckResult.filePath r
                        = FileCheck.file (CheckResult.check r)) results.
Proof.
  destruct (checkAllRepositories_returns repositories checks st)
    as (results & st' & Hrun & groups & -> & Hall).
  exists (concat groups), st'. split; [exact Hrun|].
  unfold planned. clear Hrun.
  induction Hall as [|repo group repositories groups Hgroup _ [IH1 IH2]].
  - split; [reflexivity|constructor].
  - destruct (group_pairs _ _ _ Hgroup) as [Hg1 Hg2]. simpl. split.
    + by rewrite map_app, Hg1, IH1.
    + by apply Forall_app.
Qed.

(** X9. One [!] in front of a pattern that has none turns the outcome of
    the check around, and leaves a malformed pattern as malformed as it was.
    A second [!] does not turn it back: only the first character is taken
    off, and the second is part of what is searched for. *)
Theorem bang_inverts_once (content p : string) (check : FileCheck.t) :
  (Js.startsWith p "!" = false ->
   runCheck content (with_pattern check ("!" +:+ p))
   = inverted (runCheck content (with_pattern check p)))
  /\ searched (with_pattern check ("!" +:+ "!" +:+ p)) = "!" +:+ p.
Proof.
  assert (Hbang : forall s, Js.startsWith ("!" +:+ s) "!" = true).
  { intros s. unfold Js.startsWith.
    change ("!" +:+ s) with (String "!" s). cbn [String.prefix].
    destruct (ascii_dec "!" "!"); [apply prefix_empty|done]. }
  split.
  - intros Hplain. unfold runCheck. simpl FileCheck.pattern.
    rewrite Hbang, Hplain. cbv zeta.
    change (Js.slice1 ("!" +:+ p)) with p.
    by destruct (new_RegExp p).
  - unfold searched. simpl FileCheck.pattern. by rewrite Hbang.
Qed.

(** X10. The discovery returns exactly when the search is answered, the
    answer is [ok] and its body parses.  The repositories it returns are
    then the [full_name]s of the items of the answer, in their order; one
    request was sent and nothing was written to the console's error
    stream. *)
Theorem discovery_lists_full_names (st st' : State)
    (repositories : list string) :
  fetchBazelContribRepositories st = (inr repositories, st')
  <-> exists response w data,
        fetch search_url (world st) = (inr response, w)
        /\ Response.ok response = true
        /\ Response.json response = inr data
        /\ repositories
           = map GitHubRepository.full_name (GitHubSearchResponse.items data)
        /\ st' = mkState w (trace st ++ [Fetch search_url]).
Proof.
  unfold fetchBazelContribRepositories, try_catch, bind, js_fetch, effect,
    console_error, emit, throw, lift, ret.
  split.
  - destruct (fetch search_url (world st)) as [[cause|response] w] eqn:Hfetch;
      simpl; [discriminate|].
    destruct (Response.ok response) eqn:Hok; simpl; [|discriminate].
    destruct (Response.json response) as [cause|data] eqn:Hjson; simpl;
      [discriminate|].
    intros [= <- <-]. by exists response, w, data.
  - intros (response & w & data & Hfetch & Hok & Hjson & -> & ->).
    rewrite Hfetch. simpl. rewrite Hok. simpl. by rewrite Hjson.
Qed.

(** X11. Any failure of the discovery (the request throws, the answer is
    not [ok], the answer does not parse) ends in the same way: the cause is
    handed to [console.error] after the label, and an [Error] whose message
    is [Failed to fetch repositories: ] and the message of the cause is
    thrown.  For an answer that is not [ok] that message gives the status
    and its text. *)
Theorem discovery_failure_is_logged_and_rethrown (st : State) :
  (forall e st',
     fetchBazelContribRepositories st = (inl e, st') ->
     exists cause,
       e = Js.error ("Failed to fetch repositories: " +:+ Js.message cause)
       /\ trace st'
          = trace st
            ++ [Fetch search_url;
                ConsoleErrorWith
                  "Failed to fetch repositories from GitHub API:" cause])
  /\ (forall response w,
      fetch search_url (world st) = (inr response, w) ->
      Response.ok response = false ->
      fst (fetchBazelContribRepositories st)
      = inl (Js.error ("Failed to fetch repositories: "
                       +:+ "GitHub API request failed: "
                       +:+ pretty (Response.status response) +:+ " "
                       +:+ Response.statusText response))).
Proof.
  unfold fetchBazelContribRepositories, try_catch, bind, js_fetch, effect,
    console_error_with, emit, throw.
  split.
  - intros e st'.
    destruct (fetch search_url (world st)) as [[cause|response] w]; simpl.
    + intros [= <- <-]. exists cause. by rewrite <- app_assoc.
    + destruct (Response.ok response); simpl.
      * unfold lift, throw, ret.
        destruct (Response.json response) as [cause|data]; simpl;
          [|discriminate].
        intros [= <- <-]. exists cause. by rewrite <- app_assoc.
      * intros [= <- <-].
        exists (Js.error ("GitHub API request failed: "
                          +:+ pretty (Response.status response) +:+ " "
                          +:+ Response.statusText response)).
        split; [reflexivity|]. by rewrite <- app_assoc.
  - intros response w Hfetch Hok. rewrite Hfetch, Hok. reflexivity.
Qed.

End RunExtras.

(** ** The repositories [getRepositories] returns *)

Lemma set_from_spec (l : list string) : forall seen,
  Js.set_from seen l
  = seen ++ Js.set_from [] (filter (fun x => x ∉ seen) l).
Proof.
  remember (length l) as n eqn:Hn. revert l Hn.
  induction n as [n IH] using lt_wf_ind. intros [|y l] -> seen; simpl.
  - by rewrite app_nil_r.
  - assert (Hl : length l < S (length l)) by lia.
    pose proof (length_filter (fun x => x ∉ seen) l) as Hlen.
    assert (Hf : length (filter (fun x => x ∉ seen) l) < S (length l))
      by lia.
    case_bool_decide as Hy.
    + rewrite filter_cons_False by tauto. exact (IH _ Hl l eq_refl seen).
    + rewrite filter_cons_True by done. simpl.
      rewrite (IH _ Hl l eq_refl (seen ++ [y])).
      rewrite (IH _ Hf (filter (fun x => x ∉ seen) l) eq_refl [y]).
      rewrite <- app_assoc. simpl. do 3 f_equal.
      rewrite list_filter_filter. apply list_filter_iff. intros x.
      rewrite elem_of_app, !list_elem_of_singleton. tauto.
Qed.

Lemma unique_cons (x : string) (l : list string) :
  Js.unique (x :: l) = x :: Js.unique (filter (fun y => y <> x) l).
Proof.
  unfold Js.unique. simpl.
  rewrite set_from_spec. simpl. do 2 f_equal.
  apply list_filter_iff. intros y. by rewrite list_elem_of_singleton.
Qed.

Lemma unique_facts (l : list string) :
  NoDup (Js.unique l)
  /\ (forall x, x ∈ Js.unique l <-> x ∈ l)
  /\ Js.unique l `sublist_of` l.
Proof.
  remember (length l) as n eqn:Hn. revert l Hn.
  induction n as [n IH] using lt_wf_ind. intros [|x l] Hn.
  - split; [constructor|]. split; [done|]. constructor.
  - rewrite unique_cons.
    pose proof (length_filter (fun y => y <> x) l) as Hlen.
    assert (Hf : length (filter (fun y => y <> x) l) < n)
      by (subst n; simpl; lia).
    destruct (IH _ Hf _ eq_refl) as (Hnodup & Helem & Hsub).
    split; [|split].
    + constructor; [|done]. rewrite Helem, list_elem_of_filter. tauto.
    + intros y. rewrite !elem_of_cons, Helem, list_elem_of_filter.
      destruct (decide (y = x)); tauto.
    + constructor. etrans; [exact Hsub|]. apply sublist_filter.
Qed.

Section RepositoriesExtras.
Context `{P : Platform}.

Lemma getRepositories_cases config st :
  getRepositories config st
  = let finish (l : list string) (st' : State) :=
      if bool_decide (length l = 0) then (inl no_repositories, st')
      else (inr (Js.unique l), st') in
    if discovers config then
      match fetchBazelContribRepositories st with
      | (inl e, st') => (inl e, st')
      | (inr dynamicRepos, st') => finish (dynamicRepos ++ listed config) st'
      end
    else finish (listed config) st.
Proof.
  unfold getRepositories, discovers, listed, bind, ret, throw, no_repositories.
  destruct (Config.dynamicRepositories config) as [dynamic|];
    [destruct (DynamicRepositories.enabled dynamic)|];
    try destruct (fetchBazelContribRepositories st) as [[e|dyn] st'];
    try reflexivity;
    destruct (Config.repositories config) as [static|];
    try destruct (StaticRepositories.enabled static);
    simpl; rewrite ?app_nil_r; try case_bool_decide; reflexivity.
Qed.

(** X12. The list [getRepositories] returns has no repository twice and
    is never empty; it holds the repositories discovered, when discovery is
    enabled, and the repositories listed, when the list is enabled, and no
    other; and it keeps them in the order of their first occurrence, the
    discovered ones before the listed ones.  Without discovery the call
    leaves the world and the trace as they were. *)
Theorem getRepositories_sound (config : Config.t) (st st' : State)
    (repositories : list string) :
  getRepositories config st = (inr repositories, st') ->
  exists dynamicRepos,
    (if discovers config
     then fetchBazelContribRepositories st = (inr dynamicRepos, st')
     else dynamicRepos = [] /\ st' = st)
    /\ repositories = Js.unique (dynamicRepos ++ listed config)
    /\ NoDup repositories
    /\ repositories <> []
    /\ (forall repo, repo ∈ repositories
                     <-> repo ∈ dynamicRepos \/ repo ∈ listed config)
    /\ repositories `sublist_of` dynamicRepos ++ listed config.
Proof.
  rewrite getRepositories_cases. cbv zeta.
  assert (Hfinish : forall l,
    (if bool_decide (length l = 0)
     then (inl no_repositories, st') else (inr (Js.unique l), st'))
    = (inr repositories, st') ->
    repositories = Js.unique l /\ NoDup repositories /\ repositories <> []
    /\ (forall repo, repo ∈ repositories <-> repo ∈ l)
    /\ repositories `sublist_of` l).
  { intros l. case_bool_decide as Hlen; [discriminate|]. intros [= <-].
    destruct (unique_facts l) as (Hnodup & Helem & Hsub).
    do 2 (split; [done|]). split; [|done].
    intros Hnil. destruct l as [|x l]; [done|].
    assert (x ∈ Js.unique (x :: l)) as Hx by (apply Helem; left).
    rewrite Hnil in Hx. by apply elem_of_nil in Hx. }
  destruct (discovers config).
  - destruct (fetchBazelContribRepositories st) as [[e|dyn] st1];
      [discriminate|].
    intros Hrun. assert (st1 = st') as ->.
    { by case_bool_decide; injection Hrun. }
    destruct (Hfinish _ Hrun) as (? & ? & ? & Helem & ?).
    exists dyn. do 4 (split; [done|]). split; [|done].
    intros repo. by rewrite Helem, elem_of_app.
  - intros Hrun. assert (st = st') as ->.
    { by case_bool_decide; injection Hrun. }
    destruct (Hfinish _ Hrun) as (? & ? & ? & Helem & ?).
    exists []. do 4 (split; [done|]). split; [|done].
    intros repo. rewrite Helem, elem_of_nil. tauto.
Qed.

(** X13. [getRepositories] fails in two ways.  When discovery is enabled
    and fails, its error is passed on, also when the configuration lists
    repositories of its own: the list is not a fallback.  When neither
    source yields a repository, the error is [No repositories configured],
    and if discovery is not enabled nothing was requested. *)
Theorem getRepositories_failures (config : Config.t) (st : State) :
  (forall e st',
     discovers config = true ->
     fetchBazelContribRepositories st = (inl e, st') ->
     getRepositories config st = (inl e, st'))
  /\ (discovers config = false -> listed config = [] ->
      getRepositories config st = (inl no_repositories, st))
  /\ (forall st',
      discovers config = true -> listed config = [] ->
      fetchBazelContribRepositories st = (inr [], st') ->
      getRepositories config st = (inl no_repositories, st')).
Proof.
  rewrite getRepositories_cases. cbv zeta. split; [|split].
  - by intros e st' -> ->.
  - by intros -> ->.
  - by intros st' -> -> ->.
Qed.

End RepositoriesExtras.

(** ** Prerequisites and counts *)

Lemma filter_sublist_impl {A} (P Q : A -> Prop)
    `{!forall x, Decision (P x), !forall x, Decision (Q x)} (l : list A) :
  (forall x, P x -> Q x) -> filter P l `sublist_of` filter Q l.
Proof.
  intros Himpl. induction l as [|x l IH]; [constructor|].
  destruct (decide (P x)) as [HP|HP].
  - rewrite !filter_cons_True by auto. by constructor.
  - rewrite (filter_cons_False P) by done.
    destruct (decide (Q x)).
    + rewrite filter_cons_True by done. by constructor.
    + by rewrite filter_cons_False.
Qed.

Lemma unmet_app failure allResults more req :
  unmet failure allResults req -> unmet failure (allResults ++ more) req.
Proof.
  rewrite !unmet_first. intros (i & r & Hi & Hans & Hfailed & Hfirst).
  exists i, r. split; [by apply lookup_app_l_Some|]. do 2 (split; [done|]).
  intros j r' Hj Hlt. apply (Hfirst j r'); [|done].
  apply lookup_lt_Some in Hi. by rewrite lookup_app_l in Hj by lia.
Qed.

(** X14. Results that come later cannot clear a prerequisite.  Whatever
    [getFailedRequires] keeps with respect to a list of Results it keeps,
    in the same order, with respect to that list followed by more Results:
    the first answer to an entry stays the first. *)
Theorem getFailedRequires_stable (failure : CheckResult.t)
    (allResults more : list CheckResult.t) :
  getFailedRequires failure allResults
  `sublist_of` getFailedRequires failure (allResults ++ more).
Proof.
  rewrite !getFailedRequires_filter.
  apply filter_sublist_impl. intros req. apply unmet_app.
Qed.

Lemma length_filter_failed (results : list CheckResult.t) :
  length (filter (fun r => CheckResult.passed r = false) results)
  + length (filter (fun r => CheckResult.passed r = true) results)
  = length results.
Proof.
  induction results as [|r results IH]; [reflexivity|].
  destruct (CheckResult.passed r) eqn:Hp.
  - rewrite filter_cons_False, filter_cons_True by congruence. simpl. lia.
  - rewrite filter_cons_True, filter_cons_False by congruence. simpl. lia.
Qed.

(** X15. The two counts of [processResults] add up to the number of
    Results.  The count of failures is zero exactly when every Result
    passed, exactly when nothing is grouped, and exactly when [main] finds
    no failure to report in its exit status. *)
Theorem processResults_counts (results : list CheckResult.t) :
  let grouped := processResults results in
  GroupedResults.failedCount grouped + GroupedResults.passedCount grouped
  = length results
  /\ (GroupedResults.failedCount grouped = 0
      <-> Forall (fun r => CheckResult.passed r = true) results)
  /\ (GroupedResults.failedCount grouped = 0
      <-> GroupedResults.byCheck grouped = [])
  /\ (GroupedResults.failedCount grouped = 0
      <-> existsb (fun result => negb (CheckResult.passed result)) results
          = false).
Proof.
  cbv zeta.
  assert (Hzero : GroupedResults.failedCount (processResults results) = 0
                  <-> Forall (fun r => CheckResult.passed r = true) results).
  { unfold processResults. simpl. rewrite length_zero_iff_nil.
    induction results as [|r results IH]; [by split|].
    rewrite Forall_cons. destruct (CheckResult.passed r) eqn:Hp.
    - rewrite filter_cons_False by congruence. tauto.
    - rewrite filter_cons_True by done. split; [done|]. by intros [? _]. }
  split; [apply length_filter_failed|]. split; [exact Hzero|]. split.
  - rewrite processResults_byCheck.
    destruct (fold_keys results (filter failed results) JsMap.empty)
      as [_ Helem].
    unfold processResults. simpl. rewrite length_zero_iff_nil. split.
    + intros Hnone. change (filter failed results = []) in Hnone.
      by rewrite Hnone.
    + intros Hempty. rewrite Hempty in Helem.
      apply elem_of_nil_inv. intros f Hf.
      apply (elem_of_nil (FileCheck.name (CheckResult.check f))).
      apply Helem. right. by exists f.
  - rewrite Hzero, Forall_forall. split.
    + intros Hall. apply not_true_is_false. intros Hex.
      apply existsb_exists in Hex as (r & Hr%list_elem_of_In & Hneg).
      rewrite (Hall r Hr) in Hneg. discriminate.
    + intros Hnone r Hr. destruct (CheckResult.passed r) eqn:Hp; [done|].
      assert (existsb (fun result => negb (CheckResult.passed result)) results
              = true); [|congruence].
      apply existsb_exists. exists r. rewrite Hp.
      by split; [apply list_elem_of_In|].
Qed.

(** ** Every failure is reported once *)

Lemma map_ext_elem {A B} (f g : A -> B) (l : list A) :
  (forall x, x ∈ l -> f x = g x) -> map f l = map g l.
Proof.
  intros H. apply map_ext_in. intros x Hx. by apply H, list_elem_of_In.
Qed.

(** Sorting the items of a list by key into one bucket per key loses
    nothing and repeats nothing, when the keys are distinct and every item
    has one of them. *)
Lemma partition_by_key {A B K} `{EqDecision K} (k : A -> K) (g : A -> B)
    (ks : list K) :
  NoDup ks ->
  forall l : list A,
    (forall x, x ∈ l -> k x ∈ ks) ->
    concat (map (fun key => g <$> filter (fun x => k x = key) l) ks)
    ≡ₚ g <$> l.
Proof.
  induction 1 as [|key ks Hfresh Hnodup IH]; intros l Hkeys; simpl.
  - rewrite (elem_of_nil_inv l); [done|].
    intros x Hx. by apply Hkeys, elem_of_nil in Hx.
  - trans ((g <$> filter (fun x => k x = key) l)
           ++ (g <$> filter (fun x => k x <> key) l));
      [|by rewrite <- fmap_app, filter_app_complement].
    apply Permutation_app_head.
    rewrite <- (IH (filter (fun x => k x <> key) l)).
    + rewrite (map_ext_elem
                 (fun key0 => g <$> filter (fun x => k x = key0) l)
                 (fun key0 => g <$> filter (fun x => k x = key0)
                                      (filter (fun x => k x <> key) l)));
        [done|].
      intros key' Hkey'. f_equal. symmetry.
      apply list_filter_filter_l. intros x ->. congruence.
    + intros x [Hne Hx]%list_elem_of_filter.
      apply Hkeys, elem_of_cons in Hx as [?|?]; done.
Qed.

Lemma concat_map_Permutation {A B} (f g : A -> list B) (l : list A) :
  (forall x, x ∈ l -> f x ≡ₚ g x) ->
  concat (map f l) ≡ₚ concat (map g l).
Proof.
  induction l as [|x l IH]; intros H; simpl; [done|].
  rewrite (H x) by left. rewrite IH; [done|].
  intros y Hy. apply H. by right.
Qed.

Section Coverage.
Variable results : list CheckResult.t.

Lemma bucket_final n repo :
  bucket (foldl (add_failure results) JsMap.empty (filter failed results))
    n repo
  = processed results <$> filter (filed n repo) (filter failed results).
Proof. by rewrite fold_bucket. Qed.

Lemma report_rows_Permutation :
  report_rows results ≡ₚ processed results <$> filter failed results.
Proof.
  unfold report_rows, report_order. rewrite processResults_byCheck.
  set (failures := filter failed results).
  set (byCheck := foldl (add_failure results) JsMap.empty failures).
  rewrite map_map. simpl.
  destruct (fold_keys results failures JsMap.empty) as [Hnodup Helem].
  fold byCheck in Hnodup, Helem.
  rewrite <- (partition_by_key
                (fun r => FileCheck.name (CheckResult.check r))
                (processed results) (sort (JsMap.keys byCheck))
                (sort_NoDup _ (Hnodup (NoDup_nil_2))) failures).
  2: { intros f Hf. apply sort_elem_of, Helem. right. by exists f. }
  apply concat_map_Permutation. intros n _.
  rewrite map_map. simpl.
  destruct (fold_inner_keys results failures JsMap.empty n)
    as [Hnodup' Helem']. fold byCheck in Hnodup', Helem'.
  rewrite <- (partition_by_key CheckResult.repository (processed results)
                (sort (JsMap.keys (get_or JsMap.empty n byCheck)))
                (sort_NoDup _ (Hnodup' (NoDup_nil_2)))
                (filter (fun r => FileCheck.name (CheckResult.check r) = n)
                   failures)).
  2: { intros f [Hn Hf]%list_elem_of_filter.
       apply sort_elem_of, Helem'. right. by exists f. }
  apply concat_map_Permutation. intros repo _.
  change (get_or [] repo (get_or JsMap.empty n byCheck))
    with (bucket byCheck n repo).
  unfold byCheck, failures. rewrite bucket_final, !list_filter_filter.
  f_equiv. erewrite list_filter_iff; [done|].
  intros r. unfold filed, named. tauto.
Qed.

(** X16. Every failed Result is listed in the report exactly once: the
    failures the report lists, taken together, are the records of the
    failed Results, each as often as it occurs among the Results, and
    there are as many as [failedCount] says. *)
Theorem report_lists_each_failure_once :
  report_rows results ≡ₚ processed results <$> filter failed results
  /\ length (report_rows results)
     = GroupedResults.failedCount (processResults results)
  /\ (forall pf, pf ∈ report_rows results
                 <-> exists r, r ∈ results /\ CheckResult.passed r = false
                               /\ pf = processed results r).
Proof.
  pose proof report_rows_Permutation as Hperm.
  split; [exact Hperm|]. split.
  - rewrite Hperm, length_fmap. reflexivity.
  - intros pf. rewrite Hperm, list_elem_of_fmap.
    setoid_rewrite list_elem_of_filter. unfold failed. naive_solver.
Qed.

(** X17. A prerequisite the report tells to fix first is itself in the
    report: when the failure of a check in a repository is annotated with
    an entry, the check the entry names has a heading in the report and a
    failure listed for the same repository. *)
Theorem fix_first_points_into_the_report (pf : ProcessedFailure.t)
    (req : RequiresEntry.t) :
  pf ∈ report_rows results ->
  req ∈ ProcessedFailure.failedRequires pf ->
  RequiresEntry.check req ∈ map fst (report_order results)
  /\ exists target,
       target ∈ report_rows results
       /\ FileCheck.name (CheckResult.check (ProcessedFailure.failure target))
          = RequiresEntry.check req
       /\ ProcessedFailure.repo target = ProcessedFailure.repo pf.
Proof.
  intros Hpf Hreq. rewrite report_rows_Permutation in Hpf.
  apply list_elem_of_fmap in Hpf as (f & -> & Hf). simpl in Hreq.
  apply getFailedRequires_first in Hreq
    as (_ & i & r & Hi%list_elem_of_lookup_2 & [Hname Hrepo] & Hfailed & _).
  assert (Hr : r ∈ filter failed results) by by apply list_elem_of_filter.
  split.
  - unfold report_order. rewrite processResults_byCheck, map_fst_pair.
    destruct (fold_keys results (filter failed results) JsMap.empty)
      as [_ Helem].
    apply sort_elem_of, Helem. right. by exists r.
  - exists (processed results r). split; [|by split].
    rewrite report_rows_Permutation. by apply list_elem_of_fmap_2.
Qed.

End Coverage.

Lemma pipes_escaped_replaceAll (s rest : string) :
  (forall escaped, pipes_escaped_after escaped rest = true) ->
  forall escaped,
    pipes_escaped_after escaped (Js.replaceAll "|" "\|" s +:+ rest) = true.
Proof.
  intros Hrest. induction s as [|c s IH]; intros escaped; [apply Hrest|].
  simpl. destruct (Ascii.eqb_spec c "|") as [->|Hne].
  - simpl. apply IH.
  - simpl. rewrite (proj2 (Ascii.eqb_neq c "|") Hne). simpl. apply IH.
Qed.

Lemma unescape_pipes_other (c : ascii) (t : string) :
  c <> "\"%char -> unescape_pipes (String c t) = String c (unescape_pipes t).
Proof.
  intros Hc. destruct t as [|d t]; [reflexivity|].
  cbn [unescape_pipes]. by rewrite (proj2 (Ascii.eqb_neq c "\") Hc).
Qed.

Lemma unescape_pipes_ahead (c : ascii) (t : string) :
  no_pipe_ahead t -> unescape_pipes (String c t) = String c (unescape_pipes t).
Proof.
  destruct t as [|d t]; [reflexivity|]. simpl. intros Hd.
  by rewrite (proj2 (Ascii.eqb_neq d "|") Hd), andb_false_r.
Qed.

Lemma no_pipe_ahead_replaceAll (s rest : string) :
  no_pipe_ahead rest -> no_pipe_ahead (Js.replaceAll "|" "\|" s +:+ rest).
Proof.
  intros Hrest. destruct s as [|c s]; [exact Hrest|]. simpl.
  destruct (Ascii.eqb_spec c "|") as [->|Hne]; [discriminate|exact Hne].
Qed.

(** Taking the added [\] out again gives back what was escaped. *)
Lemma unescape_pipes_replaceAll (s rest : string) :
  no_pipe_ahead rest ->
  unescape_pipes (Js.replaceAll "|" "\|" s +:+ rest)
  = s +:+ unescape_pipes rest.
Proof.
  intros Hrest. induction s as [|c s IH]; [reflexivity|].
  cbn [Js.replaceAll]. destruct (Ascii.eqb_spec c "|") as [->|Hne].
  - change (("\|" +:+ Js.replaceAll "|" "\|" s) +:+ rest)
      with (String "\" (String "|" (Js.replaceAll "|" "\|" s +:+ rest))).
    cbn [unescape_pipes Ascii.eqb Bool.eqb andb]. by rewrite IH.
  - change (String c (Js.replaceAll "|" "\|" s) +:+ rest)
      with (String c (Js.replaceAll "|" "\|" s +:+ rest)).
    rewrite unescape_pipes_ahead by by apply no_pipe_ahead_replaceAll.
    by rewrite IH.
Qed.

(** X18. In the status of a pattern that was not found, every [|] stands
    right after a [\] that [getFailureStatus] put there, and nothing of the
    pattern is lost: taking those [\] out again gives the message with the
    pattern as it is configured. *)
Theorem unmatched_pattern_status_has_no_bare_pipe (failure : CheckResult.t) :
  Js.truthy_opt (CheckResult.error failure) = false ->
  let message := FailureStatus.message (getFailureStatus failure) in
  pipes_escaped message
  /\ unescape_pipes message
     = "Pattern `" +:+ FileCheck.pattern (CheckResult.check failure)
       +:+ "` not found".
Proof.
  intros Hfalsy. cbv zeta.
  assert (Hmessage :
    FailureStatus.message (getFailureStatus failure)
    = "Pattern `"
      +:+ (Js.replaceAll "|" "\|"
             (FileCheck.pattern (CheckResult.check failure))
           +:+ "` not found")).
  { unfold getFailureStatus.
    destruct (CheckResult.error failure) as [error|]; [|reflexivity].
    simpl in Hfalsy. by rewrite Hfalsy. }
  rewrite Hmessage. split.
  - unfold pipes_escaped.
    change (pipes_escaped_after false
              (Js.replaceAll "|" "\|"
                 (FileCheck.pattern (CheckResult.check failure))
               +:+ "` not found") = true).
    apply (pipes_escaped_replaceAll _ "` not found"). by intros [].
  - change ("Pattern `" +:+ ?x)
      with (String "P" (String "a" (String "t" (String "t" (String "e"
             (String "r" (String "n" (String " " (String "`" x))))))))).
    rewrite !unescape_pipes_other by discriminate.
    by rewrite unescape_pipes_replaceAll by discriminate.
Qed.

(** ** The exit status of [main] *)

Section MainExtras.
Context `{P : Platform}.

(** [main] once the configuration and the repositories are there. *)
Lemma main_from_repositories argv2 st config st0 repositories st1 :
  loadConfig "config.json" st = (inr config, st0) ->
  getRepositories config st0 = (inr repositories, st1) ->
  main argv2 st
  = if Js.truthy_opt argv2
       && bool_decide (length (selected argv2 config) = 0) then
      (1, mkState (world st1)
            (trace st1
             ++ [ConsoleError ("Error: No check found with name '"
                               +:+ default EmptyString argv2 +:+ "'")]))
    else
      match checkAllRepositories repositories (selected argv2 config) st1 with
      | (inl e, st2) =>
          (1, mkState (world st2)
                (trace st2 ++ [ConsoleError ("Error: " +:+ Js.message e)]))
      | (inr results, st2) =>
          match writeFile REPORT_FILE (world st2) with
          | (inl e, w) =>
              (1, mkState w
                    ((trace st2 ++ [WriteFile REPORT_FILE])
                     ++ [ConsoleError ("Error: " +:+ Js.message e)]))
          | (inr _, w) =>
              (if hasFailures results then 1 else 0,
               mkState w (trace st2 ++ [WriteFile REPORT_FILE]))
          end
      end.
Proof.
  intros Hload Hrepos.
  assert (Hrun : forall checks,
    match
      (let* results := checkAllRepositories repositories checks in
       effect (WriteFile REPORT_FILE) (writeFile REPORT_FILE) ;;
       ret (if existsb (fun result => negb (CheckResult.passed result))
                 results then 1 else 0)) st1
    with
    | (inr code, st') => (code, st')
    | (inl error, st') =>
        (1, snd (console_error ("Error: " +:+ Js.message error) st'))
    end
    = match checkAllRepositories repositories checks st1 with
      | (inl e, st2) =>
          (1, mkState (world st2)
                (trace st2 ++ [ConsoleError ("Error: " +:+ Js.message e)]))
      | (inr results, st2) =>
          match writeFile REPORT_FILE (world st2) with
          | (inl e, w) =>
              (1, mkState w
                    ((trace st2 ++ [WriteFile REPORT_FILE])
                     ++ [ConsoleError ("Error: " +:+ Js.message e)]))
          | (inr _, w) =>
              (if hasFailures results then 1 else 0,
               mkState w (trace st2 ++ [WriteFile REPORT_FILE]))
          end
      end).
  { intros checks. unfold bind, effect, ret, hasFailures.
    destruct (checkAllRepositories repositories checks st1)
      as [[e|results] st2]; [reflexivity|].
    by destruct (writeFile REPORT_FILE (world st2)) as [[e|[]] w]. }
  unfold main, main_try. unfold bind at 1. rewrite Hload.
  unfold bind at 1. rewrite Hrepos.
  destruct argv2 as [checkName|]; simpl; [|apply Hrun].
  destruct (Js.truthy checkName); simpl; [|apply Hrun].
  case_bool_decide; [reflexivity|apply Hrun].
Qed.

(** X19. When the configuration cannot be read, the run ends at once
    with status 1: it prints that the configuration failed to load, with
    the cause, and requests nothing. *)
Theorem unreadable_config_ends_the_run (argv2 : option string) (st : State)
    (e : Js.Error) (w : World) :
  readConfig "config.json" (world st) = (inl e, w) ->
  main argv2 st
  = (1, mkState w
          (trace st
           ++ [ReadFile "config.json";
               ConsoleError ("Error: Failed to load config from config.json: "
                             +:+ Js.toString e)])).
Proof.
  intros Hread. unfold main, main_try. unfold bind at 1.
  unfold loadConfig, try_catch, effect. rewrite Hread. simpl.
  by rewrite <- app_assoc.
Qed.

Lemma loadConfig_success configPath st config st0 :
  loadConfig configPath st = (inr config, st0) ->
  readConfig configPath (world st) = (inr config, world st0)
  /\ trace st0 = trace st ++ [ReadFile configPath].
Proof.
  unfold loadConfig, try_catch, effect, throw.
  destruct (readConfig configPath (world st)) as [[e|c] w]; [discriminate|].
  by intros [= <- <-].
Qed.

Lemma main_without_repositories argv2 st :
  (forall e st0, loadConfig "config.json" st = (inl e, st0) ->
     fst (main argv2 st) = 1)
  /\ (forall config st0 e st1,
      loadConfig "config.json" st = (inr config, st0) ->
      getRepositories config st0 = (inl e, st1) ->
      fst (main argv2 st) = 1).
Proof.
  split.
  - intros e st0 Hload. unfold main, main_try. unfold bind at 1.
    by rewrite Hload.
  - intros config st0 e st1 Hload Hrepos. unfold main, main_try.
    unfold bind at 1. rewrite Hload. unfold bind at 1. by rewrite Hrepos.
Qed.

(** X20. A run that ends with status 0 was a complete and clean one: the
    configuration was read, the repositories were obtained, every check
    selected was evaluated on every repository, every Result passed, and
    the report was written as the last thing the run did.  The status of a
    run is never anything but 0 or 1. *)
Theorem exit_zero_means_all_passed (argv2 : option string) (st : State) :
  (fst (main argv2 st) = 0 \/ fst (main argv2 st) = 1)
  /\ (fst (main argv2 st) = 0 ->
      exists config st0 repositories st1 results st2,
        loadConfig "config.json" st = (inr config, st0)
        /\ getRepositories config st0 = (inr repositories, st1)
        /\ checkAllRepositories repositories (selected argv2 config) st1
           = (inr results, st2)
        /\ Forall (fun r => CheckResult.passed r = true) results
        /\ trace (snd (main argv2 st))
           = trace st2 ++ [WriteFile REPORT_FILE]).
Proof.
  destruct (main_without_repositories argv2 st) as [Hnoload Hnorepos].
  destruct (loadConfig "config.json" st) as [[e|config] st0] eqn:Hload.
  { rewrite (Hnoload _ _ eq_refl). split; [by right|discriminate]. }
  destruct (getRepositories config st0) as [[e|repositories] st1] eqn:Hrepos.
  { rewrite (Hnorepos _ _ _ _ eq_refl Hrepos).
    split; [by right|discriminate]. }
  clear Hnoload Hnorepos.
  rewrite (main_from_repositories _ _ _ _ _ _ Hload Hrepos).
  destruct (Js.truthy_opt argv2 && _); simpl; [split; [by right|done]|].
  destruct (checkAllRepositories repositories (selected argv2 config) st1)
    as [[e|results] st2] eqn:Hrun; simpl; [split; [by right|done]|].
  destruct (writeFile REPORT_FILE (world st2)) as [[e|[]] w]; simpl;
    [split; [by right|done]|].
  destruct (hasFailures results) eqn:Hfail; simpl; [split; [by right|done]|].
  split; [by left|]. intros _.
  exists config, st0, repositories, st1, results, st2.
  do 3 (split; [done|]). split; [|done].
  apply Forall_forall. intros r Hr.
  destruct (CheckResult.passed r) eqn:Hp; [done|].
  assert (hasFailures results = true); [|congruence].
  apply existsb_exists. exists r. rewrite Hp.
  by split; [apply list_elem_of_In|].
Qed.

(** X21. Once the configuration is read and the repositories are
    obtained, the status of a run without argument is decided by the
    Results and by the writing of the report: 1 when some Result failed, 1
    when the report could not be written even though every Result passed,
    and 0 otherwise. *)
Theorem exit_status_reports_failures (st : State) config st0 repositories st1
    results st2 :
  loadConfig "config.json" st = (inr config, st0) ->
  getRepositories config st0 = (inr repositories, st1) ->
  checkAllRepositories repositories (Config.checks config) st1
  = (inr results, st2) ->
  (forall r, r ∈ results -> CheckResult.passed r = false ->
     fst (main None st) = 1)
  /\ (forall e w, writeFile REPORT_FILE (world st2) = (inl e, w) ->
      fst (main None st) = 1)
  /\ (forall w, writeFile REPORT_FILE (world st2) = (inr tt, w) ->
      Forall (fun r => CheckResult.passed r = true) results ->
      fst (main None st) = 0).
Proof.
  intros Hload Hrepos Hrun.
  rewrite (main_from_repositories _ _ _ _ _ _ Hload Hrepos). simpl.
  rewrite Hrun. split; [|split].
  - intros r Hr Hp.
    assert (hasFailures results = true) as Hfail.
    { apply existsb_exists. exists r. rewrite Hp.
      by split; [apply list_elem_of_In|]. }
    destruct (writeFile REPORT_FILE (world st2)) as [[e|[]] w]; simpl;
      by rewrite ?Hfail.
  - by intros e w ->.
  - intros w -> Hall. simpl.
    assert (hasFailures results = false) as ->; [|done].
    apply not_true_is_false. intros Hex.
    apply existsb_exists in Hex as (r & Hr%list_elem_of_In & Hneg).
    rewrite Forall_forall in Hall. rewrite (Hall r Hr) in Hneg. discriminate.
Qed.

(** X24. A run started with the name of a check requests the files of
    checks of that name only: once the configuration is read and the
    repositories are obtained, every request the run still sends is for the
    file of a check of the configuration that has the name given and does
    not exclude the repository, from [main] or [master] of a repository of
    the list. *)
Theorem named_run_requests_named_checks (checkName : string) (st : State)
    config st0 repositories st1 :
  Js.truthy checkName = true ->
  loadConfig "config.json" st = (inr config, st0) ->
  getRepositories config st0 = (inr repositories, st1) ->
  exists evs,
    trace (snd (main (Some checkName) st)) = trace st1 ++ evs
    /\ Forall (fun ev =>
                 is_fetch ev ->
                 exists repo check,
                   repo ∈ repositories
                   /\ check ∈ Config.checks config
                   /\ FileCheck.name check = checkName
                   /\ excluded check repo = false
                   /\ requests_file repo (FileCheck.file check) ev)
              evs.
Proof.
  intros Htruthy Hload Hrepos.
  rewrite (main_from_repositories _ _ _ _ _ _ Hload Hrepos).
  assert (Herr : forall text (Q : Prop), is_fetch (ConsoleError text) -> Q).
  { intros text Q [url Hurl]. discriminate Hurl. }
  assert (Hwrite : forall path (Q : Prop), is_fetch (WriteFile path) -> Q).
  { intros path Q [url Hurl]. discriminate Hurl. }
  destruct (Js.truthy_opt (Some checkName)
            && bool_decide (length (selected (Some checkName) config) = 0)).
  { eexists. split; [reflexivity|].
    repeat constructor. apply Herr. }
  destruct (checkAllRepositories_loop_trace repositories
              (selected (Some checkName) config) [] st1)
    as (rs & w & evs & Hrun & _ & Hevs).
  rewrite app_nil_l in Hrun. unfold checkAllRepositories. rewrite Hrun.
  assert (Hnamed : Forall (fun ev =>
                 is_fetch ev ->
                 exists repo check,
                   repo ∈ repositories
                   /\ check ∈ Config.checks config
                   /\ FileCheck.name check = checkName
                   /\ excluded check repo = false
                   /\ requests_file repo (FileCheck.file check) ev) evs).
  { eapply Forall_impl; [exact Hevs|].
    intros ev (repo & Hrepo & check & Hcheck & Hev) _.
    unfold not_excluded, selected in Hcheck. rewrite Htruthy in Hcheck.
    apply list_elem_of_filter in Hcheck as [Hex Hcheck].
    apply list_elem_of_filter in Hcheck as [Hname Hcheck].
    by exists repo, check. }
  simpl.
  destruct (writeFile REPORT_FILE w) as [[e|u] w']; simpl.
  - exists (evs ++ [WriteFile REPORT_FILE;
                    ConsoleError ("Error: " +:+ Js.message e)]).
    split; [by rewrite <- !app_assoc|].
    apply Forall_app. split; [done|].
    repeat constructor; [apply Hwrite|apply Herr].
  - exists (evs ++ [WriteFile REPORT_FILE]).
    split; [by rewrite <- !app_assoc|].
    apply Forall_app. split; [done|].
    repeat constructor. apply Hwrite.
Qed.

End MainExtras.

(** ** The rendered report *)

Lemma head_filter_refine {A K} `{EqDecision K} (P : A -> Prop)
    `{!forall x, Decision (P x)} (k : A -> K) (l : list A) (x : A) :
  head (filter P l) = Some x ->
  head (filter (fun y => P y /\ k y = k x) l) = Some x.
Proof.
  induction l as [|y l IH]; [done|].
  destruct (decide (P y)) as [Hy|Hy].
  - rewrite filter_cons_True by done. intros [= ->].
    by rewrite filter_cons_True.
  - rewrite !filter_cons_False by tauto. exact IH.
Qed.

Section First.
Variable results : list CheckResult.t.

(** The first repository recorded under a check name is that of the first
    failure of that name. *)
Lemma fold_first_repository failures : forall byCheck n,
  head (JsMap.keys (get_or JsMap.empty n
                      (foldl (add_failure results) byCheck failures)))
  = match head (JsMap.keys (get_or JsMap.empty n byCheck)) with
    | Some repo => Some repo
    | None => CheckResult.repository <$> head (filter (named n) failures)
    end.
Proof.
  induction failures as [|f failures IH]; intros byCheck n; simpl.
  - by destruct (head _).
  - rewrite IH, inner_add. unfold named at 2.
    destruct (decide (FileCheck.name (CheckResult.check f) = n)) as [Hn|Hn].
    + rewrite bool_decide_eq_true_2, filter_cons_True by done.
      rewrite keys_set.
      destruct (JsMap.has _ _) eqn:Hhas.
      * apply has_keys in Hhas.
        destruct (JsMap.keys (get_or JsMap.empty n byCheck));
          [by apply elem_of_nil in Hhas|done].
      * by destruct (JsMap.keys (get_or JsMap.empty n byCheck)).
    + rewrite bool_decide_eq_false_2, filter_cons_False by done.
      reflexivity.
Qed.

Lemma get_key {V} (k : string) (m : JsMap.t V) :
  k ∈ JsMap.keys m -> exists v, JsMap.get k m = Some v.
Proof.
  intros Hk%has_keys. unfold JsMap.has in Hk.
  destruct (JsMap.get k m) as [v|]; [by exists v|discriminate].
Qed.

Variable reference_example : FileCheck.t -> option string.

Lemma referenceExample_of_first n f0 :
  head (filter (named n) (filter failed results)) = Some f0 ->
  referenceExample_of reference_example
    (get_or JsMap.empty n
       (foldl (add_failure results) JsMap.empty (filter failed results)))
  = inr (reference_example (CheckResult.check f0)).
Proof.
  intros Hfirst. unfold referenceExample_of.
  set (failures := filter failed results) in *.
  set (byCheck := foldl (add_failure results) JsMap.empty failures).
  pose proof (fold_first_repository failures JsMap.empty n) as Hhead.
  fold byCheck in Hhead. rewrite Hfirst in Hhead. simpl in Hhead.
  destruct (JsMap.keys (get_or JsMap.empty n byCheck))
    as [|firstRepo keys] eqn:Hkeys; [discriminate|].
  injection Hhead as ->.
  destruct (get_key (CheckResult.repository f0)
              (get_or JsMap.empty n byCheck)) as [bucket0 Hget].
  { rewrite Hkeys. left. }
  rewrite Hget.
  assert (Hbucket : bucket byCheck n (CheckResult.repository f0) = bucket0).
  { unfold bucket, get_or at 1. by rewrite Hget. }
  unfold byCheck in Hbucket. rewrite fold_bucket in Hbucket. simpl in Hbucket.
  apply (head_filter_refine _ CheckResult.repository) in Hfirst.
  unfold filed in Hbucket.
  destruct (filter _ failures) as [|f1 rest]; [discriminate|].
  injection Hfirst as ->. by rewrite <- Hbucket.
Qed.

End First.

Section RenderingFacts.
Variable reference_example : FileCheck.t -> option string.

Lemma named_has_first (results : list CheckResult.t) n :
  n ∈ JsMap.keys (foldl (add_failure results) JsMap.empty
                    (filter failed results)) ->
  exists f0, head (filter (named n) (filter failed results)) = Some f0.
Proof.
  intros Hn.
  destruct (fold_keys results (filter failed results) JsMap.empty)
    as [_ Helem].
  apply Helem in Hn as [Hn|(f & Hf & Hnamed)]; [by apply elem_of_nil in Hn|].
  assert (Hin : f ∈ filter (named n) (filter failed results))
    by by apply list_elem_of_filter.
  destruct (filter (named n) (filter failed results)) as [|f0 rest];
    [by apply elem_of_nil in Hin|by exists f0].
Qed.

(** X22. Every row of the section of a check name shows the reference
    example of one check: the check of the first failed Result of that
    name, in the order of the Results.  When several checks share the
    name, the rows of the others show it too. *)
Theorem section_reference_is_of_first_failure
    (results : list CheckResult.t) (n : string) (f0 : CheckResult.t) :
  head (filter (named n) (filter failed results)) = Some f0 ->
  let byCheck := GroupedResults.byCheck (processResults results) in
  let repoMap := get_or JsMap.empty n byCheck in
  section_lines reference_example byCheck n
  = inr (["### üîç " +:+ n; EmptyString;
          "| Repository | File | Status | Reference |";
          "|------------|------|--------|-----------|"]
         ++ concat (map (fun repo =>
                           map (table_row repo
                                  (reference_example (CheckResult.check f0)))
                               (get_or [] repo repoMap))
                        (sort (JsMap.keys repoMap)))
         ++ [EmptyString]).
Proof.
  intros Hfirst. cbv zeta. rewrite processResults_byCheck.
  unfold section_lines.
  by rewrite (referenceExample_of_first _ _ _ _ Hfirst).
Qed.

Lemma sections_lines_return (results : list CheckResult.t) names :
  Forall (fun n => n ∈ JsMap.keys (foldl (add_failure results) JsMap.empty
                                     (filter failed results))) names ->
  exists lines,
    sections_lines reference_example
      (foldl (add_failure results) JsMap.empty (filter failed results)) names
    = inr lines.
Proof.
  induction 1 as [|n names Hn _ [more IH]]; simpl; [by eexists|].
  destruct (named_has_first _ _ Hn) as [f0 Hfirst].
  unfold section_lines.
  rewrite (referenceExample_of_first _ _ _ _ Hfirst), IH. by eexists.
Qed.

(** X23. [generateMarkdownReport] returns a text for every list of
    Results: the first failure it looks up in each section is always there.
    When every Result passed the text is the title, the time and the line
    that all checks passed, and [reportResults] prints that one line. *)
Theorem markdown_report_is_always_produced (now : string)
    (results : list CheckResult.t) :
  (exists text, generateMarkdownReport reference_example now results = inr text)
  /\ (Forall (fun r => CheckResult.passed r = true) results ->
      generateMarkdownReport reference_example now results
      = inr (join_with LF
               ["# Rules Doctor Report"; EmptyString; "Generated: " +:+ now;
                EmptyString; "## ‚úÖ All checks passed!"])
      /\ reportResults results = ["‚úÖ All checks passed!"]).
Proof.
  split.
  - unfold generateMarkdownReport. cbv zeta.
    case_bool_decide; [by eexists|].
    rewrite processResults_byCheck.
    destruct (sections_lines_return results
                (sort (JsMap.keys (foldl (add_failure results) JsMap.empty
                                     (filter failed results)))))
      as [lines Hlines].
    + apply Forall_forall. intros n Hn.
      exact (proj1 (sort_elem_of _ _) Hn).
    + rewrite Hlines. by eexists.
  - intros Hall.
    assert (Hzero : GroupedResults.failedCount (processResults results) = 0).
    { unfold processResults. simpl. apply length_zero_iff_nil.
      induction Hall as [|r results Hr _ IH]; [reflexivity|].
      by rewrite filter_cons_False by congruence. }
    unfold generateMarkdownReport, reportResults. cbv zeta.
    by rewrite bool_decide_eq_true_2.
Qed.

End RenderingFacts.

(** ** The order of the report *)

(** Lists of pairs that agree on their first components, and whose second
    components are settled by the first, are equal. *)
Lemma keyed_unique {A B} (Q : A * B -> Prop) (l1 l2 : list (A * B)) :
  (forall x y, Q x -> Q y -> fst x = fst y -> x = y) ->
  map fst l1 = map fst l2 -> Forall Q l1 -> Forall Q l2 -> l1 = l2.
Proof.
  intros Hq. revert l2.
  induction l1 as [|x l1 IH]; intros [|y l2]; simpl; try done.
  intros [= Hxy Hrest] [Hx H1]%Forall_cons [Hy H2]%Forall_cons.
  f_equal; auto.
Qed.

Lemma sorted_keys_unique (l1 l2 : list string) :
  StronglySorted str_le l1 -> NoDup l1 ->
  StronglySorted str_le l2 -> NoDup l2 ->
  (forall k, k ∈ l1 <-> k ∈ l2) -> l1 = l2.
Proof.
  intros Hs1 Hn1 Hs2 Hn2 Hsame.
  apply (StronglySorted_unique str_le); [done..|].
  by apply NoDup_Permutation.
Qed.

Lemma report_ordered_unique (results : list CheckResult.t) groups groups' :
  report_ordered results groups -> report_ordered results groups' ->
  groups' = groups.
Proof.
  intros (Hs & Hn & He & Hg) (Hs' & Hn' & He' & Hg').
  eapply keyed_unique; [| |exact Hg'|exact Hg].
  - intros [n entries] [n' entries'] (Hs1 & Hn1 & He1 & Hb1)
      (Hs2 & Hn2 & He2 & Hb2). simpl in *. intros <-. f_equal.
    eapply keyed_unique; [| |exact Hb1|exact Hb2].
    + intros [repo b] [repo' b']. simpl. by intros -> -> <-.
    + apply sorted_keys_unique; try done.
      intros repo. by rewrite He1, He2.
  - apply sorted_keys_unique; try done.
    intros n. by rewrite He, He'.
Qed.

Lemma report_order_ordered (results : list CheckResult.t) :
  report_ordered results (report_order results).
Proof.
  unfold report_ordered, report_order. cbv zeta.
  rewrite processResults_byCheck.
  set (byCheck := foldl (add_failure results) JsMap.empty
                    (filter failed results)).
  rewrite map_fst_pair.
  destruct (fold_keys results (filter failed results) JsMap.empty)
    as [Hnodup Helem]. fold byCheck in Hnodup, Helem.
  split; [apply sort_sorted|].
  split; [apply sort_NoDup, Hnodup, NoDup_nil_2|].
  split.
  { intros n. rewrite sort_elem_of, Helem, failed_elem_of.
    unfold JsMap.keys, JsMap.empty. simpl. rewrite elem_of_nil. tauto. }
  apply Forall_forall. intros group Hgroup.
  apply list_elem_of_In, in_map_iff in Hgroup as (n & <- & _). simpl.
  rewrite map_fst_pair.
  destruct (fold_inner_keys results (filter failed results) JsMap.empty n)
    as [Hnodup' Helem']. fold byCheck in Hnodup', Helem'.
  split; [apply sort_sorted|].
  split; [apply sort_NoDup, Hnodup', NoDup_nil_2|].
  split.
  { intros repo. rewrite sort_elem_of, Helem', failed_elem_of.
    unfold get_or, JsMap.keys, JsMap.empty. simpl. rewrite elem_of_nil.
    tauto. }
  apply Forall_forall. intros entry Hentry.
  apply list_elem_of_In, in_map_iff in Hentry as (repo & <- & _). simpl.
  change (get_or [] repo (get_or JsMap.empty n byCheck))
    with (bucket byCheck n repo).
  unfold byCheck. rewrite fold_bucket, list_filter_filter. reflexivity.
Qed.

Section EmittedOrder.
Variable reference_example : FileCheck.t -> option string.
Variable results : list CheckResult.t.

(** The group of the traversal for a check name. *)
Let group_of (checkName : string) :=
  let byCheck := GroupedResults.byCheck (processResults results) in
  let repoMap := get_or JsMap.empty checkName byCheck in
  (checkName,
   map (fun repo => (repo, get_or [] repo repoMap))
       (sort (JsMap.keys repoMap))).

Lemma report_order_groups :
  report_order results
  = map group_of
      (sort (JsMap.keys (GroupedResults.byCheck (processResults results)))).
Proof. reflexivity. Qed.

Lemma section_lines_group n :
  n ∈ JsMap.keys (GroupedResults.byCheck (processResults results)) ->
  section_lines reference_example
    (GroupedResults.byCheck (processResults results)) n
  = inr (markdown_group (section_reference reference_example results n)
           (group_of n)).
Proof.
  rewrite processResults_byCheck. intros Hn.
  destruct (named_has_first _ _ Hn) as [f0 Hfirst].
  unfold section_lines.
  rewrite (referenceExample_of_first _ _ _ _ Hfirst).
  unfold markdown_group, section_reference, group_of.
  rewrite Hfirst, processResults_byCheck. simpl. by rewrite map_map.
Qed.

Lemma sections_lines_groups names :
  Forall (fun n => n ∈ JsMap.keys
                         (GroupedResults.byCheck (processResults results)))
         names ->
  sections_lines reference_example
    (GroupedResults.byCheck (processResults results)) names
  = inr (concat (map (fun group =>
                        markdown_group
                          (section_reference reference_example results
                             (fst group)) group)
                     (map group_of names))).
Proof.
  induction 1 as [|n names Hn _ IH]; [reflexivity|].
  cbn [sections_lines map].
  by rewrite (section_lines_group n Hn), IH.
Qed.

Lemma reportResults_groups :
  GroupedResults.failedCount (processResults results) <> 0 ->
  reportResults results
  = console_preamble results
    :: concat (map console_group (report_order results)).
Proof.
  intros Hfailed. unfold reportResults. cbv zeta.
  rewrite bool_decide_eq_false_2 by done.
  rewrite report_order_groups, map_map. simpl. f_equal. f_equal.
  apply map_ext. intros n. unfold console_group, group_of. simpl.
  by rewrite map_map.
Qed.

Lemma generateMarkdownReport_groups now :
  GroupedResults.failedCount (processResults results) <> 0 ->
  generateMarkdownReport reference_example now results
  = inr (join_with LF
           (markdown_preamble now results
            ++ concat (map (fun group =>
                              markdown_group
                                (section_reference reference_example results
                                   (fst group)) group)
                           (report_order results)))).
Proof.
  intros Hfailed. unfold generateMarkdownReport. cbv zeta.
  rewrite bool_decide_eq_false_2 by done.
  rewrite sections_lines_groups.
  - by rewrite report_order_groups.
  - apply Forall_forall. intros n Hn.
    exact (proj1 (sort_elem_of _ _) Hn).
Qed.

End EmittedOrder.

(** C7. The report is ordered.  The grouped output is what the
    specification asks for: the check names come in lexicographic order,
    each once, and they are the names of the checks of the failed Results;
    under a check name the repositories come in lexicographic order, each
    once, and they are those of the failed Results of that name; under a
    repository the failures are those of the failed Results of that name
    and repository, in the order of the Results.  That settles the grouped
    output: there is no other with these properties, so that equal Results
    give an equal report.  And it is in this order that the report is
    emitted: when some Result failed, the lines of the Markdown report
    after its preamble, and the lines printed to the console after the
    first, are those of the groups, one group after the other. *)
Theorem report_order_sorted
    (reference_example : FileCheck.t -> option string) (now : string)
    (results : list CheckResult.t) :
  let groups := report_order results in
  report_ordered results groups
  /\ (forall groups', report_ordered results groups' -> groups' = groups)
  /\ (GroupedResults.failedCount (processResults results) <> 0 ->
      generateMarkdownReport reference_example now results
      = inr (join_with LF
               (markdown_preamble now results
                ++ concat (map (fun group =>
                                  markdown_group
                                    (section_reference reference_example
                                       results (fst group)) group)
                               groups)))
      /\ reportResults results
         = console_preamble results :: concat (map console_group groups)).
Proof.
  cbv zeta. pose proof (report_order_ordered results) as Hordered.
  split; [exact Hordered|]. split.
  - intros groups' Hordered'.
    exact (report_ordered_unique results _ _ Hordered Hordered').
  - intros Hfailed.
    split; [by apply generateMarkdownReport_groups
           |by apply reportResults_groups].
Qed.

(** ** More runs on concrete inputs *)

Section MoreScenarios.
Import Demo Scenario Fallback.

#[local] Existing Instance Demo.platform.

Example fallback_to_master :
  checkRepository "acme/legacy" [license_apache] (start legacy)
  = (inr [result_of "acme/legacy" license_apache true None],
     mkState legacy [Fetch (license_url "acme/legacy" "main");
                     Fetch (license_url "acme/legacy" "master")]).
Proof. vm_compute. reflexivity. Qed.

Example exit_zero_run :
  main None (start (acme_with passing))
  = (0, mkState (acme_with passing)
          [ReadFile "config.json"; Fetch (license_url "acme/widgets" "main");
           WriteFile "report.md"]).
Proof. vm_compute. reflexivity. Qed.

Example exit_one_run :
  fst (main None (start (acme_with listing_widgets))) = 1.
Proof. vm_compute. reflexivity. Qed.

Example named_check_run :
  main (Some "has-license") (start (acme_with listing_widgets))
  = (0, mkState (acme_with listing_widgets)
          [ReadFile "config.json"; Fetch (license_url "acme/widgets" "main");
           WriteFile "report.md"]).
Proof. vm_compute. reflexivity. Qed.

Lemma malformed_repository_path_is_refused_witness :
  checkRepository "acme" [has_license; no_todo] (start acme)
  = (inr (failing_result "acme" (invalid_repository_format "acme")
            <$> not_excluded "acme" [has_license; no_todo]), start acme).
Proof.
  apply (malformed_repository_path_is_refused "acme").
  intros owner repoName Hform%owner_and_repo_form.
  vm_compute in Hform. discriminate.
Defined.

Lemma extra_path_segments_are_ignored_witness :
  fetchFileContent "acme/widgets/tree/main" "LICENSE" (start acme)
  = fetchFileContent "acme/widgets" "LICENSE" (start acme).
Proof.
  apply (extra_path_segments_are_ignored "acme/widgets/tree/main"
           "acme" "widgets").
  apply owner_and_repo_form. vm_compute. reflexivity.
Defined.

Lemma master_is_requested_iff_main_not_ok_witness :
  exists r w evs,
    fetchFileContent "acme/empty" "LICENSE" (start acme)
    = (r, mkState w (trace (start acme) ++ evs))
    /\ (Fetch (raw_url "acme" "empty" "master" "LICENSE") ∈ evs
        <-> exists response w1,
              fetch (raw_url "acme" "empty" "main" "LICENSE")
                (world (start acme)) = (inr response, w1)
              /\ Response.ok response = false).
Proof.
  apply (master_is_requested_iff_main_not_ok "acme/empty" "acme" "empty"
           "LICENSE" (start acme)).
  vm_compute. reflexivity.
Defined.

Lemma fallback_content_is_evaluated_witness :
  exists r st',
    evaluate "acme/legacy" license_apache (start legacy) = (inr r, st')
    /\ CheckResult.passed r = true
    /\ CheckResult.error r = None
    /\ world st' = legacy.
Proof.
  apply (fallback_content_is_evaluated "acme/legacy" "acme" "legacy"
           license_apache (start legacy) missing legacy
           (found "Apache License") legacy "Apache License" true);
    vm_compute; reflexivity.
Defined.

Lemma fetch_errors_are_wrapped_witness :
  Js.name (failed_to_fetch "LICENSE" (Js.error "File not found: LICENSE"))
  = "Error"
  /\ (failed_to_fetch "LICENSE" (Js.error "File not found: LICENSE")
      = invalid_repository_format "acme/empty"
      \/ exists cause,
           Js.message
             (failed_to_fetch "LICENSE" (Js.error "File not found: LICENSE"))
           = "Failed to fetch " +:+ "LICENSE" +:+ ": " +:+ Js.toString cause).
Proof.
  apply (fetch_errors_are_wrapped (P:=Demo.platform) "acme/empty" "LICENSE"
           (start acme)
           (@mkState Demo.platform acme
              [Fetch (license_url "acme/empty" "main");
               Fetch (license_url "acme/empty" "master")])).
  vm_compute. reflexivity.
Defined.

Lemma bang_inverts_once_witness :
  runCheck "TODO: write me" (with_pattern no_todo ("!" +:+ "TODO"))
  = inverted (runCheck "TODO: write me" (with_pattern no_todo "TODO")).
Proof.
  apply (proj1 (bang_inverts_once "TODO: write me" "TODO" no_todo)).
  reflexivity.
Defined.

Lemma discovery_lists_full_names_witness :
  fetchBazelContribRepositories (start acme)
  = (inr ["acme/widgets"], mkState acme [Fetch search_url]).
Proof.
  apply (proj2 (discovery_lists_full_names (start acme)
                  (@mkState platform acme [Fetch search_url])
                  ["acme/widgets"])).
  exists (listing ["acme/widgets"]), acme,
    (GitHubSearchResponse.mk
       [GitHubRepository.mk "acme/widgets" ["aspect-build"]] 1).
  repeat split; vm_compute; reflexivity.
Defined.

Lemma discovery_failure_is_logged_and_rethrown_witness :
  fst (fetchBazelContribRepositories (start rate_limited))
  = inl (Js.error ("Failed to fetch repositories: "
                   +:+ "GitHub API request failed: "
                   +:+ pretty 403%N +:+ " " +:+ "Forbidden")).
Proof.
  apply (proj2 (discovery_failure_is_logged_and_rethrown (start rate_limited))
           (Response.mk false 403 "Forbidden" (inr "{}")
              (inl (Js.mkError "SyntaxError" "Unexpected token in JSON")))
           rate_limited);
    vm_compute; reflexivity.
Defined.

Lemma getRepositories_sound_witness :
  exists dynamicRepos,
    (if discovers passing
     then fetchBazelContribRepositories (start (acme_with passing))
          = (inr dynamicRepos, start (acme_with passing))
     else dynamicRepos = [] /\ start (acme_with passing)
                               = start (acme_with passing))
    /\ ["acme/widgets"] = Js.unique (dynamicRepos ++ listed passing)
    /\ NoDup ["acme/widgets"]
    /\ ["acme/widgets"] <> []
    /\ (forall repo, repo ∈ ["acme/widgets"]
                     <-> repo ∈ dynamicRepos \/ repo ∈ listed passing)
    /\ ["acme/widgets"] `sublist_of` dynamicRepos ++ listed passing.
Proof.
  apply (getRepositories_sound passing (start (acme_with passing))
           (start (acme_with passing)) ["acme/widgets"]).
  vm_compute. reflexivity.
Defined.

Lemma getRepositories_failures_witness :
  getRepositories (Config.mk None None [has_license]) (start acme)
  = (inl no_repositories, start acme).
Proof.
  apply (proj1 (proj2 (getRepositories_failures
                         (Config.mk None None [has_license]) (start acme))));
    reflexivity.
Defined.

Lemma fix_first_points_into_the_report_witness :
  RequiresEntry.check (RequiresEntry.mk "has-license" None)
  ∈ map fst (report_order unlicensed)
  /\ exists target,
       target ∈ report_rows unlicensed
       /\ FileCheck.name (CheckResult.check (ProcessedFailure.failure target))
          = RequiresEntry.check (RequiresEntry.mk "has-license" None)
       /\ ProcessedFailure.repo target
          = ProcessedFailure.repo
              (processed unlicensed (result_of "acme/widgets" spdx false None)).
Proof.
  apply (fix_first_points_into_the_report unlicensed
           (processed unlicensed (result_of "acme/widgets" spdx false None))
           (RequiresEntry.mk "has-license" None));
    apply list_elem_of_In; vm_compute; auto.
Defined.

Lemma unmatched_pattern_status_has_no_bare_pipe_witness :
  let message :=
    FailureStatus.message
      (getFailureStatus
         (result_of "acme/widgets"
            (simple_check "license-kind" "LICENSE" "MIT|BSD") false None)) in
  pipes_escaped message
  /\ unescape_pipes message = "Pattern `" +:+ "MIT|BSD" +:+ "` not found".
Proof.
  apply (unmatched_pattern_status_has_no_bare_pipe
           (result_of "acme/widgets"
              (simple_check "license-kind" "LICENSE" "MIT|BSD") false None)).
  reflexivity.
Defined.

Lemma exit_zero_means_all_passed_witness :
  exists config st0 repositories st1 results st2,
    loadConfig "config.json" (start (acme_with passing)) = (inr config, st0)
    /\ getRepositories config st0 = (inr repositories, st1)
    /\ checkAllRepositories repositories (selected None config) st1
       = (inr results, st2)
    /\ Forall (fun r => CheckResult.passed r = true) results
    /\ trace (snd (main None (start (acme_with passing))))
       = trace st2 ++ [WriteFile REPORT_FILE].
Proof.
  apply (proj2 (exit_zero_means_all_passed None (start (acme_with passing)))).
  vm_compute. reflexivity.
Defined.

Lemma exit_status_reports_failures_witness :
  fst (main None (start (acme_with listing_widgets))) = 1.
Proof.
  edestruct (exit_status_reports_failures (start (acme_with listing_widgets)))
    as [Hfailed _].
  - vm_compute. reflexivity.
  - vm_compute. reflexivity.
  - vm_compute. reflexivity.
  - apply (Hfailed (result_of "acme/widgets" no_todo false None));
      [apply list_elem_of_In; vm_compute; auto | reflexivity].
Defined.

Lemma unreadable_config_ends_the_run_witness :
  main None (start acme)
  = (1, mkState acme
          (trace (start acme)
           ++ [ReadFile "config.json";
               ConsoleError
                 ("Error: Failed to load config from config.json: "
                  +:+ Js.toString
                        (Js.error
                           "ENOENT: no such file or directory, open 'config.json'"))])).
Proof.
  apply (unreadable_config_ends_the_run None (start acme)).
  vm_compute. reflexivity.
Defined.

Lemma section_reference_is_of_first_failure_witness :
  let byCheck := GroupedResults.byCheck (processResults same_name_results) in
  let repoMap := get_or JsMap.empty "has-license" byCheck in
  section_lines example_of byCheck "has-license"
  = inr (["### üîç " +:+ "has-license"; EmptyString;
          "| Repository | File | Status | Reference |";
          "|------------|------|--------|-----------|"]
         ++ concat (map (fun repo =>
                           map (table_row repo
                                  (example_of
                                     (CheckResult.check
                                        (result_of "acme/widgets"
                                           license_apache false None))))
                               (get_or [] repo repoMap))
                        (sort (JsMap.keys repoMap)))
         ++ [EmptyString]).
Proof.
  apply (section_reference_is_of_first_failure example_of same_name_results
           "has-license"
           (result_of "acme/widgets" license_apache false None)).
  vm_compute. reflexivity.
Defined.

Lemma markdown_report_is_always_produced_witness :
  generateMarkdownReport example_of "2024-01-01T00:00:00.000Z"
    [result_of "acme/widgets" has_license true None]
  = inr (join_with LF
           ["# Rules Doctor Report"; EmptyString;
            "Generated: " +:+ "2024-01-01T00:00:00.000Z";
            EmptyString; "## ‚úÖ All checks passed!"])
  /\ reportResults [result_of "acme/widgets" has_license true None]
     = ["‚úÖ All checks passed!"].
Proof.
  apply (proj2 (markdown_report_is_always_produced example_of
                  "2024-01-01T00:00:00.000Z"
                  [result_of "acme/widgets" has_license true None])).
  repeat constructor.
Defined.

Lemma named_run_requests_named_checks_witness :
  exists evs,
    trace (snd (main (Some "has-license") (start (acme_with listing_widgets))))
    = [ReadFile "config.json"] ++ evs
    /\ Forall (fun ev =>
                 is_fetch ev ->
                 exists repo check,
                   repo ∈ ["acme/widgets"]
                   /\ check ∈ Config.checks listing_widgets
                   /\ FileCheck.name check = "has-license"
                   /\ excluded check repo = false
                   /\ requests_file repo (FileCheck.file check) ev)
              evs.
Proof.
  apply (named_run_requests_named_checks "has-license"
           (start (acme_with listing_widgets)) listing_widgets
           (@mkState platform (acme_with listing_widgets)
              [ReadFile "config.json"])
           ["acme/widgets"]
           (@mkState platform (acme_with listing_widgets)
              [ReadFile "config.json"]));
    vm_compute; reflexivity.
Defined.

Lemma report_order_sorted_witness :
  generateMarkdownReport example_of "2024-01-01T00:00:00.000Z"
    same_name_results
  = inr (join_with LF
           (markdown_preamble "2024-01-01T00:00:00.000Z" same_name_results
            ++ concat (map (fun group =>
                              markdown_group
                                (section_reference example_of
                                   same_name_results (fst group)) group)
                           (report_order same_name_results))))
  /\ reportResults same_name_results
     = console_preamble same_name_results
       :: concat (map console_group (report_order same_name_results)).
Proof.
  apply (proj2 (proj2 (report_order_sorted example_of
                         "2024-01-01T00:00:00.000Z" same_name_results))).
  vm_compute. lia.
Defined.

(** The order is that of the code units: a name that begins beyond
    [U+FFFF] is made of surrogates there and comes before one that begins
    with [U+FF5A], although the first byte of its UTF-8 form is the
    greater of the two. *)
Example sort_by_code_unit : sort ["ｚ"; "😀"; "z"] = ["z"; "😀"; "ｚ"].
Proof. vm_compute. reflexivity. Qed.

End MoreScenarios.
